(** * MoodScale backend: a shallow embedding of the request handlers

    The development follows [backend/src/index.ts] (the Express handlers),
    [backend/src/models/MoodEntry.ts] (the Mongoose schema) and the
    manual-playlist check of
    [frontend/src/components/PlaylistPersonalityAnalyzer.tsx].

    Conventions of the embedding.
    - A JavaScript string is the list of its UTF-16 code units.
    - A JavaScript number is a rational, an infinity or NaN.  Every finite
      double is a rational, so comparisons are exact; sums and quotients
      are taken exactly (the rounding of doubles and the sign of zero are
      not represented).
    - A [Date] is its time value: milliseconds since the epoch, in [Z].
    - A value of a request body is what [JSON.parse] can build.  Writing
      one into a template, joining it or taking its minimum converts it,
      which throws for an object with an own property [toString].
    - The services a handler awaits (the generative-language client, the
      catalog, [JSON.parse], the clock, the process environment) are the
      fields of a record [Env]; a rejected promise or a thrown exception is
      [None].
    - A handler is a computation in a small monad that threads the
      document collection and the log of outgoing calls, and may throw.
      The document store itself always answers; what it refuses is a
      document that fails the schema. *)

From Stdlib Require Import ZArith QArith Qround List String Ascii Bool Lia.
From Stdlib Require Import Sorting.Sorted Permutation.
From Stdlib Require Import Lqa.
Import ListNotations.

Local Open Scope Z_scope.
Local Set Warnings "-register-all".

(* ===================================================================== *)
(** ** JavaScript values *)
(* ===================================================================== *)

Module Js.

(** Strings: UTF-16 code units. *)
Definition jsstring := list N.

(** An ASCII literal of the source as a JavaScript string. *)
Definition lit (s : string) : jsstring :=
  List.map N_of_ascii (list_ascii_of_string s).

Fixpoint str_eqb (a b : jsstring) : bool :=
  match a, b with
  | [], [] => true
  | x :: a', y :: b' => N.eqb x y && str_eqb a' b'
  | _, _ => false
  end.

(** [s.startsWith(p)] *)
Fixpoint startsWith (s p : jsstring) {struct p} : bool :=
  match p, s with
  | [], _ => true
  | c :: p', d :: s' => N.eqb c d && startsWith s' p'
  | _ :: _, [] => false
  end.

(** [s.endsWith(p)] *)
Definition endsWith (s p : jsstring) : bool :=
  startsWith (rev s) (rev p).

(** ECMAScript WhiteSpace and LineTerminator code points, the characters
    [String.prototype.trim] strips. *)
Definition is_space (c : N) : bool :=
  let z := Z.of_N c in
  (9 <=? z) && (z <=? 13)            (* TAB LF VT FF CR *)
  || (z =? 32) || (z =? 160)         (* SP, NBSP *)
  || (z =? 5760)                     (* U+1680 *)
  || ((8192 <=? z) && (z <=? 8202))  (* U+2000 .. U+200A *)
  || (z =? 8232) || (z =? 8233)      (* U+2028, U+2029 *)
  || (z =? 8239) || (z =? 8287)      (* U+202F, U+205F *)
  || (z =? 12288) || (z =? 65279).   (* U+3000, U+FEFF *)

Fixpoint trimStart (s : jsstring) : jsstring :=
  match s with
  | c :: s' => if is_space c then trimStart s' else s
  | [] => []
  end.

Definition trimEnd (s : jsstring) : jsstring := rev (trimStart (rev s)).

(** [s.trim()] *)
Definition trim (s : jsstring) : jsstring := trimEnd (trimStart s).

(** [[a-zA-Z0-9]] *)
Definition is_alnum (c : N) : bool :=
  let z := Z.of_N c in
  ((48 <=? z) && (z <=? 57)) || ((65 <=? z) && (z <=? 90))
  || ((97 <=? z) && (z <=? 122)).

(** The longest prefix of [s] made of characters of the class. *)
Fixpoint span_alnum (s : jsstring) : jsstring :=
  match s with
  | c :: s' => if is_alnum c then c :: span_alnum s' else []
  | [] => []
  end.

(** Numbers. *)
Inductive number :=
| Fin (q : Q)
| PosInf
| NegInf
| NaN.

Definition Qltb (a b : Q) : bool := negb (Qle_bool b a).

(** [a < b] on numbers; every comparison with NaN is false. *)
Definition num_lt (a b : number) : bool :=
  match a, b with
  | NaN, _ | _, NaN => false
  | Fin x, Fin y => Qltb x y
  | NegInf, NegInf => false
  | NegInf, _ => true
  | _, PosInf => match a with PosInf => false | _ => true end
  | _, _ => false
  end.

(** [a <= b] *)
Definition num_le (a b : number) : bool :=
  match a, b with
  | NaN, _ | _, NaN => false
  | Fin x, Fin y => Qle_bool x y
  | NegInf, _ => true
  | _, PosInf => true
  | _, _ => false
  end.

Definition num_gt (a b : number) : bool := num_lt b a.
Definition num_ge (a b : number) : bool := num_le b a.

Definition of_Z (z : Z) : number := Fin (inject_Z z).

(** [a + b] *)
Definition num_add (a b : number) : number :=
  match a, b with
  | NaN, _ | _, NaN => NaN
  | Fin x, Fin y => Fin (Qred (x + y))
  | PosInf, NegInf | NegInf, PosInf => NaN
  | PosInf, _ | _, PosInf => PosInf
  | NegInf, _ | _, NegInf => NegInf
  end.

Definition Qsign (x : Q) : Z := Z.sgn (Qnum x).

(** [a / b] *)
Definition num_div (a b : number) : number :=
  match a, b with
  | NaN, _ | _, NaN => NaN
  | Fin x, Fin y =>
      if Qeq_bool y 0 then
        match Qsign x with
        | Z0 => NaN
        | Zpos _ => PosInf
        | Zneg _ => NegInf
        end
      else Fin (Qred (x / y))
  | Fin _, _ => Fin 0
  | _, Fin y =>
      match a, Qsign y with
      | PosInf, Zneg _ | NegInf, Zpos _ | NegInf, Z0 => NegInf
      | _, _ => PosInf
      end
  | _, _ => NaN
  end.

(** Whether a number is an integer (the array indices among them). *)
Definition is_integer (n : number) : bool :=
  match n with
  | Fin q => Qeq_bool (inject_Z (Qfloor q)) q
  | _ => false
  end.

(** Values a parsed JSON body can hold, and [undefined]. *)
Inductive value :=
| VUndefined
| VNull
| VBool (b : bool)
| VNum (n : number)
| VStr (s : jsstring)
| VArr (items : list value)
| VObj (fields : list (jsstring * value)).

(** [typeof v === 'number'] *)
Definition is_number (v : value) : bool :=
  match v with VNum _ => true | _ => false end.

(** ToBoolean *)
Definition truthy (v : value) : bool :=
  match v with
  | VUndefined | VNull => false
  | VBool b => b
  | VNum (Fin q) => negb (Qeq_bool q 0)
  | VNum NaN => false
  | VNum _ => true
  | VStr s => match s with [] => false | _ => true end
  | VArr _ | VObj _ => true
  end.

Fixpoint lookup (k : jsstring) (fs : list (jsstring * value)) : value :=
  match fs with
  | [] => VUndefined
  | (k', v) :: fs' => if str_eqb k k' then v else lookup k fs'
  end.

(** Reading a named property, as the destructuring of [req.body] and the
    accesses [track.title], [aiResponse.insights] do.  [None] is the
    TypeError of reading a property of [null] or [undefined]; a primitive
    or an array has none of the names read here.  The keys of a parsed
    object are distinct. *)
Definition prop (v : value) (k : string) : option value :=
  match v with
  | VUndefined | VNull => None
  | VObj fs => Some (lookup (lit k) fs)
  | _ => Some VUndefined
  end.

(** [Array.isArray(v)] *)
Definition isArray (v : value) : bool :=
  match v with VArr _ => true | _ => false end.

(** SameValueZero, the equality of [Set]: primitives by value (NaN equals
    itself), objects and arrays by identity; the objects of one parsed body
    are pairwise distinct. *)
Definition sameValueZero (a b : value) : bool :=
  match a, b with
  | VUndefined, VUndefined | VNull, VNull => true
  | VBool x, VBool y => Bool.eqb x y
  | VNum NaN, VNum NaN | VNum PosInf, VNum PosInf | VNum NegInf, VNum NegInf => true
  | VNum (Fin x), VNum (Fin y) => Qeq_bool x y
  | VStr x, VStr y => str_eqb x y
  | _, _ => false
  end.

(** [[...new Set(l)]]: first occurrences, in order. *)
Fixpoint unique_acc (seen l : list value) : list value :=
  match l with
  | [] => []
  | v :: l' =>
      if existsb (sameValueZero v) seen then unique_acc seen l'
      else v :: unique_acc (v :: seen) l'
  end.

Definition unique (l : list value) : list value := unique_acc [] l.

End Js.

Import Js.

(* ===================================================================== *)
(** ** The record store ([models/MoodEntry.ts]) *)
(* ===================================================================== *)

Module Store.

(** [IMoodEntry].  The identifier is the store's; the bookkeeping stamps
    of [timestamps: true] are not read by any handler and are left out. *)
Record MoodEntry := {
  _id : N;
  mood : number;
  timestamp : Z;
  note : option jsstring;
  song : option jsstring
}.

(** The collection: the documents in insertion order and the next
    identifier the store hands out. *)
Record Collection := {
  docs : list MoodEntry;
  next_id : N
}.

Definition empty : Collection := {| docs := []; next_id := 0%N |}.

Definition within (limit : nat) (s : option jsstring) : bool :=
  match s with
  | None => true
  | Some x => Nat.leb (List.length x) limit
  end.

(** [MoodEntrySchema]: [mood] is a Number (a NaN does not cast) with
    [min: 0] and [max: 4]; [note] has [maxlength: 500] and [song]
    [maxlength: 200]. *)
Definition validate (e : MoodEntry) : bool :=
  match mood e with
  | NaN => false
  | m => num_ge m (of_Z 0) && num_le m (of_Z 4)
  end
  && within 500 (note e) && within 200 (song e).

(** Insertion before the first element with a smaller key: a stable
    descending sort, as [.sort({ timestamp: -1 })] and the comparator
    [(a, b) => key(b) - key(a)] of [Array.prototype.sort] give. *)
Fixpoint insert_desc {A} (key : A -> Z) (x : A) (l : list A) : list A :=
  match l with
  | [] => [x]
  | y :: l' =>
      if key x <? key y then y :: insert_desc key x l' else x :: l
  end.

Definition sort_desc {A} (key : A -> Z) (l : list A) : list A :=
  fold_right (insert_desc key) [] l.

(** [MoodEntry.find().sort({ timestamp: -1 })] *)
Definition find_sorted (c : Collection) : list MoodEntry :=
  sort_desc timestamp (docs c).

(** [findByIdAndDelete]: the first document with the identifier, and the
    collection without it. *)
Fixpoint remove_id (id : N) (l : list MoodEntry)
  : option (MoodEntry * list MoodEntry) :=
  match l with
  | [] => None
  | e :: l' =>
      if N.eqb (_id e) id then Some (e, l')
      else match remove_id id l' with
           | Some (d, r) => Some (d, e :: r)
           | None => None
           end
  end.

End Store.

Import Store.

(* ===================================================================== *)
(** ** The services a handler awaits *)
(* ===================================================================== *)

(** The text sent to [model.generateContent], kept as the template it is
    built from and the data it is computed from; for a playlist that is
    the list of the tracks, of which the text lists the first 30 and
    gives the counts, the top artists and the years of all. *)
Inductive Prompt :=
| InsightPrompt (label : option string) (withNote : option jsstring)
| PlaylistPrompt (playlistTracks : list value)
| StatsPrompt (recentDailyMoods : list number) (overallAverage : number)
    (streak totalDays : Z) (recentNotes : list jsstring)
| SongsPrompt (label : option string) (withNote withGenre : option value)
    (avoid : option (list value)).

(** [SpotifyTrack] and the items of a playlist page ([item.track] may be
    null). *)
Record SpotifyTrack := {
  name : jsstring;
  artists : list jsstring;
  album_name : jsstring;
  release_date : jsstring;
  duration_ms : number
}.

Record Env := {
  (** [process.env] *)
  GEMINI_API_KEY : option jsstring;
  SPOTIFY_CLIENT_ID : option jsstring;
  SPOTIFY_CLIENT_SECRET : option jsstring;
  (** [new Date()], and local time minus UTC in milliseconds (a zone
      with a constant offset) *)
  now : Z;
  tz_offset : Z;
  (** [(await model.generateContent(prompt)).response.text()] *)
  generateContent : Prompt -> option jsstring;
  (** [JSON.parse]; [None] is its SyntaxError *)
  JSON_parse : jsstring -> option value;
  (** ToNumber on the values the embedding does not convert itself *)
  ToNumber : value -> number;
  (** [response.data.access_token] of the token request *)
  requestToken : option value;
  (** [data.tracks.total] and [data.name] of [GET /v1/playlists/:id] *)
  playlistInfo : jsstring -> option (value * value);
  (** [data.items] of [GET /v1/playlists/:id/tracks] *)
  playlistItems : jsstring -> option (list (option SpotifyTrack));
  (** [new Date(release_date).getFullYear()] *)
  getFullYear : jsstring -> number
}.

(** A variable of [process.env] in a condition: unset and empty are both
    falsy. *)
Definition configured (v : option jsstring) : bool :=
  match v with
  | Some (_ :: _) => true
  | _ => false
  end.

(** Calls that leave the process. *)
Inductive Event :=
| CallAI (p : Prompt)
| CallSpotifyToken
| CallSpotifyPlaylist (id : jsstring)
| CallSpotifyTracks (id : jsstring).

Definition is_ai_call (e : Event) : bool :=
  match e with CallAI _ => true | _ => false end.

(* ===================================================================== *)
(** ** The handler monad *)
(* ===================================================================== *)

Inductive Exn :=
| TypeError
| ValidationError
| CastError
| SyntaxError
| UpstreamError
| Failure (msg : string).

Inductive Result (A : Type) :=
| Ok (a : A)
| Thrown (e : Exn).

Arguments Ok {A} a.
Arguments Thrown {A} e.

(** What a request can change: the collection, and the calls made so far
    (most recent last). *)
Record World := {
  db : Collection;
  calls : list Event
}.

Definition M (A : Type) : Type := World -> Result A * World.

Definition ret {A} (a : A) : M A := fun w => (Ok a, w).

Definition bind {A B} (c : M A) (k : A -> M B) : M B :=
  fun w =>
    match c w with
    | (Ok a, w') => k a w'
    | (Thrown e, w') => (Thrown e, w')
    end.

Definition throw {A} (e : Exn) : M A := fun w => (Thrown e, w).

(** [try { c } catch (error) { h }] *)
Definition try_catch {A} (c : M A) (h : Exn -> M A) : M A :=
  fun w =>
    match c w with
    | (Ok a, w') => (Ok a, w')
    | (Thrown e, w') => h e w'
    end.

Definition emit (e : Event) : M unit :=
  fun w => (Ok tt, {| db := db w; calls := calls w ++ [e] |}).

Definition get_db : M Collection := fun w => (Ok (db w), w).

Definition put_db (c : Collection) : M unit :=
  fun w => (Ok tt, {| db := c; calls := calls w |}).

(** An awaited service: the call is logged, then it answers or rejects. *)
Definition await {A} (e : Event) (answer : option A) : M A :=
  fun w =>
    let w' := {| db := db w; calls := calls w ++ [e] |} in
    match answer with
    | Some a => (Ok a, w')
    | None => (Thrown UpstreamError, w')
    end.

(** A partial pure step. *)
Definition orThrow {A} (e : Exn) (o : option A) : M A :=
  match o with
  | Some a => ret a
  | None => throw e
  end.

Declare Scope handler_scope.
Delimit Scope handler_scope with handler.
Notation "x <- c ;; k" := (bind c (fun x => k))
  (at level 61, c at next level, right associativity) : handler_scope.
Notation "c ;; k" := (bind c (fun _ => k))
  (at level 61, right associativity) : handler_scope.

Local Open Scope handler_scope.

(* ===================================================================== *)
(** ** Responses *)
(* ===================================================================== *)

(** A row of [dailyAverages].  [date] is the UTC calendar date of the key
    [YYYY-MM-DD], held as the number of days since the epoch. *)
Record DailyAverage := {
  date : Z;
  averageMood : number;
  entryCount : nat
}.

(** A sentence of the response: a literal, or one of the two templates of
    the statistics with the values interpolated. *)
Inductive Text :=
| Plain (s : string)
| AverageLine (overallAverage : number) (days : nat)
| StreakLine (streak : nat).

(** [insights] and [recommendations]: what the parsed reply holds, or
    sentences of the handler's own. *)
Inductive Lines :=
| Given (v : value)
| Composed (l : list Text).

Record Song := {
  title : string;
  artist : string;
  reason : string;
  energy : Q;
  mood_match : Q
}.

(** [playlistMetadata]; [yearRange] and [artistDiversity] are rendered
    from [years] and from the two counts. *)
Record PlaylistMetadata := {
  playlistName : value;
  totalTracks : value;
  analyzedTracks : nat;
  uniqueArtists : nat;
  years : list value;
  topArtists : list value
}.

Inductive Body :=
| ErrorBody (error : string)
| MoodList (entries : list MoodEntry)
| Created (entry : MoodEntry) (aiInsight : option jsstring)
| Deleted (message : string) (entry : MoodEntry)
| Insights (insights recommendations : Lines) (average : number)
    (streak totalDays : nat) (dailyAverages : list DailyAverage)
| Parsed (json : value)
| Songs (recommendations : list Song) (playlist_vibe : string)
| Profile (aiResponse : value) (playlistMetadata : PlaylistMetadata).

Record Response := {
  status : Z;
  body : Body
}.

(** [res.json(b)] *)
Definition json (b : Body) : Response := {| status := 200; body := b |}.

(** [res.status(code).json({ error: msg })] *)
Definition fail (code : Z) (msg : string) : Response :=
  {| status := code; body := ErrorBody msg |}.

(* ===================================================================== *)
(** ** Mood entries: [GET], [POST] and [DELETE /api/moods] *)
(* ===================================================================== *)

Definition moodLabels : list string :=
  ["very sad"; "sad"; "neutral"; "happy"; "very happy"]%string.

(** [labels[n]]: defined at the integer indices of the array only. *)
Definition index {A} (l : list A) (n : number) : option A :=
  match n with
  | Fin q =>
      if is_integer n && Qle_bool 0 q then nth_error l (Z.to_nat (Qfloor q))
      else None
  | _ => None
  end.

(** [typeof mood !== 'number' || mood < 0 || mood > 4] *)
Definition mood_rejected (mood : value) : bool :=
  match mood with
  | VNum m => num_lt m (of_Z 0) || num_gt m (of_Z 4)
  | _ => true
  end.

Definition the_number (v : value) : number :=
  match v with VNum m => m | _ => NaN end.

(** [x?.trim() || undefined]; [None] is the TypeError of a value that is
    neither nullish nor a string, which has no [trim] to call. *)
Definition trimmed (v : value) : option (option jsstring) :=
  match v with
  | VUndefined | VNull => Some None
  | VStr s => Some (match trim s with [] => None | t => Some t end)
  | _ => None
  end.

(** [note ? ` with the note: "${note}"` : ''] *)
Definition nonempty (v : value) : option jsstring :=
  match v with
  | VStr (c :: s) => Some (c :: s)
  | _ => None
  end.

(** The prompt of the insight: the label of the mood and the note as
    the body gave it. *)
Definition insight_prompt (m : number) (note : value) : Prompt :=
  InsightPrompt (index moodLabels m) (nonempty note).

(** [new MoodEntry({...}).save()]: the document is validated against the
    schema, then appended. *)
Definition save (mk : N -> MoodEntry) : M MoodEntry :=
  c <- get_db ;;
  let e := mk (next_id c) in
  if validate e then
    put_db {| docs := docs c ++ [e]; next_id := N.succ (next_id c) |} ;;
    ret e
  else throw ValidationError.

(** [GET /api/moods] *)
Definition get_moods : M Response :=
  try_catch
    (c <- get_db ;;
     ret (json (MoodList (firstn 50 (find_sorted c)))))
    (fun _ => ret (fail 500 "Failed to fetch mood entries")).

(** [POST /api/moods] *)
Definition post_moods (env : Env) (reqBody : value) : M Response :=
  try_catch
    (mood <- orThrow TypeError (prop reqBody "mood") ;;
     note <- orThrow TypeError (prop reqBody "note") ;;
     song <- orThrow TypeError (prop reqBody "song") ;;
     if mood_rejected mood then
       ret (fail 400 "Mood must be a number between 0 and 4")
     else
       let m := the_number mood in
       note' <- orThrow TypeError (trimmed note) ;;
       song' <- orThrow TypeError (trimmed song) ;;
       savedEntry <- save (fun id =>
         {| _id := id; mood := m; timestamp := now env;
            note := note'; song := song' |}) ;;
       aiInsight <-
         (if configured (GEMINI_API_KEY env) then
            try_catch
              (text <- await (CallAI (insight_prompt m note))
                         (generateContent env (insight_prompt m note)) ;;
               ret (Some (trim text)))
              (fun _ => ret None)
          else ret None) ;;
       ret (json (Created savedEntry aiInsight)))
    (fun _ => ret (fail 500 "Failed to create mood entry")).

(** The [:id] of the route: empty, not an ObjectId, or an ObjectId. *)
Inductive IdParam :=
| NoId
| BadId
| ObjectId (n : N).

(** [DELETE /api/moods/:id] *)
Definition delete_mood (id : IdParam) : M Response :=
  try_catch
    (match id with
     | NoId => ret (fail 400 "Mood entry ID is required")
     | BadId => throw CastError
     | ObjectId n =>
         c <- get_db ;;
         match remove_id n (docs c) with
         | None => ret (fail 404 "Mood entry not found")
         | Some (deletedEntry, rest) =>
             put_db {| docs := rest; next_id := next_id c |} ;;
             ret (json (Deleted "Mood entry deleted successfully"
                          deletedEntry))
         end
     end)
    (fun _ => ret (fail 500 "Failed to delete mood entry")).

(* ===================================================================== *)
(** ** Statistics: [GET /api/insights] *)
(* ===================================================================== *)

(** Milliseconds in a day. *)
Definition DAY : Z := 86400000.

(** [entry.timestamp.toISOString().split('T')[0]]: the UTC calendar date
    of the instant, as a day number. *)
Definition dateKey (t : Z) : Z := t / DAY.

(** [new Date(dateKey).getTime()]: a date-only string is read as UTC
    midnight. *)
Definition utc_midnight (d : Z) : Z := d * DAY.

(** [dailyMoods.get(dateKey).push(mood)], creating the group on its first
    use; a [Map] keeps the order in which its keys were first set. *)
Fixpoint push_mood (k : Z) (m : number) (g : list (Z * list number))
  : list (Z * list number) :=
  match g with
  | [] => [(k, [m])]
  | (k', ms) :: g' =>
      if k =? k' then (k', ms ++ [m]) :: g'
      else (k', ms) :: push_mood k m g'
  end.

Definition dailyMoods (entries : list MoodEntry) : list (Z * list number) :=
  fold_left (fun g e => push_mood (dateKey (timestamp e)) (mood e) g)
    entries [].

(** [xs.reduce((sum, x) => sum + x, 0)] *)
Definition total (xs : list number) : number :=
  fold_left num_add xs (of_Z 0).

(** [total / count] *)
Definition mean (xs : list number) : number :=
  num_div (total xs) (of_Z (Z.of_nat (List.length xs))).

Definition daily_row (g : Z * list number) : DailyAverage :=
  {| date := fst g;
     averageMood := mean (snd g);
     entryCount := List.length (snd g) |}.

(** The rows, most recent date first. *)
Definition dailyAverages_of (entries : list MoodEntry) : list DailyAverage :=
  sort_desc date (List.map daily_row (dailyMoods entries)).

(** [today.setHours(0, 0, 0, 0)]: midnight of the current day in the
    server's zone. *)
Definition local_midnight (env : Env) : Z :=
  (now env + tz_offset env) / DAY * DAY - tz_offset env.

(** [expectedDate.setDate(today.getDate() - i)] *)
Definition expectedDate (today : Z) (i : Z) : Z := today - i * DAY.

(** The loop over [dailyAverages] from index [i]: one more for each row
    whose date is the expected one, until the first that is not. *)
Fixpoint streak_from (today : Z) (i : Z) (rows : list DailyAverage) : nat :=
  match rows with
  | [] => O
  | r :: rows' =>
      if utc_midnight (date r) =? expectedDate today i
      then S (streak_from today (i + 1) rows')
      else O
  end.

Definition streak_of (env : Env) (rows : list DailyAverage) : nat :=
  streak_from (local_midnight env) 0 rows.

(** [dailyAverages.reduce((sum, day) => sum + day.averageMood, 0) /
    dailyAverages.length] *)
Definition overallAverage_of (rows : list DailyAverage) : number :=
  mean (List.map averageMood rows).

(** [moodEntries.slice(0, 3).map(e => e.note).filter(Boolean)] *)
Definition recentNotes (entries : list MoodEntry) : list jsstring :=
  flat_map (fun e => match note e with
                     | Some (c :: s) => [c :: s]
                     | _ => []
                     end) (firstn 3 entries).

(** [v || []] *)
Definition or_empty (v : value) : Lines :=
  if truthy v then Given v else Composed [].

Definition fallback_insights (avg : number) (days streak : nat) : Lines :=
  Composed [AverageLine avg days; StreakLine streak].

Definition fallback_recommendations : Lines :=
  Composed [Plain "Keep tracking your mood daily for better insights!";
            Plain "Try to identify patterns in your mood changes."].

(** [GET /api/insights] *)
Definition get_insights (env : Env) : M Response :=
  try_catch
    (c <- get_db ;;
     let moodEntries := find_sorted c in
     match moodEntries with
     | [] =>
         ret (json (Insights
           (Composed [Plain "Start tracking your mood to get personalized insights!"])
           (Composed [Plain "Record your first mood entry to begin your journey."])
           (of_Z 2) 0 0 []))
     | _ :: _ =>
         let dailyAverages := dailyAverages_of moodEntries in
         let streak := streak_of env dailyAverages in
         let overallAverage := overallAverage_of dailyAverages in
         let days := List.length dailyAverages in
         let prompt :=
           StatsPrompt (List.map averageMood (firstn 7 dailyAverages))
             overallAverage (Z.of_nat streak) (Z.of_nat days)
             (recentNotes moodEntries) in
         texts <-
           (if configured (GEMINI_API_KEY env) then
              try_catch
                (text <- await (CallAI prompt) (generateContent env prompt) ;;
                 aiResponse <- orThrow SyntaxError (JSON_parse env text) ;;
                 i <- orThrow TypeError (prop aiResponse "insights") ;;
                 r <- orThrow TypeError (prop aiResponse "recommendations") ;;
                 ret (or_empty i, or_empty r))
                (fun _ => ret (fallback_insights overallAverage days streak,
                               fallback_recommendations))
            else ret (fallback_insights overallAverage days streak,
                      fallback_recommendations)) ;;
         ret (json (Insights (fst texts) (snd texts) overallAverage streak
                      days (firstn 30 dailyAverages)))
     end)
    (fun _ => ret (fail 500 "Failed to generate insights")).

(* ===================================================================== *)
(** ** Replies of the generative model *)
(* ===================================================================== *)

Definition fence_open : jsstring := lit "```json".
Definition fence_close : jsstring := lit "```".
Definition LF : N := 10%N.

(** [s.replace(/```json\n?/, '')] on a string that starts with the
    fence. *)
Definition drop_fence_open (s : jsstring) : jsstring :=
  match skipn (List.length fence_open) s with
  | c :: s' => if N.eqb c LF then s' else c :: s'
  | [] => []
  end.

(** [s.replace(/\n?```$/, '')] *)
Definition drop_fence_close (s : jsstring) : jsstring :=
  if endsWith s (LF :: fence_close) then
    firstn (List.length s - 4) s
  else if endsWith s fence_close then
    firstn (List.length s - 3) s
  else s.

(** The clean-up before [JSON.parse]. *)
Definition clean (responseText : jsstring) : jsstring :=
  if startsWith responseText fence_open
  then drop_fence_close (drop_fence_open responseText)
  else responseText.

(* ===================================================================== *)
(** ** Conversion to a string *)
(* ===================================================================== *)

(** Whether ToString (and ToNumber) of a parsed value returns.  A
    primitive always converts.  An object converts through
    [Object.prototype.toString] unless it has an own property [toString],
    which in a parsed body is never a function: then [valueOf] cannot give
    a primitive either and the conversion throws a TypeError.  An array is
    converted by [join], which converts each of its elements ([null] to
    the empty string). *)
Fixpoint stringable (v : value) : bool :=
  match v with
  | VArr items =>
      (fix all (l : list value) : bool :=
         match l with
         | [] => true
         | x :: l' => stringable x && all l'
         end) items
  | VObj fs =>
      negb (existsb (fun kv => str_eqb (fst kv) (lit "toString")) fs)
  | _ => true
  end.

(** [${v}]: [None] is the TypeError of the conversion. *)
Definition interpolate (v : value) : option value :=
  if stringable v then Some v else None.

(** [v ? `... ${v} ...` : '']: the clause, if any. *)
Definition clause (v : value) : option (option value) :=
  if truthy v then
    match interpolate v with
    | Some x => Some (Some x)
    | None => None
    end
  else Some None.

(** [xs.join(', ')] on values, and [Math.min(...xs)]: every element is
    converted. *)
Definition joined (xs : list value) : option (list value) :=
  if forallb stringable xs then Some xs else None.

(* ===================================================================== *)
(** ** Song recommendations: [POST /api/recommend-songs] *)
(* ===================================================================== *)

(** ToNumber: the primitive cases here, the rest from the runtime. *)
Definition to_number (env : Env) (v : value) : number :=
  match v with
  | VUndefined => NaN
  | VNull => of_Z 0
  | VBool b => if b then of_Z 1 else of_Z 0
  | VNum n => n
  | _ => ToNumber env v
  end.

(** [previousSongs && previousSongs.length > 0 ? previousSongs.join(', ')
    : ''].  Only an array has a [join] to call, and [join] converts the
    elements: [None] is the TypeError of a non-empty string, of an object
    whose [length] is positive or does not convert, or of an array with
    an element that does not convert. *)
Definition avoid_clause (env : Env) (previousSongs : value)
  : option (option (list value)) :=
  match previousSongs with
  | VArr [] => Some None
  | VArr l =>
      match joined l with
      | Some xs => Some (Some xs)
      | None => None
      end
  | VStr [] => Some None
  | VStr _ => None
  | VObj fs =>
      if negb (stringable (lookup (lit "length") fs)) then None
      else if num_gt (to_number env (lookup (lit "length") fs)) (of_Z 0)
      then None else Some None
  | _ => Some None
  end.

Definition fallbackRecommendations (mood : number) : list Song :=
  firstn (if num_ge mood (of_Z 3) then 2 else 3)%nat
    [ {| title := "Here Comes the Sun"; artist := "The Beatles";
         reason := "A timeless uplifting classic that brightens any mood.";
         energy := 38 # 10; mood_match := 4 |};
      {| title := "Good as Hell"; artist := "Lizzo";
         reason := "Empowering and energetic, perfect for self-love.";
         energy := 45 # 10;
         mood_match := if num_ge mood (of_Z 3) then 42 # 10 else 3 |};
      {| title := "Weightless"; artist := "Marconi Union";
         reason := "Scientifically designed to reduce anxiety and stress.";
         energy := 15 # 10;
         mood_match := if num_le mood (of_Z 2) then 4 else 25 # 10 |} ].

Definition fallback_vibe (mood : number) : string :=
  if num_ge mood (of_Z 3) then "Upbeat and energizing vibes"
  else "Calming and restorative atmosphere".

(** [POST /api/recommend-songs] *)
Definition recommend_songs (env : Env) (reqBody : value) : M Response :=
  try_catch
    (mood <- orThrow TypeError (prop reqBody "mood") ;;
     note <- orThrow TypeError (prop reqBody "note") ;;
     genre <- orThrow TypeError (prop reqBody "genre") ;;
     previousSongs <- orThrow TypeError (prop reqBody "previousSongs") ;;
     if mood_rejected mood then
       ret (fail 400 "Mood must be a number between 0 and 4")
     else if negb (configured (GEMINI_API_KEY env)) then
       ret (fail 500 "AI service not configured")
     else
       let m := the_number mood in
       withNote <- orThrow TypeError (clause note) ;;
       withGenre <- orThrow TypeError (clause genre) ;;
       avoid <- orThrow TypeError (avoid_clause env previousSongs) ;;
       let prompt :=
         SongsPrompt (index moodLabels m) withNote withGenre avoid in
       text <- await (CallAI prompt) (generateContent env prompt) ;;
       match JSON_parse env (clean (trim text)) with
       | Some recommendations => ret (json (Parsed recommendations))
       | None =>
           ret (json (Songs (fallbackRecommendations m) (fallback_vibe m)))
       end)
    (fun _ => ret (fail 500 "Failed to generate song recommendations")).

(* ===================================================================== *)
(** ** The catalog gateway *)
(* ===================================================================== *)

(** [/lit([a-zA-Z0-9]+)/] without anchors: the leftmost place where the
    literal is followed by a character of the class, and the longest run
    of the class from there. *)
Fixpoint search_after (l s : jsstring) : option jsstring :=
  let here :=
    if startsWith s l then
      match span_alnum (skipn (List.length l) s) with
      | [] => None
      | id => Some id
      end
    else None in
  match here with
  | Some id => Some id
  | None =>
      match s with
      | [] => None
      | _ :: s' => search_after l s'
      end
  end.

(** [/^([a-zA-Z0-9]+)$/] *)
Definition whole_alnum (s : jsstring) : option jsstring :=
  match s with
  | [] => None
  | _ => if forallb is_alnum s then Some s else None
  end.

Definition uri_prefix : jsstring := lit "spotify:playlist:".
Definition link_prefix : jsstring := lit "open.spotify.com/playlist/".

(** [patterns], in the order they are tried. *)
Definition patterns : list (jsstring -> option jsstring) :=
  [search_after uri_prefix; search_after link_prefix; whole_alnum].

Fixpoint first_match (ps : list (jsstring -> option jsstring))
  (s : jsstring) : option jsstring :=
  match ps with
  | [] => None
  | p :: ps' =>
      match p s with
      | Some id => Some id
      | None => first_match ps' s
      end
  end.

Definition extractPlaylistId (spotifyUrl : jsstring) : option jsstring :=
  first_match patterns spotifyUrl.

(** [getSpotifyAccessToken]: [VNull] without credentials or when the token
    request fails. *)
Definition getSpotifyAccessToken (env : Env) : M value :=
  try_catch
    (if negb (configured (SPOTIFY_CLIENT_ID env))
        || negb (configured (SPOTIFY_CLIENT_SECRET env))
     then ret VNull
     else await CallSpotifyToken (requestToken env))
    (fun _ => ret VNull).

(** [xs.join(', ')] *)
Fixpoint join (xs : list jsstring) : jsstring :=
  match xs with
  | [] => []
  | [x] => x
  | x :: xs' => x ++ lit ", " ++ join xs'
  end.

(** [Math.floor] *)
Definition num_floor (n : number) : number :=
  match n with
  | Fin q => of_Z (Qfloor q)
  | _ => n
  end.

(** The [PlaylistTrack] built from a catalog track. *)
Definition track_of (env : Env) (t : SpotifyTrack) : value :=
  VObj [ (lit "title", VStr (name t));
         (lit "artist", VStr (join (artists t)));
         (lit "album", VStr (album_name t));
         (lit "year",
           match release_date t with
           | [] => VUndefined
           | d => VNum (getFullYear env d)
           end);
         (lit "duration",
           VNum (num_floor (num_div (duration_ms t) (of_Z 1000)))) ].

(** [.filter(item => item.track && item.track.name)] then [.map] *)
Definition tracks_of (env : Env) (items : list (option SpotifyTrack))
  : list value :=
  flat_map (fun item =>
    match item with
    | Some t => match name t with [] => [] | _ => [track_of env t] end
    | None => []
    end) items.

(** [getSpotifyPlaylistTracks]: tracks, total and name; any failure is
    rethrown as one error. *)
Definition getSpotifyPlaylistTracks (env : Env) (playlistId : jsstring)
  : M (list value * value * value) :=
  try_catch
    (info <- await (CallSpotifyPlaylist playlistId)
               (playlistInfo env playlistId) ;;
     items <- await (CallSpotifyTracks playlistId)
                (playlistItems env playlistId) ;;
     ret (tracks_of env items, fst info, snd info))
    (fun _ => throw (Failure "Failed to fetch playlist tracks from Spotify")).

(* ===================================================================== *)
(** ** Playlist personality: [POST /api/playlist/analyze] *)
(* ===================================================================== *)

(** [xs.map(f)] for an [f] that may throw. *)
Fixpoint traverse {A B} (f : A -> M B) (xs : list A) : M (list B) :=
  match xs with
  | [] => ret []
  | x :: xs' =>
      y <- f x ;;
      ys <- traverse f xs' ;;
      ret (y :: ys)
  end.

Definition defined (v : value) : bool :=
  match v with VUndefined => false | _ => true end.

(** One line of [playlistSummary]:
    [`${track.title} by ${track.artist}${track.album ? ` (${track.album})`
    : ''}${track.year ? ` [${track.year}]` : ''}`], as the values
    interpolated.  [None] is the TypeError of a track that is [null], or
    of a field that does not convert to a string. *)
Definition summary_line (track : value)
  : option (value * value * option value * option value) :=
  match prop track "title", prop track "artist",
        prop track "album", prop track "year" with
  | Some title, Some artist, Some album, Some year =>
      match interpolate title, interpolate artist,
            clause album, clause year with
      | Some t, Some a, Some al, Some y => Some (t, a, al, y)
      | _, _, _, _ => None
      end
  | _, _, _, _ => None
  end.

(** Where the tracks come from: an early response, or the tracks with the
    total and the name of the playlist. *)
Definition Source : Type := Response + (list value * value * value).

Definition from_catalog (env : Env) (spotifyUrl : value) : M Source :=
  match spotifyUrl with
  | VStr s =>
      match extractPlaylistId s with
      | None =>
          ret (inl (fail 400
            "Invalid Spotify URL. Please provide a valid Spotify playlist URL or ID."))
      | Some playlistId =>
          accessToken <- getSpotifyAccessToken env ;;
          if negb (truthy accessToken) then
            ret (inl (fail 500
              "Spotify integration not configured. Please set SPOTIFY_CLIENT_ID and SPOTIFY_CLIENT_SECRET."))
          else
            try_catch
              (spotifyData <- getSpotifyPlaylistTracks env playlistId ;;
               ret (inr spotifyData))
              (fun _ => ret (inl (fail 400
                 "Failed to fetch playlist from Spotify. Please check the URL and make sure the playlist is public.")))
      end
  | _ => throw TypeError
  end.

Definition from_body (tracks : value) : M Source :=
  match tracks with
  | VArr (t :: l) =>
      ret (inr (t :: l,
                VNum (of_Z (Z.of_nat (List.length (t :: l)))),
                VStr (lit "Manual Playlist")))
  | _ =>
      ret (inl (fail 400
        "Please provide either a Spotify playlist URL or an array of tracks."))
  end.

(** [POST /api/playlist/analyze].  The prompt is computed from the whole
    list of tracks, which is what [PlaylistPrompt] carries: the lines of
    its first 30 tracks, and the number of tracks, the number of distinct
    artists, the first five of them and the range of the years of all.
    Building it can throw, before the model is called. *)
Definition analyze_playlist (env : Env) (reqBody : value) : M Response :=
  try_catch
    (spotifyUrl <- orThrow TypeError (prop reqBody "spotifyUrl") ;;
     tracks <- orThrow TypeError (prop reqBody "tracks") ;;
     source <- (if truthy spotifyUrl then from_catalog env spotifyUrl
                else from_body tracks) ;;
     match source with
     | inl early => ret early
     | inr (playlistTracks, totalPlaylistTracks, name) =>
         match playlistTracks with
         | [] => ret (fail 400 "No tracks found in the playlist.")
         | _ :: _ =>
             if negb (configured (GEMINI_API_KEY env)) then
               ret (fail 500 "AI service not configured")
             else
               playlistSummary <- traverse
                 (fun track => orThrow TypeError (summary_line track))
                 (firstn 30 playlistTracks) ;;
               artists <- traverse
                 (fun t => orThrow TypeError (prop t "artist"))
                 playlistTracks ;;
               allYears <- traverse
                 (fun t => orThrow TypeError (prop t "year"))
                 playlistTracks ;;
               let uniqueArtists := unique artists in
               topArtists <- orThrow TypeError
                 (joined (firstn 5 uniqueArtists)) ;;
               yearRange <- orThrow TypeError
                 (joined (filter defined allYears)) ;;
               text <- await (CallAI (PlaylistPrompt playlistTracks))
                         (generateContent env (PlaylistPrompt playlistTracks)) ;;
               match JSON_parse env (clean (trim text)) with
               | Some aiResponse =>
                   ret (json (Profile aiResponse
                     {| playlistName := name;
                        totalTracks := totalPlaylistTracks;
                        analyzedTracks := List.length playlistTracks;
                        uniqueArtists := List.length uniqueArtists;
                        years := filter defined allYears;
                        topArtists := firstn 5 uniqueArtists |}))
               | None =>
                   ret (fail 500
                     "Failed to analyze playlist - invalid AI response format")
               end
         end
     end)
    (fun _ => ret (fail 500 "Failed to analyze playlist")).

(* ===================================================================== *)
(** ** The form of the playlist analyzer (frontend) *)
(* ===================================================================== *)

Module Form.

(** A row of the manual form. *)
Record Track := {
  title : jsstring;
  artist : jsstring;
  genre : jsstring;
  year : option number
}.

(** What pressing the button does: an error message and no request, or a
    request to [POST /api/playlist/analyze] with this body. *)
Inductive Outcome :=
| ShowError (msg : string)
| Post (reqBody : value).

Definition blank (s : jsstring) : bool :=
  match trim s with [] => true | _ => false end.

(** [track.title.trim() && track.artist.trim()] *)
Definition complete (t : Track) : bool :=
  negb (blank (title t)) && negb (blank (artist t)).

(** The track as the JSON body carries it ([undefined] properties are
    dropped). *)
Definition to_value (t : Track) : value :=
  VObj ([ (lit "title", VStr (title t));
          (lit "artist", VStr (artist t));
          (lit "genre", VStr (genre t)) ]
        ++ match year t with
           | Some y => [(lit "year", VNum y)]
           | None => []
           end).

(** [analyzePersonality] *)
Definition analyzePersonality (useSpotify : bool) (spotifyUrl : jsstring)
  (tracks : list Track) : Outcome :=
  if useSpotify then
    if blank spotifyUrl then
      ShowError "Please enter a valid Spotify playlist URL"
    else Post (VObj [(lit "spotifyUrl", VStr (trim spotifyUrl))])
  else
    let validTracks := filter complete tracks in
    if Nat.ltb (List.length validTracks) 3 then
      ShowError "Please add at least 3 complete songs (title and artist required)"
    else Post (VObj [(lit "tracks", VArr (List.map to_value validTracks))]).

End Form.

(* ===================================================================== *)
(** ** The server *)
(* ===================================================================== *)

Inductive Request :=
| GetMoods
| PostMoods (reqBody : value)
| DeleteMood (id : IdParam)
| GetInsights
| RecommendSongs (reqBody : value)
| AnalyzePlaylist (reqBody : value).

Definition route (env : Env) (r : Request) : M Response :=
  match r with
  | GetMoods => get_moods
  | PostMoods b => post_moods env b
  | DeleteMood id => delete_mood id
  | GetInsights => get_insights env
  | RecommendSongs b => recommend_songs env b
  | AnalyzePlaylist b => analyze_playlist env b
  end.

(** One request against a collection, starting with an empty log: the
    response, the collection afterwards and the calls made. *)
Definition serve (env : Env) (r : Request) (c : Collection)
  : Response * Collection * list Event :=
  match route env r {| db := c; calls := [] |} with
  | (Ok res, w) => (res, db w, calls w)
  | (Thrown _, w) => (fail 500 "Internal Server Error", db w, calls w)
  end.

Definition response_of (x : Response * Collection * list Event) : Response :=
  fst (fst x).
Definition collection_of (x : Response * Collection * list Event)
  : Collection := snd (fst x).
Definition calls_of (x : Response * Collection * list Event) : list Event :=
  snd x.

(** Creations and deletions. *)
Definition is_write (r : Request) : bool :=
  match r with
  | PostMoods _ | DeleteMood _ => true
  | _ => false
  end.

(** The collection after a sequence of requests, each in its own
    environment. *)
Fixpoint replay (ops : list (Env * Request)) (c : Collection) : Collection :=
  match ops with
  | [] => c
  | (env, r) :: ops' => replay ops' (collection_of (serve env r c))
  end.

(** A collection that some sequence of creations and deletions produces
    from the empty one. *)
Definition reachable (c : Collection) : Prop :=
  exists ops,
    forallb (fun o => is_write (snd o)) ops = true /\
    replay ops Store.empty = c.

(* ===================================================================== *)
(** ** Vocabulary of the specification *)
(* ===================================================================== *)

(** An integer of the closed range [0,4]. *)
Definition scale_integer (v : value) : Prop :=
  exists (z : Z) (q : Q),
    0 <= z <= 4 /\ (q == inject_Z z)%Q /\ v = VNum (Fin q).

(** A number of the closed range [0,4], integer or not. *)
Definition scale_number (v : value) : Prop :=
  exists q : Q, (0 <= q)%Q /\ (q <= 4)%Q /\ v = VNum (Fin q).

(** The request was turned down: status 400, an error body, the collection
    as it was and no call made. *)
Definition rejected (c : Collection)
  (x : Response * Collection * list Event) : Prop :=
  exists msg, x = (fail 400 msg, c, []).

(** A non-empty run of letters and digits. *)
Definition identifier (s : jsstring) : Prop :=
  s <> [] /\ forallb is_alnum s = true.

(** The three accepted forms of a playlist reference: the URI form and the
    web-link form anywhere in the string, or a bare identifier. *)
Definition has_form (prefix s : jsstring) : Prop :=
  exists before id after,
    s = before ++ prefix ++ id ++ after /\ identifier id.

Definition accepted_format (s : jsstring) : Prop :=
  has_form uri_prefix s \/ has_form link_prefix s \/ identifier s.

(** A field of the body that carries no text: absent, null, empty or made
    of white space only. *)
Definition no_text (v : value) : Prop :=
  v = VUndefined \/ v = VNull \/
  exists s, v = VStr s /\ forallb is_space s = true.

(** A stored optional text is absent or non-empty. *)
Definition absent_or_nonempty (o : option jsstring) : Prop :=
  o <> Some [].

(** Every entry of the collection keeps its texts that way. *)
Definition texts_kept (c : Collection) : Prop :=
  Forall (fun e => absent_or_nonempty (note e)
                   /\ absent_or_nonempty (song e)) (docs c).

(** Most recent first. *)
Definition descending (l : list MoodEntry) : Prop :=
  StronglySorted (fun a b => timestamp b <= timestamp a) l.

(** The mean of the moods of all entries, each entry weighted equally. *)
Definition raw_mean (entries : list MoodEntry) : number :=
  mean (List.map mood entries).

(** The moods filed under a date in the groups of [dailyMoods]. *)
Fixpoint moods_of (k : Z) (g : list (Z * list number)) : list number :=
  match g with
  | [] => []
  | (k', ms) :: g' => if k =? k' then ms else moods_of k g'
  end.

(** The entries of one UTC calendar date. *)
Definition on_date (d : Z) (entries : list MoodEntry) : list MoodEntry :=
  filter (fun e => dateKey (timestamp e) =? d) entries.

(* ===================================================================== *)
(** ** Sample environments and requests *)
(* ===================================================================== *)

Module Sample.

(** A stand-in for [JSON.parse] that reads the empty object and nothing
    else. *)
Definition parse (s : jsstring) : option value :=
  if str_eqb s (lit "{}") then Some (VObj []) else None.

(** 2023-11-14T12:00:00Z *)
Definition noon : Z := 19675 * DAY + 12 * 3600000.

(** UTC+05:30 *)
Definition kolkata : Z := 19800000.

(** A server whose clock reads [t] in the zone [tz], with the AI key set
    or not, and a model that answers [reply] to every prompt. *)
Definition env (t tz : Z) (key : bool) (reply : option jsstring) : Env :=
  {| GEMINI_API_KEY := if key then Some (lit "k") else None;
     SPOTIFY_CLIENT_ID := None;
     SPOTIFY_CLIENT_SECRET := None;
     now := t;
     tz_offset := tz;
     generateContent := fun _ => reply;
     JSON_parse := parse;
     ToNumber := fun _ => NaN;
     requestToken := None;
     playlistInfo := fun _ => None;
     playlistItems := fun _ => None;
     getFullYear := fun _ => NaN |}.

Definition mood_body (m : value) (note : value) : value :=
  VObj [(lit "mood", m); (lit "note", note)].

(** One mood recorded at each of today, today-1, today-2 and today-4. *)
Definition four_days (tz : Z) : Collection :=
  replay
    (List.map (fun k =>
       (env (noon - k * DAY) tz false None,
        PostMoods (mood_body (VNum (of_Z 2)) VUndefined)))
       [4; 2; 1; 0])
    Store.empty.

(** Three moods of 0 yesterday and one of 4 today. *)
Definition uneven : Collection :=
  replay
    (List.map (fun km =>
       (env (noon - fst km * DAY) 0 false None,
        PostMoods (mood_body (VNum (of_Z (snd km))) VUndefined)))
       [(1, 0); (1, 0); (1, 0); (0, 4)])
    Store.empty.

Definition one_track : value :=
  VObj [(lit "title", VStr (lit "Imagine"));
        (lit "artist", VStr (lit "John Lennon"))].

End Sample.

(* ===================================================================== *)
(** ** Music analysis: [POST /api/music/analyze] *)
(* ===================================================================== *)

Module Music.

(** [MusicAnalysis] *)
Record Analysis := {
  title : value;
  artist : value;
  energy : Q;
  valence : Q;
  danceability : Q;
  tempo : Q;
  moodPrediction : jsstring
}.

(** The four results of [Math.random()], in the order they are drawn. *)
Record Draws := {
  u1 : Q;
  u2 : Q;
  u3 : Q;
  u4 : Q
}.

(** The response, and the analyses the model was asked about (the prompt
    is built from the features, the title and the artist). *)
Record Answer := {
  status : Z;
  body : Analysis + string;
  asked : list Analysis
}.

(** [v || 'default'] *)
Definition or_else (v : value) (d : string) : value :=
  if truthy v then v else VStr (lit d).

Definition mockAnalysis (r : Draws) (t a : value) : Analysis :=
  {| title := or_else t "Unknown Song";
     artist := or_else a "Unknown Artist";
     energy := u1 r;
     valence := u2 r;
     danceability := u3 r;
     tempo := 120 + u4 r * 60;
     moodPrediction := [] |}.

Definition predicted (m : Analysis) (p : jsstring) : Analysis :=
  {| title := title m; artist := artist m; energy := energy m;
     valence := valence m; danceability := danceability m;
     tempo := tempo m; moodPrediction := p |}.

(** The handler: [generate] is the text the model answers to the prompt
    of an analysis, [None] when the call fails.  The prompt interpolates
    the title and the artist inside the inner [try]: when one of them does
    not convert to a string the model is not called and the prediction is
    the one of the [catch]. *)
Definition analyze (env : Env) (generate : Analysis -> option jsstring)
  (r : Draws) (reqBody : value) : Answer :=
  match prop reqBody "songUrl", prop reqBody "title",
        prop reqBody "artist" with
  | Some _, Some t, Some a =>
      let mock := mockAnalysis r t a in
      if configured (GEMINI_API_KEY env) then
        match interpolate (title mock), interpolate (artist mock) with
        | Some _, Some _ =>
            match generate mock with
            | Some text =>
                {| status := 200; body := inl (predicted mock (trim text));
                   asked := [mock] |}
            | None =>
                {| status := 200;
                   body := inl (predicted mock (lit "Neutral"));
                   asked := [mock] |}
            end
        | _, _ =>
            {| status := 200; body := inl (predicted mock (lit "Neutral"));
               asked := [] |}
        end
      else
        {| status := 200; body := inl (predicted mock (lit "Neutral"));
           asked := [] |}
  | _, _, _ =>
      {| status := 500; body := inr "Failed to analyze music"%string;
         asked := [] |}
  end.

End Music.

(* ===================================================================== *)
(** ** The forms that call the handlers (frontend) *)
(* ===================================================================== *)

(** Editing the rows of the manual playlist form. *)
Module Editor.

Definition blank_row : Form.Track :=
  {| Form.title := []; Form.artist := []; Form.genre := [];
     Form.year := None |}.

(** [addTrack] *)
Definition addTrack (tracks : list Form.Track) : list Form.Track :=
  tracks ++ [blank_row].

(** [tracks.filter((_, i) => i !== index)] *)
Fixpoint without (index : nat) (tracks : list Form.Track)
  : list Form.Track :=
  match tracks, index with
  | [], _ => []
  | _ :: rest, O => rest
  | t :: rest, S i => t :: without i rest
  end.

(** [removeTrack] *)
Definition removeTrack (index : nat) (tracks : list Form.Track)
  : list Form.Track :=
  if Nat.ltb 1 (List.length tracks) then without index tracks else tracks.

End Editor.

(** The mood tracker: [handleMoodSubmit] sends nothing while no mood is
    selected, and otherwise [createMood(selectedMood, note.trim() ||
    undefined)]; the body drops the properties that are [undefined]. *)
Module Tracker.

Definition handleMoodSubmit (selectedMood : option nat) (note : jsstring)
  : option value :=
  match selectedMood with
  | None => None
  | Some i =>
      Some (VObj ((lit "mood", VNum (of_Z (Z.of_nat i)))
                  :: match trim note with
                     | [] => []
                     | t => [(lit "note", VStr t)]
                     end))
  end.

End Tracker.

(* ===================================================================== *)
(** ** Further vocabulary *)
(* ===================================================================== *)

(** A number of the scale. *)
Definition in_scale (n : number) : Prop :=
  exists q : Q, n = Fin q /\ (0 <= q)%Q /\ (q <= 4)%Q.

Definition moods_in_scale (c : Collection) : Prop :=
  Forall (fun e => in_scale (mood e)) (docs c).

(** The limits of the schema on the texts. *)
Definition texts_bounded (c : Collection) : Prop :=
  Forall (fun e => within 500 (note e) = true /\ within 200 (song e) = true)
    (docs c).

(** Identifiers are distinct and below the next one the store hands out. *)
Definition ids_fresh (c : Collection) : Prop :=
  NoDup (List.map _id (docs c))
  /\ Forall (fun e => (_id e < next_id c)%N) (docs c).

(** Some stored entry is of the UTC date [d]. *)
Definition has_entry_on (c : Collection) (d : Z) : Prop :=
  exists e, In e (docs c) /\ dateKey (timestamp e) = d.

(** Nothing of [s] continues an identifier that ends where [s] starts. *)
Definition stops_identifier (s : jsstring) : Prop :=
  match s with
  | [] => True
  | ch :: _ => is_alnum ch = false
  end.

(** Calls to the catalog. *)
Definition is_catalog_call (e : Event) : bool :=
  match e with
  | CallAI _ => false
  | _ => true
  end.

(** An entry of the body that is an object or a primitive: reading its
    properties does not throw. *)
Definition readable (t : value) : bool :=
  match t with
  | VUndefined | VNull => false
  | _ => true
  end.

(** [t[k]] once [t] is known to be readable. *)
Definition field (k : string) (t : value) : value :=
  match prop t k with
  | Some v => v
  | None => VUndefined
  end.

(** The metadata the handler computes from the tracks. *)
Definition metadata_of (ts : list value) (total name : value)
  : PlaylistMetadata :=
  {| playlistName := name;
     totalTracks := total;
     analyzedTracks := List.length ts;
     uniqueArtists := List.length (unique (List.map (field "artist") ts));
     years := filter defined (List.map (field "year") ts);
     topArtists := firstn 5 (unique (List.map (field "artist") ts)) |}.

(** Whether the prompt can be built from the tracks: no track is [null],
    the four fields of each of the first 30 tracks convert to strings, and
    so do the first five distinct artists and the years of all the
    tracks. *)
Definition prompt_builds (ts : list value) : bool :=
  forallb (fun t => match summary_line t with
                    | Some _ => true
                    | None => false
                    end) (firstn 30 ts)
  && forallb readable ts
  && forallb stringable (firstn 5 (unique (List.map (field "artist") ts)))
  && forallb stringable (filter defined (List.map (field "year") ts)).

(** A value that is not an object or an array. *)
Definition primitive (v : value) : bool :=
  match v with
  | VArr _ | VObj _ => false
  | _ => true
  end.

(** A track whose title, artist, album and year are strings, numbers,
    booleans, null or absent. *)
Definition plain_track (t : value) : bool :=
  readable t
  && primitive (field "title" t) && primitive (field "artist" t)
  && primitive (field "album" t) && primitive (field "year" t).

(** The calendar date of an instant in the zone [tz] (as a day number). *)
Definition local_date (tz t : Z) : Z := dateKey (t + tz).


(** The second half of [analyze_playlist], from the source of the tracks
    on (the same text as in the handler). *)
Definition analysis_of (env : Env) (source : Source) : M Response :=
  match source with
  | inl early => ret early
  | inr (playlistTracks, totalPlaylistTracks, name) =>
      match playlistTracks with
      | [] => ret (fail 400 "No tracks found in the playlist.")
      | _ :: _ =>
          if negb (configured (GEMINI_API_KEY env)) then
            ret (fail 500 "AI service not configured")
          else
            playlistSummary <- traverse
              (fun track => orThrow TypeError (summary_line track))
              (firstn 30 playlistTracks) ;;
            artists <- traverse
              (fun t => orThrow TypeError (prop t "artist"))
              playlistTracks ;;
            allYears <- traverse
              (fun t => orThrow TypeError (prop t "year"))
              playlistTracks ;;
            let uniqueArtists := unique artists in
            topArtists <- orThrow TypeError
              (joined (firstn 5 uniqueArtists)) ;;
            yearRange <- orThrow TypeError
              (joined (filter defined allYears)) ;;
            text <- await (CallAI (PlaylistPrompt playlistTracks))
                      (generateContent env (PlaylistPrompt playlistTracks)) ;;
            match JSON_parse env (clean (trim text)) with
            | Some aiResponse =>
                ret (json (Profile aiResponse
                  {| playlistName := name;
                     totalTracks := totalPlaylistTracks;
                     analyzedTracks := List.length playlistTracks;
                     uniqueArtists := List.length uniqueArtists;
                     years := filter defined allYears;
                     topArtists := firstn 5 uniqueArtists |}))
            | None =>
                ret (fail 500
                  "Failed to analyze playlist - invalid AI response format")
            end
      end
  end.

(** What the analysis of a list of tracks comes to, as a response and the
    calls made for it. *)
Definition analysed (env : Env) (ts : list value) (total name : value)
  : Response * list Event :=
  match ts with
  | [] => (fail 400 "No tracks found in the playlist.", [])
  | _ :: _ =>
      if negb (configured (GEMINI_API_KEY env)) then
        (fail 500 "AI service not configured", [])
      else if negb (prompt_builds ts) then
        (fail 500 "Failed to analyze playlist", [])
      else
        match generateContent env (PlaylistPrompt ts) with
        | None =>
            (fail 500 "Failed to analyze playlist",
             [CallAI (PlaylistPrompt ts)])
        | Some text =>
            match JSON_parse env (clean (trim text)) with
            | Some ai =>
                (json (Profile ai (metadata_of ts total name)),
                 [CallAI (PlaylistPrompt ts)])
            | None =>
                (fail 500
                   "Failed to analyze playlist - invalid AI response format",
                 [CallAI (PlaylistPrompt ts)])
            end
        end
  end.

(** A computation that leaves the collection as it finds it. *)
Definition keeps_db {A} (c : M A) : Prop :=
  forall w, db (snd (c w)) = db w.

(** More sample data. *)
Module Example.

Definition draws : Music.Draws :=
  {| Music.u1 := 1 # 2; Music.u2 := 1 # 4; Music.u3 := 3 # 4;
     Music.u4 := 1 # 3 |}.

(** A catalog with credentials, a token, and one playlist of two items,
    the second without a track. *)
Definition catalog_env (items : option (list (option SpotifyTrack)))
  (key : bool) (reply : option jsstring) : Env :=
  {| GEMINI_API_KEY := if key then Some (lit "k") else None;
     SPOTIFY_CLIENT_ID := Some (lit "id");
     SPOTIFY_CLIENT_SECRET := Some (lit "secret");
     now := Sample.noon;
     tz_offset := 0;
     generateContent := fun _ => reply;
     JSON_parse := Sample.parse;
     ToNumber := fun _ => NaN;
     requestToken := Some (VStr (lit "token"));
     playlistInfo := fun _ => Some (VNum (of_Z 2), VStr (lit "Mix"));
     playlistItems := fun _ => items;
     getFullYear := fun _ => of_Z 1971 |}.

Definition imagine : SpotifyTrack :=
  {| name := lit "Imagine"; artists := [lit "John Lennon"];
     album_name := lit "Imagine"; release_date := lit "1971-09-09";
     duration_ms := of_Z 183000 |}.

(** Two moods, 1 and 3, recorded on a server at UTC+05:30 at 02:00 and
    at 10:00 of 14 November 2023 there, which is 20:30 of the 13th and
    04:30 of the 14th in UTC. *)
Definition one_local_day : Collection :=
  replay
    (List.map (fun tm =>
       (Sample.env (fst tm) Sample.kolkata false None,
        PostMoods (Sample.mood_body (VNum (of_Z (snd tm))) VUndefined)))
       [(Sample.noon - 55800000, 1); (Sample.noon - 27000000, 3)])
    Store.empty.

Definition row (t a : string) : Form.Track :=
  {| Form.title := lit t; Form.artist := lit a; Form.genre := [];
     Form.year := None |}.

End Example.

(* ===================================================================== *)
(** * Properties *)
(* ===================================================================== *)

(** ** Reading the body *)

Lemma prop_total (v w : value) (k k' : string) :
  prop v k = Some w -> exists w', prop v k' = Some w'.
Proof.
  destruct v; simpl; intros H; try discriminate; eauto.
Qed.

Lemma Qltb_false (a b : Q) : (b <= a)%Q -> Qltb a b = false.
Proof.
  intros H. unfold Qltb. apply Qle_bool_iff in H. now rewrite H.
Qed.

(** The guard lets through exactly the numbers of the closed range. *)
Lemma mood_rejected_false (v : value) :
  mood_rejected v = false <-> scale_number v \/ v = VNum NaN.
Proof.
  split.
  - destruct v as [| | b | n | s | l | fs]; simpl; try discriminate.
    destruct n as [q | | |]; try discriminate.
    + intros H. apply orb_false_iff in H. destruct H as [H0 H4].
      unfold num_gt, num_lt, of_Z, Qltb in *.
      apply negb_false_iff in H0, H4. apply Qle_bool_iff in H0, H4.
      left. exists q. auto.
    + intros _. now right.
  - intros [(q & H0 & H4 & ->) | ->]; [| reflexivity].
    simpl. unfold num_gt, num_lt, of_Z.
    rewrite (Qltb_false q (inject_Z 0)) by exact H0.
    now rewrite (Qltb_false (inject_Z 4) q) by exact H4.
Qed.

Lemma mood_rejected_true (v : value) :
  ~ scale_number v -> v <> VNum NaN -> mood_rejected v = true.
Proof.
  intros Hs Hn. destruct (mood_rejected v) eqn:E; [reflexivity |].
  apply mood_rejected_false in E. tauto.
Qed.

(** ** [POST /api/moods]: validation *)

Lemma post_moods_400 (env : Env) (reqBody mood : value) (c : Collection) :
  prop reqBody "mood" = Some mood ->
  mood_rejected mood = true ->
  serve env (PostMoods reqBody) c
  = (fail 400 "Mood must be a number between 0 and 4", c, []).
Proof.
  intros Hp Hr.
  destruct (prop_total _ _ _ "note" Hp) as [n Hn].
  destruct (prop_total _ _ _ "song" Hp) as [s Hs].
  unfold serve, route, post_moods, try_catch, bind, orThrow.
  rewrite Hp, Hn, Hs. simpl. rewrite Hr. simpl. now destruct c.
Qed.

(** C1, as amended.  Whenever the [mood] of the body is not a number of
    the closed range [0,4] (NaN, which no JSON body carries, apart),
    [POST /api/moods] answers 400 and stores nothing; being an integer is
    not asked for. *)
Theorem post_moods_rejects_outside_scale
  (env : Env) (reqBody mood : value) (c : Collection) :
  prop reqBody "mood" = Some mood ->
  ~ scale_number mood ->
  mood <> VNum NaN ->
  status (response_of (serve env (PostMoods reqBody) c)) = 400
  /\ collection_of (serve env (PostMoods reqBody) c) = c
  /\ calls_of (serve env (PostMoods reqBody) c) = [].
Proof.
  intros Hp Hs Hn.
  rewrite (post_moods_400 env reqBody mood c Hp
             (mood_rejected_true mood Hs Hn)).
  repeat split.
Qed.

Lemma post_moods_rejects_outside_scale_witness :
  let reqBody := Sample.mood_body (VStr (lit "3")) VUndefined in
  let env := Sample.env Sample.noon 0 true None in
  status (response_of (serve env (PostMoods reqBody) Store.empty)) = 400
  /\ collection_of (serve env (PostMoods reqBody) Store.empty) = Store.empty
  /\ calls_of (serve env (PostMoods reqBody) Store.empty) = [].
Proof.
  intros reqBody env.
  apply (post_moods_rejects_outside_scale env reqBody (VStr (lit "3"))).
  - reflexivity.
  - intros (q & _ & _ & H). discriminate.
  - discriminate.
Defined.

(** C1, as stated, fails: 2.5 is not an integer of [0,4], yet the request
    is answered 200 and the entry is stored. *)
Lemma post_moods_stores_fraction :
  let half := VNum (Fin (5 # 2)) in
  let env := Sample.env Sample.noon 0 false None in
  let r := serve env (PostMoods (Sample.mood_body half VUndefined))
             Store.empty in
  ~ scale_integer half
  /\ status (response_of r) = 200
  /\ docs (collection_of r)
     = [ {| _id := 0%N; mood := Fin (5 # 2); timestamp := Sample.noon;
            note := None; song := None |} ].
Proof.
  intros half env r. split.
  - intros (z & q & Hz & Hq & H). injection H as <-.
    unfold Qeq in Hq. simpl in Hq. lia.
  - vm_compute. split; reflexivity.
Qed.

(** ** [GET /api/insights] on an empty collection *)

Lemma sort_desc_nil_inv {A} (key : A -> Z) (l : list A) :
  sort_desc key l = [] -> l = [].
Proof.
  destruct l as [| x l]; [reflexivity |].
  simpl. destruct (sort_desc key l) as [| y l']; simpl; [discriminate |].
  destruct (key x <? key y); discriminate.
Qed.

(** C10.  With no mood entry stored, [GET /api/insights] answers 200 with
    the fixed payload: the starter insight and recommendation, an average
    of 2, a streak of 0, 0 days and no daily row; nothing is called and
    nothing is stored. *)
Theorem insights_of_empty_store (env : Env) (c : Collection) :
  docs c = [] ->
  serve env GetInsights c
  = (json (Insights
       (Composed [Plain "Start tracking your mood to get personalized insights!"])
       (Composed [Plain "Record your first mood entry to begin your journey."])
       (of_Z 2) 0 0 []),
     c, []).
Proof.
  intros H. destruct c as [d n]. simpl in H. subst d. reflexivity.
Qed.

Lemma insights_of_empty_store_witness :
  status (response_of
    (serve (Sample.env Sample.noon 0 true None) GetInsights Store.empty))
  = 200.
Proof.
  rewrite (insights_of_empty_store (Sample.env Sample.noon 0 true None)
             Store.empty); reflexivity.
Defined.

(** ** Sorting *)

Section Sorting.

Context {A : Type} (key : A -> Z).

Lemma insert_desc_perm (x : A) (l : list A) :
  Permutation (insert_desc key x l) (x :: l).
Proof.
  induction l as [| y l IH]; simpl; [reflexivity |].
  destruct (key x <? key y); [| reflexivity].
  rewrite IH. apply perm_swap.
Qed.

Lemma sort_desc_perm (l : list A) : Permutation (sort_desc key l) l.
Proof.
  induction l as [| x l IH]; simpl; [reflexivity |].
  rewrite insert_desc_perm. now constructor.
Qed.

Let ge_key (a b : A) : Prop := key b <= key a.

Lemma insert_desc_sorted (x : A) (l : list A) :
  StronglySorted ge_key l -> StronglySorted ge_key (insert_desc key x l).
Proof.
  induction 1 as [| y l Hs IH Hy]; simpl.
  - repeat constructor.
  - destruct (Z.ltb_spec (key x) (key y)) as [Hlt | Hge].
    + constructor; [exact IH |].
      rewrite (Forall_forall (ge_key y)). intros z Hz.
      apply (Permutation_in _ (insert_desc_perm x l)) in Hz.
      destruct Hz as [<- | Hz].
      * unfold ge_key. lia.
      * rewrite Forall_forall in Hy. now apply Hy.
    + constructor; [now constructor |].
      constructor; [exact Hge |].
      rewrite Forall_forall in *. intros z Hz. specialize (Hy z Hz).
      unfold ge_key in *. lia.
Qed.

Lemma sort_desc_sorted (l : list A) : StronglySorted ge_key (sort_desc key l).
Proof.
  induction l as [| x l IH]; simpl; [constructor |].
  now apply insert_desc_sorted.
Qed.

End Sorting.

Lemma firstn_In {A} (n : nat) (l : list A) (x : A) :
  In x (firstn n l) -> In x l.
Proof.
  revert l. induction n as [| n IH]; intros [| y l]; simpl; try tauto.
  intros [H | H]; [now left | right; now apply IH].
Qed.

Lemma firstn_sorted {A} (R : A -> A -> Prop) (n : nat) (l : list A) :
  StronglySorted R l -> StronglySorted R (firstn n l).
Proof.
  intros H. revert n.
  induction H as [| x l Hs IH Hx]; intros [| n]; simpl; try constructor.
  - apply IH.
  - rewrite Forall_forall in *. intros y Hy. apply Hx.
    now apply (firstn_In n).
Qed.

(** ** [GET /api/moods] *)

Lemma get_moods_serve (env : Env) (c : Collection) :
  serve env GetMoods c
  = (json (MoodList (firstn 50 (find_sorted c))), c, []).
Proof. now destruct c. Qed.

(** C6.  After any sequence of creations and deletions, [GET /api/moods]
    answers 200 with the first 50 of the stored entries put most recent
    first: at most 50 entries, in descending order of timestamp. *)
Theorem get_moods_recent_first (env : Env) (c : Collection) :
  reachable c ->
  exists entries,
    response_of (serve env GetMoods c) = json (MoodList entries)
    /\ (List.length entries <= 50)%nat
    /\ descending entries
    /\ exists all,
         Permutation all (docs c) /\ descending all
         /\ entries = firstn 50 all.
Proof.
  intros _. rewrite get_moods_serve.
  exists (firstn 50 (find_sorted c)). split; [reflexivity |].
  split; [apply firstn_le_length |].
  split.
  - apply firstn_sorted. apply (sort_desc_sorted timestamp).
  - exists (find_sorted c). split; [apply sort_desc_perm |].
    split; [apply (sort_desc_sorted timestamp) | reflexivity].
Qed.

Lemma get_moods_recent_first_witness :
  exists entries,
    response_of (serve (Sample.env Sample.noon 0 false None) GetMoods
                   (Sample.four_days 0))
    = json (MoodList entries)
    /\ (List.length entries <= 50)%nat
    /\ descending entries
    /\ exists all,
         Permutation all (docs (Sample.four_days 0)) /\ descending all
         /\ entries = firstn 50 all.
Proof.
  apply (get_moods_recent_first (Sample.env Sample.noon 0 false None)
           (Sample.four_days 0)).
  exists (List.map (fun k =>
            (Sample.env (Sample.noon - k * DAY) 0 false None,
             PostMoods (Sample.mood_body (VNum (of_Z 2)) VUndefined)))
            [4; 2; 1; 0]).
  split; reflexivity.
Defined.

(** ** [POST /api/moods]: what a request does *)

(** Either nothing is stored, no entry is returned and nothing is called;
    or the body passed the guard, its texts were trimmed, the document
    passed the schema and was appended, and the insight is whatever the
    model answered, if it was asked at all. *)
Lemma post_moods_inv (env : Env) (reqBody : value) (c : Collection) :
  let r := serve env (PostMoods reqBody) c in
  (collection_of r = c
   /\ (forall e ai, response_of r <> json (Created e ai))
   /\ calls_of r = [])
  \/
  exists m noteV songV n' s',
    let e := {| _id := next_id c; mood := m; timestamp := now env;
                note := n'; song := s' |} in
    prop reqBody "mood" = Some (VNum m)
    /\ prop reqBody "note" = Some noteV
    /\ prop reqBody "song" = Some songV
    /\ mood_rejected (VNum m) = false
    /\ trimmed noteV = Some n' /\ trimmed songV = Some s'
    /\ validate e = true
    /\ collection_of r
       = {| docs := docs c ++ [e]; next_id := N.succ (next_id c) |}
    /\ ((configured (GEMINI_API_KEY env) = false
         /\ response_of r = json (Created e None) /\ calls_of r = [])
        \/ (configured (GEMINI_API_KEY env) = true
            /\ response_of r
               = json (Created e
                   (option_map trim
                      (generateContent env (insight_prompt m noteV))))
            /\ calls_of r = [CallAI (insight_prompt m noteV)])).
Proof.
  intros r. subst r. destruct c as [d nx].
  unfold serve, route, post_moods, try_catch, bind, orThrow.
  destruct (prop reqBody "mood") as [mood |] eqn:Hm;
    [| left; simpl; repeat split; discriminate].
  destruct (prop_total _ _ _ "note" Hm) as [noteV Hn].
  destruct (prop_total _ _ _ "song" Hm) as [songV Hs].
  rewrite Hn, Hs. simpl.
  destruct (mood_rejected mood) eqn:Hr;
    [left; simpl; repeat split; discriminate |].
  destruct mood as [| | b | m | s | l | fs]; try discriminate Hr.
  simpl the_number.
  destruct (trimmed noteV) as [n' |] eqn:Tn;
    [| left; simpl; repeat split; discriminate].
  destruct (trimmed songV) as [s' |] eqn:Ts;
    [| left; simpl; repeat split; discriminate].
  unfold save, bind, get_db, put_db, ret, throw. simpl.
  destruct (validate _) eqn:Hv;
    [| left; simpl; repeat split; discriminate].
  right. exists m, noteV, songV, n', s'.
  destruct (configured (GEMINI_API_KEY env)) eqn:Hk.
  - unfold await.
    destruct (generateContent env _) eqn:Hg; simpl;
      repeat (split; [assumption || reflexivity |]);
      right; repeat split.
  - simpl. repeat (split; [assumption || reflexivity |]).
    left. repeat split.
Qed.

(** C5.  In any collection that creations and deletions lead to, when the
    call to the model made by [POST /api/moods] fails, the request is
    still answered 200 with the saved entry and a null [aiInsight], and
    the entry is in the collection. *)
Theorem post_moods_survives_ai_failure
  (env : Env) (reqBody : value) (c : Collection) (p : Prompt) :
  reachable c ->
  In (CallAI p) (calls_of (serve env (PostMoods reqBody) c)) ->
  generateContent env p = None ->
  exists entry,
    response_of (serve env (PostMoods reqBody) c)
    = {| status := 200; body := Created entry None |}
    /\ docs (collection_of (serve env (PostMoods reqBody) c))
       = docs c ++ [entry].
Proof.
  intros _ Hcall Hfail.
  destruct (post_moods_inv env reqBody c)
    as [(_ & _ & Hnone) | (m & noteV & songV & n' & s' & H)].
  - rewrite Hnone in Hcall. contradiction.
  - cbv zeta in H.
    destruct H as (_ & _ & _ & _ & _ & _ & _ & Hdb & [(_ & _ & Hc) | (_ & Hres & Hc)]).
    + rewrite Hc in Hcall. contradiction.
    + rewrite Hc in Hcall. destruct Hcall as [Heq | []].
      injection Heq as <-. rewrite Hfail in Hres.
      eexists. split; [exact Hres |]. now rewrite Hdb.
Qed.

Lemma post_moods_survives_ai_failure_witness :
  let env := Sample.env Sample.noon 0 true None in
  let reqBody := Sample.mood_body (VNum (of_Z 3)) (VStr (lit "long day")) in
  exists entry,
    response_of (serve env (PostMoods reqBody) Store.empty)
    = {| status := 200; body := Created entry None |}
    /\ docs (collection_of (serve env (PostMoods reqBody) Store.empty))
       = docs Store.empty ++ [entry].
Proof.
  intros env reqBody.
  apply (post_moods_survives_ai_failure env reqBody Store.empty
           (insight_prompt (of_Z 3) (VStr (lit "long day")))).
  - exists []. split; reflexivity.
  - left. reflexivity.
  - reflexivity.
Defined.

(** ** Stored texts *)

Lemma trimStart_spaces (s : jsstring) :
  forallb is_space s = true -> trimStart s = [].
Proof.
  induction s as [| ch s IH]; simpl; [reflexivity |].
  intros H. apply andb_true_iff in H. destruct H as [Hc Hs].
  rewrite Hc. now apply IH.
Qed.

Lemma trim_spaces (s : jsstring) : forallb is_space s = true -> trim s = [].
Proof.
  intros H. unfold trim. now rewrite (trimStart_spaces s H).
Qed.

Lemma trimmed_no_text (v : value) : no_text v -> trimmed v = Some None.
Proof.
  intros [-> | [-> | (s & -> & Hs)]]; try reflexivity.
  simpl. now rewrite (trim_spaces s Hs).
Qed.

Lemma trimmed_nonempty (v : value) (o : option jsstring) :
  trimmed v = Some o -> absent_or_nonempty o.
Proof.
  unfold absent_or_nonempty.
  destruct v; simpl; intros H; try discriminate;
    injection H as <-; try discriminate.
  destruct (trim s); discriminate.
Qed.

Lemma remove_id_In (id : N) (l r : list MoodEntry) (d x : MoodEntry) :
  remove_id id l = Some (d, r) -> In x r -> In x l.
Proof.
  revert r. induction l as [| e l IH]; simpl; intros r H; [discriminate |].
  destruct (N.eqb (_id e) id).
  - injection H as <- <-. now right.
  - destruct (remove_id id l) as [[d' r'] |]; [| discriminate].
    injection H as <- <-. intros [-> | Hx]; [now left |].
    right. now apply (IH r').
Qed.

Lemma delete_mood_docs (env : Env) (id : IdParam) (c : Collection)
  (x : MoodEntry) :
  In x (docs (collection_of (serve env (DeleteMood id) c))) -> In x (docs c).
Proof.
  destruct c as [d nx]. destruct id as [| | n]; simpl; try tauto.
  unfold serve, route, delete_mood, try_catch, bind, get_db. simpl.
  destruct (remove_id n d) as [[e r] |] eqn:E; simpl; [| tauto].
  now apply (remove_id_In n d r e).
Qed.

Lemma texts_kept_step (env : Env) (r : Request) (c : Collection) :
  is_write r = true -> texts_kept c ->
  texts_kept (collection_of (serve env r c)).
Proof.
  unfold texts_kept.
  destruct r as [| b | id | | b | b]; try discriminate; intros _ Hc.
  - destruct (post_moods_inv env b c)
      as [(-> & _) | (m & noteV & songV & n' & s' & H)]; [exact Hc |].
    cbv zeta in H. destruct H as (_ & _ & _ & _ & Tn & Ts & _ & -> & _).
    simpl. apply Forall_app. split; [exact Hc |].
    constructor; [| constructor]. simpl.
    split; [exact (trimmed_nonempty _ _ Tn) | exact (trimmed_nonempty _ _ Ts)].
  - rewrite Forall_forall in *. intros x Hx. apply Hc.
    exact (delete_mood_docs env id c x Hx).
Qed.

(** A property of collections that holds of the empty one and that every
    creation and deletion keeps holds of every reachable collection. *)
Lemma reachable_ind (P : Collection -> Prop) :
  P Store.empty ->
  (forall env r c, is_write r = true -> P c ->
                   P (collection_of (serve env r c))) ->
  forall c, reachable c -> P c.
Proof.
  intros H0 Hstep c (ops & Hw & <-).
  revert Hw. generalize Store.empty H0.
  induction ops as [| [env r] ops IH]; intros c0 Hc0 Hw; [exact Hc0 |].
  simpl in Hw. apply andb_true_iff in Hw. destruct Hw as [Hr Hw].
  simpl. apply IH; [| exact Hw]. now apply Hstep.
Qed.

(** C9.  Every stored entry has a [note] and a [song] that are absent or
    non-empty, never the empty string; and an entry created from a body
    whose [note] (or [song]) is absent, null, empty or white space only
    is stored without that field. *)
Theorem stored_text_absent_or_nonempty :
  (forall c, reachable c ->
     Forall (fun e => absent_or_nonempty (note e)
                      /\ absent_or_nonempty (song e)) (docs c))
  /\
  (forall env reqBody c entry ai noteV songV,
     response_of (serve env (PostMoods reqBody) c) = json (Created entry ai) ->
     prop reqBody "note" = Some noteV ->
     prop reqBody "song" = Some songV ->
     In entry (docs (collection_of (serve env (PostMoods reqBody) c)))
     /\ (no_text noteV -> note entry = None)
     /\ (no_text songV -> song entry = None)).
Proof.
  split.
  - apply (reachable_ind texts_kept).
    + constructor.
    + apply texts_kept_step.
  - intros env reqBody c entry ai noteV songV Hres Hn Hs.
    destruct (post_moods_inv env reqBody c)
      as [(_ & Hno & _) | (m & noteV' & songV' & n' & s' & H)].
    + now destruct (Hno entry ai).
    + cbv zeta in H.
      destruct H as (_ & Hn' & Hs' & _ & Tn & Ts & _ & Hdb & Hr).
      rewrite Hn in Hn'. injection Hn' as <-.
      rewrite Hs in Hs'. injection Hs' as <-.
      assert (He : entry = {| _id := next_id c; mood := m;
                              timestamp := now env;
                              note := n'; song := s' |}).
      { destruct Hr as [(_ & Hr & _) | (_ & Hr & _)];
          rewrite Hr in Hres; now injection Hres as <-. }
      subst entry. rewrite Hdb. simpl. split.
      * apply in_or_app. right. now left.
      * split; intros Hb; apply trimmed_no_text in Hb; congruence.
Qed.

Lemma stored_text_absent_or_nonempty_witness :
  let env := Sample.env Sample.noon 0 false None in
  let reqBody := Sample.mood_body (VNum (of_Z 1)) (VStr (lit "   ")) in
  let entry := {| _id := 0%N; mood := of_Z 1; timestamp := Sample.noon;
                  note := None; song := None |} in
  (Forall (fun e => absent_or_nonempty (note e)
                    /\ absent_or_nonempty (song e))
          (docs (Sample.four_days 0)))
  /\ In entry (docs (collection_of (serve env (PostMoods reqBody) Store.empty)))
  /\ (no_text (VStr (lit "   ")) -> note entry = None)
  /\ (no_text VUndefined -> song entry = None).
Proof.
  intros env reqBody entry. split.
  - apply (proj1 stored_text_absent_or_nonempty).
    exists (List.map (fun k =>
              (Sample.env (Sample.noon - k * DAY) 0 false None,
               PostMoods (Sample.mood_body (VNum (of_Z 2)) VUndefined)))
              [4; 2; 1; 0]).
    split; reflexivity.
  - apply (proj2 stored_text_absent_or_nonempty env reqBody Store.empty
             entry None (VStr (lit "   ")) VUndefined);
      reflexivity.
Defined.

(** ** [POST /api/recommend-songs]: the fallback *)

Lemma fallbackRecommendations_length (m : number) :
  List.length (fallbackRecommendations m) = 2%nat
  \/ List.length (fallbackRecommendations m) = 3%nat.
Proof.
  unfold fallbackRecommendations. destruct (num_ge m (of_Z 3)); simpl; auto.
Qed.

(** C7.  When [POST /api/recommend-songs] has asked the model (which it
    does for a mood that passes the guard only) and the answer does not
    parse as JSON, the response is still 200 and carries the fixed
    fallback: a list of two or three recommendations, so not an empty one,
    and a [playlist_vibe] string. *)
Theorem recommend_songs_fallback
  (env : Env) (reqBody : value) (c : Collection) (p : Prompt)
  (text : jsstring) :
  In (CallAI p) (calls_of (serve env (RecommendSongs reqBody) c)) ->
  generateContent env p = Some text ->
  JSON_parse env (clean (trim text)) = None ->
  exists (m : number) (recommendations : list Song) (playlist_vibe : string),
    prop reqBody "mood" = Some (VNum m)
    /\ mood_rejected (VNum m) = false
    /\ response_of (serve env (RecommendSongs reqBody) c)
       = {| status := 200; body := Songs recommendations playlist_vibe |}
    /\ recommendations = fallbackRecommendations m
    /\ playlist_vibe = fallback_vibe m
    /\ recommendations <> []
    /\ (2 <= List.length recommendations <= 3)%nat.
Proof.
  destruct c as [d nx].
  unfold serve, route, recommend_songs, try_catch, bind, orThrow.
  destruct (prop reqBody "mood") as [mood |] eqn:Hm; [| simpl; tauto].
  destruct (prop_total _ _ _ "note" Hm) as [noteV ->].
  destruct (prop_total _ _ _ "genre" Hm) as [genreV ->].
  destruct (prop_total _ _ _ "previousSongs" Hm) as [prevV ->].
  simpl.
  destruct (mood_rejected mood) eqn:Hr; [simpl; tauto |].
  destruct mood as [| | b | m | s | l | fs]; try discriminate Hr.
  simpl the_number.
  destruct (configured (GEMINI_API_KEY env)); [| simpl; tauto].
  simpl negb. cbv iota.
  destruct (clause noteV) as [withNote |]; [| simpl; tauto].
  destruct (clause genreV) as [withGenre |]; [| simpl; tauto].
  destruct (avoid_clause env prevV) as [avoid |]; [| simpl; tauto].
  unfold await, ret.
  destruct (generateContent env _) as [answer |] eqn:Hg; simpl in Hg.
  - destruct (JSON_parse env (clean (trim answer))) eqn:Hparse0;
      cbn [calls_of response_of snd fst calls db];
      intros [Hp | []] Hg' Hparse; injection Hp as <-;
      rewrite Hg in Hg'; injection Hg' as <-; [congruence |].
    exists m, (fallbackRecommendations m), (fallback_vibe m).
    split; [reflexivity |]. split; [exact Hr |].
    repeat (split; [reflexivity |]).
    destruct (fallbackRecommendations_length m) as [E | E].
    + split; [| lia]. intros H. rewrite H in E. discriminate.
    + split; [| lia]. intros H. rewrite H in E. discriminate.
  - cbn [calls_of response_of snd fst calls db].
    intros [Hp | []] Hg'. injection Hp as <-. congruence.
Qed.

Lemma recommend_songs_fallback_witness :
  let env := Sample.env Sample.noon 0 true (Some (lit "Sorry, no songs.")) in
  let reqBody := Sample.mood_body (VNum (of_Z 4)) VUndefined in
  exists (m : number) (recommendations : list Song) (playlist_vibe : string),
    prop reqBody "mood" = Some (VNum m)
    /\ mood_rejected (VNum m) = false
    /\ response_of (serve env (RecommendSongs reqBody) Store.empty)
       = {| status := 200; body := Songs recommendations playlist_vibe |}
    /\ recommendations = fallbackRecommendations m
    /\ playlist_vibe = fallback_vibe m
    /\ recommendations <> []
    /\ (2 <= List.length recommendations <= 3)%nat.
Proof.
  intros env reqBody.
  apply (recommend_songs_fallback env reqBody Store.empty
           (SongsPrompt (Some "very happy"%string) None None None)
           (lit "Sorry, no songs.")).
  - left. reflexivity.
  - reflexivity.
  - reflexivity.
Defined.

(** ** Playlist references *)

Lemma startsWith_app (l r : jsstring) : startsWith (l ++ r) l = true.
Proof.
  induction l as [| ch l IH]; simpl; [reflexivity |].
  now rewrite N.eqb_refl.
Qed.

Lemma startsWith_split (s l : jsstring) :
  startsWith s l = true -> s = l ++ skipn (List.length l) s.
Proof.
  revert s. induction l as [| ch l IH]; intros s; simpl; [reflexivity |].
  destruct s as [| d s]; [discriminate |].
  intros H. apply andb_true_iff in H. destruct H as [Hc Hs].
  apply N.eqb_eq in Hc. subst d. f_equal. now apply IH.
Qed.

Lemma skipn_app_exact (l r : jsstring) : skipn (List.length l) (l ++ r) = r.
Proof. induction l; simpl; auto. Qed.

Lemma span_alnum_split (r : jsstring) :
  r = span_alnum r ++ skipn (List.length (span_alnum r)) r
  /\ forallb is_alnum (span_alnum r) = true.
Proof.
  induction r as [| ch r [IH1 IH2]]; simpl; [auto |].
  destruct (is_alnum ch) eqn:E; simpl; [| auto].
  rewrite E, IH2. split; [now f_equal | reflexivity].
Qed.

Lemma span_alnum_app (id after : jsstring) :
  identifier id -> span_alnum (id ++ after) <> [].
Proof.
  intros [Hne Hall]. destruct id as [| ch id]; [contradiction |].
  simpl in *. apply andb_true_iff in Hall. destruct Hall as [-> _].
  discriminate.
Qed.

Lemma search_after_eq (l s : jsstring) :
  search_after l s
  = match (if startsWith s l then
             match span_alnum (skipn (List.length l) s) with
             | [] => None
             | id => Some id
             end
           else None) with
    | Some id => Some id
    | None => match s with
              | [] => None
              | _ :: s' => search_after l s'
              end
    end.
Proof. destruct s; reflexivity. Qed.

Lemma match_here_sound (l s x : jsstring) :
  startsWith s l = true ->
  span_alnum (skipn (List.length l) s) = x ->
  x <> [] ->
  s = [] ++ l ++ x ++ skipn (List.length x) (skipn (List.length l) s)
  /\ identifier x.
Proof.
  intros Hl Hx Hne.
  destruct (span_alnum_split (skipn (List.length l) s)) as [H1 H2].
  rewrite Hx in H1, H2. split; [| now split].
  simpl. rewrite <- H1. now apply startsWith_split.
Qed.

Lemma search_after_sound (l s id : jsstring) :
  search_after l s = Some id ->
  exists before after, s = before ++ l ++ id ++ after /\ identifier id.
Proof.
  revert id. induction s as [| ch s IH]; intros id; rewrite search_after_eq.
  - destruct (startsWith [] l) eqn:E; [| discriminate].
    destruct (span_alnum (skipn (List.length l) [])) as [| x xs] eqn:Sp;
      [discriminate |].
    intros H. injection H as <-. eexists [], _.
    apply (match_here_sound l [] (x :: xs) E Sp). discriminate.
  - destruct (startsWith (ch :: s) l) eqn:E.
    + destruct (span_alnum (skipn (List.length l) (ch :: s)))
        as [| x xs] eqn:Sp.
      * intros H. destruct (IH id H) as (b & a & -> & Hid).
        exists (ch :: b), a. split; [reflexivity | exact Hid].
      * intros H. injection H as <-. eexists [], _.
        apply (match_here_sound l (ch :: s) (x :: xs) E Sp). discriminate.
    + intros H. destruct (IH id H) as (b & a & -> & Hid).
      exists (ch :: b), a. split; [reflexivity | exact Hid].
Qed.

Lemma search_after_complete (l s : jsstring) :
  has_form l s -> search_after l s <> None.
Proof.
  intros (before & id & after & -> & Hid).
  induction before as [| ch before IH]; rewrite search_after_eq.
  - change ([] ++ l ++ id ++ after) with (l ++ id ++ after).
    rewrite startsWith_app, skipn_app_exact.
    pose proof (span_alnum_app id after Hid) as Hs.
    destruct (span_alnum (id ++ after)); [contradiction | discriminate].
  - destruct (if startsWith ((ch :: before) ++ l ++ id ++ after) l
              then _ else None); [discriminate | exact IH].
Qed.

Lemma whole_alnum_iff (s : jsstring) :
  whole_alnum s <> None <-> identifier s.
Proof.
  unfold whole_alnum, identifier. destruct s as [| ch s].
  - split; [congruence | intros [H _]; congruence].
  - destruct (forallb is_alnum (ch :: s)); split; intros H;
      try congruence; try (split; [discriminate | reflexivity]).
    destruct H as [_ H]. discriminate.
Qed.

(** [extractPlaylistId] returns null exactly on the strings of none of the
    three forms. *)
Lemma extractPlaylistId_None_iff (s : jsstring) :
  extractPlaylistId s = None <-> ~ accepted_format s.
Proof.
  unfold extractPlaylistId, patterns, accepted_format. simpl. split.
  - intros H [Hf | [Hf | Hf]].
    + apply search_after_complete in Hf.
      destruct (search_after uri_prefix s); [discriminate | congruence].
    + apply search_after_complete in Hf.
      destruct (search_after uri_prefix s); [discriminate |].
      destruct (search_after link_prefix s); [discriminate | congruence].
    + apply whole_alnum_iff in Hf.
      destruct (search_after uri_prefix s); [discriminate |].
      destruct (search_after link_prefix s); [discriminate |].
      destruct (whole_alnum s); [discriminate | congruence].
  - intros H.
    destruct (search_after uri_prefix s) as [id |] eqn:E1.
    { exfalso. apply H. left.
      destruct (search_after_sound _ _ _ E1) as (b & a & Hs & Hid).
      now exists b, id, a. }
    destruct (search_after link_prefix s) as [id |] eqn:E2.
    { exfalso. apply H. right. left.
      destruct (search_after_sound _ _ _ E2) as (b & a & Hs & Hid).
      now exists b, id, a. }
    destruct (whole_alnum s) as [id |] eqn:E3; [| reflexivity].
    exfalso. apply H. right. right. apply whole_alnum_iff. congruence.
Qed.

(** ** [POST /api/playlist/analyze]: the early answers *)

(** C8, as amended.  For every string in [spotifyUrl] that has none of
    the three accepted forms, [extractPlaylistId] returns null.  When the
    string is not empty the handler answers 400 without calling the
    catalog or the model.  The empty string counts as no URL at all: the
    request is served as the one that carries its [tracks] alone, so it is
    answered 400 without a call as well unless [tracks] is an array of at
    least one track. *)
Theorem analyze_playlist_rejects_unknown_format
  (env : Env) (reqBody tracks : value) (c : Collection) (s : jsstring) :
  prop reqBody "spotifyUrl" = Some (VStr s) ->
  prop reqBody "tracks" = Some tracks ->
  ~ accepted_format s ->
  extractPlaylistId s = None
  /\ (s <> [] ->
      serve env (AnalyzePlaylist reqBody) c
      = (fail 400
           "Invalid Spotify URL. Please provide a valid Spotify playlist URL or ID.",
         c, []))
  /\ (s = [] ->
      serve env (AnalyzePlaylist reqBody) c
      = serve env (AnalyzePlaylist (VObj [(lit "tracks", tracks)])) c)
  /\ (s <> [] \/ (forall t l, tracks <> VArr (t :: l)) ->
      rejected c (serve env (AnalyzePlaylist reqBody) c)).
Proof.
  intros Hp Ht Hf. apply extractPlaylistId_None_iff in Hf.
  assert (Hfull : s <> [] ->
            serve env (AnalyzePlaylist reqBody) c
            = (fail 400
                 "Invalid Spotify URL. Please provide a valid Spotify playlist URL or ID.",
               c, [])).
  { intros Hne.
    unfold serve, route, analyze_playlist, try_catch, bind, orThrow.
    rewrite Hp, Ht. destruct s as [| ch s]; [contradiction |].
    simpl. rewrite Hf. simpl. now destruct c. }
  split; [exact Hf |]. split; [exact Hfull |]. split.
  - intros ->. unfold serve, route, analyze_playlist.
    unfold try_catch, bind, orThrow. rewrite Hp, Ht. reflexivity.
  - intros [Hne | Hno]; [eexists; now apply Hfull |].
    destruct s as [| ch s]; [| eexists; apply Hfull; discriminate].
    unfold rejected, serve, route, analyze_playlist, try_catch, bind, orThrow.
    rewrite Hp, Ht. simpl. destruct c as [d nx].
    destruct tracks as [| | b | n | s | [| t l] | fs]; simpl;
      try (eexists; reflexivity).
    now destruct (Hno t l).
Qed.

Lemma analyze_playlist_rejects_unknown_format_witness :
  let s := lit "https://example.com/my playlist" in
  let env := Sample.env Sample.noon 0 true (Some (lit "{}")) in
  (extractPlaylistId s = None
   /\ serve env (AnalyzePlaylist (VObj [(lit "spotifyUrl", VStr s)]))
        Store.empty
      = (fail 400
           "Invalid Spotify URL. Please provide a valid Spotify playlist URL or ID.",
         Store.empty, []))
  /\ serve env
       (AnalyzePlaylist (VObj [(lit "spotifyUrl", VStr []);
                               (lit "tracks", VArr [Sample.one_track])]))
       Store.empty
     = serve env
         (AnalyzePlaylist (VObj [(lit "tracks", VArr [Sample.one_track])]))
         Store.empty
  /\ rejected Store.empty
       (serve env
          (AnalyzePlaylist (VObj [(lit "spotifyUrl", VStr []);
                                  (lit "tracks", VStr (lit "Imagine"))]))
          Store.empty).
Proof.
  intros s env. split; [| split].
  - destruct (analyze_playlist_rejects_unknown_format env
                (VObj [(lit "spotifyUrl", VStr s)]) VUndefined Store.empty s)
      as (H1 & H2 & _).
    + reflexivity.
    + reflexivity.
    + apply extractPlaylistId_None_iff. reflexivity.
    + split; [exact H1 | apply H2; discriminate].
  - destruct (analyze_playlist_rejects_unknown_format env
                (VObj [(lit "spotifyUrl", VStr []);
                       (lit "tracks", VArr [Sample.one_track])])
                (VArr [Sample.one_track]) Store.empty [])
      as (_ & _ & H3 & _).
    + reflexivity.
    + reflexivity.
    + apply extractPlaylistId_None_iff. reflexivity.
    + now apply H3.
  - destruct (analyze_playlist_rejects_unknown_format env
                (VObj [(lit "spotifyUrl", VStr []);
                       (lit "tracks", VStr (lit "Imagine"))])
                (VStr (lit "Imagine")) Store.empty [])
      as (_ & _ & _ & H4).
    + reflexivity.
    + reflexivity.
    + apply extractPlaylistId_None_iff. reflexivity.
    + apply H4. right. intros t l H. discriminate H.
Defined.

Lemma not_accepted_empty : ~ accepted_format [].
Proof. apply extractPlaylistId_None_iff. reflexivity. Qed.

(** C8, as stated, fails: the empty string has none of the three forms,
    but a body that carries it together with a track is not answered 400;
    the model is called. *)
Lemma analyze_playlist_empty_url_reaches_model :
  let reqBody := VObj [(lit "spotifyUrl", VStr []);
                       (lit "tracks", VArr [Sample.one_track])] in
  let env := Sample.env Sample.noon 0 true (Some (lit "{}")) in
  let r := serve env (AnalyzePlaylist reqBody) Store.empty in
  ~ accepted_format []
  /\ extractPlaylistId [] = None
  /\ status (response_of r) = 200
  /\ calls_of r = [CallAI (PlaylistPrompt [Sample.one_track])].
Proof.
  intros reqBody env r. split; [exact not_accepted_empty |].
  vm_compute. repeat split.
Qed.

(** C2, as stated, fails: a manual list of one track, without a URL, is
    not turned down; the model is called and the profile returned. *)
Lemma analyze_playlist_one_track_reaches_model :
  let reqBody := VObj [(lit "tracks", VArr [Sample.one_track])] in
  let env := Sample.env Sample.noon 0 true (Some (lit "{}")) in
  let r := serve env (AnalyzePlaylist reqBody) Store.empty in
  (List.length [Sample.one_track] < 3)%nat
  /\ status (response_of r) = 200
  /\ calls_of r = [CallAI (PlaylistPrompt [Sample.one_track])].
Proof.
  intros reqBody env r. split; [simpl; lia |].
  vm_compute. split; reflexivity.
Qed.

(** C2, as amended.  The handler turns down, with 400 and before any call,
    a request without a URL whose [tracks] is not an array of at least one
    track.  The minimum of three is the form's: with fewer than three
    complete tracks it shows an error and sends nothing, so every manual
    request it does send carries at least three. *)
Theorem manual_playlist_minimum :
  (forall env reqBody c url tracks,
     prop reqBody "spotifyUrl" = Some url ->
     truthy url = false ->
     prop reqBody "tracks" = Some tracks ->
     (forall t l, tracks <> VArr (t :: l)) ->
     rejected c (serve env (AnalyzePlaylist reqBody) c))
  /\
  (forall spotifyUrl tracks,
     (List.length (filter Form.complete tracks) < 3)%nat ->
     exists msg,
       Form.analyzePersonality false spotifyUrl tracks = Form.ShowError msg)
  /\
  (forall spotifyUrl tracks reqBody,
     Form.analyzePersonality false spotifyUrl tracks = Form.Post reqBody ->
     exists l,
       prop reqBody "tracks" = Some (VArr l)
       /\ prop reqBody "spotifyUrl" = Some VUndefined
       /\ (3 <= List.length l)%nat).
Proof.
  split; [| split].
  - intros env reqBody c url tracks Hu Hf Ht Hno.
    unfold rejected, serve, route, analyze_playlist, try_catch, bind, orThrow.
    rewrite Hu, Ht. simpl. rewrite Hf. destruct c as [d nx].
    destruct tracks as [| | b | n | s | [| t l] | fs]; simpl;
      try (eexists; reflexivity).
    now destruct (Hno t l).
  - intros url tracks H. unfold Form.analyzePersonality.
    apply Nat.ltb_lt in H. rewrite H. eexists. reflexivity.
  - intros url tracks reqBody. unfold Form.analyzePersonality.
    destruct (Nat.ltb_spec (List.length (filter Form.complete tracks)) 3)
      as [Hlt | Hge]; [discriminate |].
    intros H. injection H as <-.
    exists (List.map Form.to_value (filter Form.complete tracks)).
    split; [reflexivity |]. split; [reflexivity |].
    now rewrite length_map.
Qed.

Lemma manual_playlist_minimum_witness :
  let env := Sample.env Sample.noon 0 true (Some (lit "{}")) in
  let row := {| Form.title := lit "Imagine"; Form.artist := lit "  ";
                Form.genre := []; Form.year := None |} in
  rejected Store.empty
    (serve env (AnalyzePlaylist (VObj [(lit "tracks", VArr [])])) Store.empty)
  /\ exists msg,
       Form.analyzePersonality false [] [row; row] = Form.ShowError msg.
Proof.
  intros env row. split.
  - apply (proj1 manual_playlist_minimum env
             (VObj [(lit "tracks", VArr [])]) Store.empty VUndefined (VArr []));
      try reflexivity.
    intros t l H. discriminate.
  - apply (proj1 (proj2 manual_playlist_minimum) [] [row; row]).
    vm_compute. lia.
Defined.

(** ** Grouping by day *)

Lemma push_mood_keys (k k' : Z) (m : number) (g : list (Z * list number)) :
  In k' (List.map fst (push_mood k m g)) <-> k' = k \/ In k' (List.map fst g).
Proof.
  induction g as [| [k0 ms] g IH]; simpl.
  - intuition.
  - destruct (Z.eqb_spec k k0) as [-> | Hne]; simpl.
    + intuition.
    + rewrite IH. intuition.
Qed.

Lemma push_mood_NoDup (k : Z) (m : number) (g : list (Z * list number)) :
  NoDup (List.map fst g) -> NoDup (List.map fst (push_mood k m g)).
Proof.
  induction g as [| [k0 ms] g IH]; simpl; intros H.
  - constructor; [tauto | constructor].
  - inversion H as [| ? ? Hn Hg]; subst.
    destruct (Z.eqb_spec k k0) as [-> | Hne]; simpl.
    + now constructor.
    + constructor; [| now apply IH].
      rewrite push_mood_keys. intros [E | E]; [congruence | contradiction].
Qed.

Lemma moods_of_push (k k' : Z) (m : number) (g : list (Z * list number)) :
  moods_of k' (push_mood k m g)
  = if k' =? k then moods_of k' g ++ [m] else moods_of k' g.
Proof.
  induction g as [| [k0 ms] g IH]; simpl.
  - now destruct (k' =? k).
  - destruct (Z.eqb_spec k k0) as [-> | Hne]; simpl.
    + now destruct (k' =? k0).
    + destruct (Z.eqb_spec k' k0) as [-> | Hne'].
      * destruct (Z.eqb_spec k0 k); [congruence | reflexivity].
      * exact IH.
Qed.

Lemma moods_of_In (k : Z) (ms : list number) (g : list (Z * list number)) :
  NoDup (List.map fst g) -> In (k, ms) g -> moods_of k g = ms.
Proof.
  induction g as [| [k0 ms0] g IH]; simpl; intros Hnd Hin; [contradiction |].
  inversion Hnd as [| ? ? Hn Hg]; subst.
  destruct Hin as [E | Hin].
  - injection E as -> ->. now rewrite Z.eqb_refl.
  - destruct (Z.eqb_spec k k0) as [-> | Hne]; [| now apply IH].
    exfalso. apply Hn. now apply (in_map fst _ (k0, ms)).
Qed.

Lemma group_fold (es : list MoodEntry) (g0 : list (Z * list number)) :
  let g := fold_left
             (fun g e => push_mood (dateKey (timestamp e)) (mood e) g)
             es g0 in
  NoDup (List.map fst g0) ->
  NoDup (List.map fst g)
  /\ (forall k, moods_of k g
                = moods_of k g0 ++ List.map mood (on_date k es))
  /\ (forall k, In k (List.map fst g) <->
                In k (List.map fst g0)
                \/ exists e, In e es /\ dateKey (timestamp e) = k).
Proof.
  revert g0. induction es as [| e es IH]; intros g0; simpl; intros Hnd.
  - split; [exact Hnd |]. split.
    + intros k. now rewrite app_nil_r.
    + intros k. split; [tauto |]. intros [H | (x & [] & _)]. exact H.
  - destruct (IH (push_mood (dateKey (timestamp e)) (mood e) g0)
                (push_mood_NoDup _ _ _ Hnd)) as (H1 & H2 & H3).
    split; [exact H1 |]. split.
    + intros k. rewrite H2, moods_of_push.
      destruct (Z.eqb_spec k (dateKey (timestamp e))) as [-> | Hne].
      * rewrite Z.eqb_refl. simpl. now rewrite <- app_assoc.
      * destruct (Z.eqb_spec (dateKey (timestamp e)) k); [congruence |].
        reflexivity.
    + intros k. rewrite H3, push_mood_keys. split.
      * intros [[-> | H] | (x & Hx & Hk)]; eauto.
      * intros [H | (x & [<- | Hx] & Hk)]; eauto.
Qed.

(** The rows of [dailyAverages]: one for each date that has an entry, with
    the mean and the number of the moods of that date. *)
Lemma dailyAverages_spec (es : list MoodEntry) :
  let rows := dailyAverages_of es in
  NoDup (List.map date rows)
  /\ (forall d, In d (List.map date rows) <->
                exists e, In e es /\ dateKey (timestamp e) = d)
  /\ (forall r, In r rows ->
        averageMood r = raw_mean (on_date (date r) es)
        /\ entryCount r = List.length (on_date (date r) es)).
Proof.
  intros rows. subst rows. unfold dailyAverages_of, dailyMoods.
  destruct (group_fold es [] (NoDup_nil Z)) as (H1 & H2 & H3).
  set (g := fold_left _ es []) in *.
  assert (Hp : Permutation (sort_desc date (List.map daily_row g))
                 (List.map daily_row g)) by apply sort_desc_perm.
  assert (Hd : List.map date (List.map daily_row g) = List.map fst g).
  { rewrite map_map. reflexivity. }
  split; [| split].
  - apply (Permutation_NoDup (l := List.map fst g)); [| exact H1].
    rewrite <- Hd. symmetry. now apply Permutation_map.
  - intros d.
    assert (Hk : In d (List.map date (sort_desc date (List.map daily_row g)))
                 <-> In d (List.map fst g)).
    { rewrite <- Hd. split; apply Permutation_in;
        [| symmetry]; now apply Permutation_map. }
    rewrite Hk, (H3 d). simpl. tauto.
  - intros r Hr. apply (Permutation_in _ Hp) in Hr.
    apply in_map_iff in Hr. destruct Hr as ([k ms] & <- & Hin).
    simpl. rewrite <- (moods_of_In k ms g H1 Hin), H2. simpl.
    unfold raw_mean. now rewrite length_map.
Qed.

(** ** [GET /api/insights] on a collection with entries *)

(** Whatever the model does, the figures of the response are those of the
    rows computed from the collection, and nothing is stored. *)
Lemma get_insights_figures (env : Env) (c : Collection) :
  docs c <> [] ->
  let rows := dailyAverages_of (find_sorted c) in
  exists ins recs calls,
    serve env GetInsights c
    = (json (Insights ins recs (overallAverage_of rows) (streak_of env rows)
               (List.length rows) (firstn 30 rows)),
       c, calls).
Proof.
  intros Hne rows. subst rows. destruct c as [d nx]. simpl in Hne.
  unfold serve, route, get_insights, try_catch, bind, get_db, orThrow,
    find_sorted.
  cbn [db docs].
  destruct (sort_desc timestamp d) as [| e es] eqn:Hs.
  { apply sort_desc_nil_inv in Hs. contradiction. }
  generalize (dailyAverages_of (e :: es)). intros rows.
  generalize (recentNotes (e :: es)). intros notes.
  destruct (configured (GEMINI_API_KEY env));
    [| do 3 eexists; reflexivity].
  unfold await.
  destruct (generateContent env _) as [text |];
    [| do 3 eexists; reflexivity].
  simpl.
  destruct (JSON_parse env text) as [ai |];
    [| do 3 eexists; reflexivity].
  simpl.
  destruct (prop ai "insights") as [i |] eqn:Hi;
    [| do 3 eexists; reflexivity].
  destruct (prop_total _ _ _ "recommendations" Hi) as [r ->].
  do 3 eexists; reflexivity.
Qed.

Lemma mean_1_3 : mean [of_Z 1; of_Z 3] = of_Z 2.
Proof. reflexivity. Qed.

Lemma mean_3_1 : mean [of_Z 3; of_Z 1] = of_Z 2.
Proof. reflexivity. Qed.

(** Two entries of one date with moods 1 and 3 give one row. *)
Lemma dailyAverages_of_pair (e1 e2 : MoodEntry) (l : list MoodEntry) :
  Permutation l [e1; e2] ->
  dateKey (timestamp e1) = dateKey (timestamp e2) ->
  mood e1 = of_Z 1 -> mood e2 = of_Z 3 ->
  dailyAverages_of (sort_desc timestamp l)
  = [ {| date := dateKey (timestamp e1); averageMood := of_Z 2;
         entryCount := 2 |} ].
Proof.
  intros Hp Hd H1 H3.
  assert (Hs : sort_desc timestamp l = [e1; e2]
               \/ sort_desc timestamp l = [e2; e1]).
  { apply Permutation_length_2_inv. symmetry.
    rewrite <- Hp. apply sort_desc_perm. }
  unfold dailyAverages_of, dailyMoods.
  destruct Hs as [-> | ->]; simpl; rewrite Hd, Z.eqb_refl; simpl;
    unfold daily_row; simpl; rewrite H1, H3.
  - now rewrite mean_1_3.
  - now rewrite mean_3_1.
Qed.

(** C4, as amended.  The date of an entry is its UTC calendar date, the
    one [toISOString] prints, whatever the zone of the server.  Two
    entries of one UTC date with moods 1 and 3 make [GET /api/insights]
    report a single daily row, of average 2 with [entryCount] 2, and an
    overall average of 2.  In general there is one row for each UTC date
    that has an entry, holding the mean and the number of that date's
    moods, and the overall average is the mean of the averages of all the
    rows, each day counting once; on three moods of 0 one day and a mood
    of 4 the next it is 2, where the mean of the four entries is 1. *)
Theorem insights_average_of_daily_averages :
  (forall env c e1 e2,
     Permutation (docs c) [e1; e2] ->
     dateKey (timestamp e1) = dateKey (timestamp e2) ->
     mood e1 = of_Z 1 -> mood e2 = of_Z 3 ->
     exists ins recs streak,
       response_of (serve env GetInsights c)
       = json (Insights ins recs (of_Z 2) streak 1
                 [ {| date := dateKey (timestamp e1);
                      averageMood := of_Z 2; entryCount := 2 |} ]))
  /\
  (forall env c,
     docs c <> [] ->
     exists ins recs streak rows,
       response_of (serve env GetInsights c)
       = json (Insights ins recs (mean (List.map averageMood rows)) streak
                 (List.length rows) (firstn 30 rows))
       /\ NoDup (List.map date rows)
       /\ (forall d, In d (List.map date rows) <->
                     exists e, In e (docs c) /\ dateKey (timestamp e) = d)
       /\ (forall r, In r rows ->
             averageMood r = raw_mean (on_date (date r) (find_sorted c))
             /\ entryCount r
                = List.length (on_date (date r) (find_sorted c))))
  /\
  (exists ins recs streak rows,
     response_of (serve (Sample.env Sample.noon 0 false None) GetInsights
                    Sample.uneven)
     = json (Insights ins recs (of_Z 2) streak 2 rows)
     /\ raw_mean (docs Sample.uneven) = of_Z 1).
Proof.
  split; [| split].
  - intros env c e1 e2 Hp Hd H1 H3.
    assert (Hne : docs c <> []).
    { intros E. rewrite E in Hp. apply Permutation_nil in Hp. discriminate. }
    destruct (get_insights_figures env c Hne) as (ins & recs & calls & ->).
    unfold find_sorted.
    rewrite (dailyAverages_of_pair e1 e2 (docs c) Hp Hd H1 H3).
    exists ins, recs. eexists. reflexivity.
  - intros env c Hne.
    destruct (get_insights_figures env c Hne) as (ins & recs & calls & ->).
    destruct (dailyAverages_spec (find_sorted c)) as (Hn & Hk & Hr).
    exists ins, recs, (streak_of env (dailyAverages_of (find_sorted c))),
      (dailyAverages_of (find_sorted c)).
    split; [reflexivity |]. split; [exact Hn |]. split; [| exact Hr].
    intros d. rewrite Hk. unfold find_sorted.
    split; intros (e & He & Hd); exists e; (split; [| exact Hd]);
      revert He; apply Permutation_in;
      [| symmetry]; apply sort_desc_perm.
  - do 4 eexists. split; vm_compute; reflexivity.
Qed.

Lemma insights_average_of_daily_averages_witness :
  let e1 := {| _id := 0%N; mood := of_Z 1; timestamp := Sample.noon;
               note := None; song := None |} in
  let e2 := {| _id := 1%N; mood := of_Z 3; timestamp := Sample.noon + 60000;
               note := None; song := None |} in
  let c := {| docs := [e1; e2]; next_id := 2%N |} in
  exists ins recs streak,
    response_of (serve (Sample.env (Sample.noon + 120000) 0 false None)
                   GetInsights c)
    = json (Insights ins recs (of_Z 2) streak 1
              [ {| date := 19675; averageMood := of_Z 2; entryCount := 2 |} ]).
Proof.
  intros e1 e2 c.
  apply (proj1 insights_average_of_daily_averages
           (Sample.env (Sample.noon + 120000) 0 false None) c e1 e2);
    reflexivity.
Defined.

(** C4, as stated, fails where the calendar of the server is not that of
    UTC: on a server at UTC+05:30, moods 1 and 3 recorded at 02:00 and at
    10:00 of one day there fall on two UTC dates, and the handler reports
    two daily rows of one entry each instead of one row of two. *)
Lemma insights_one_local_day_two_rows :
  let env := Sample.env Sample.noon Sample.kolkata false None in
  exists e1 e2 ins recs streak,
    docs Example.one_local_day = [e1; e2]
    /\ mood e1 = of_Z 1 /\ mood e2 = of_Z 3
    /\ local_date (tz_offset env) (timestamp e1) = 19675
    /\ local_date (tz_offset env) (timestamp e2) = 19675
    /\ dateKey (timestamp e1) = 19674
    /\ dateKey (timestamp e2) = 19675
    /\ response_of (serve env GetInsights Example.one_local_day)
       = json (Insights ins recs (of_Z 2) streak 2
                 [ {| date := 19675; averageMood := of_Z 3;
                      entryCount := 1 |};
                   {| date := 19674; averageMood := of_Z 1;
                      entryCount := 1 |} ]).
Proof.
  intros env. do 5 eexists.
  split; [vm_compute; reflexivity |].
  repeat split; vm_compute; reflexivity.
Qed.

(** ** The streak *)

(** Away from UTC the first row never matches: the date of a row is read
    as a UTC midnight and compared with a local midnight, and the two
    differ by the offset of the zone. *)
Lemma streak_zero_off_utc (env : Env) (rows : list DailyAverage) :
  tz_offset env <> 0 ->
  - DAY < tz_offset env < DAY ->
  streak_of env rows = O.
Proof.
  intros Hnz Hlt. unfold streak_of. destruct rows as [| r rows]; simpl.
  - reflexivity.
  - unfold utc_midnight, expectedDate, local_midnight.
    destruct (Z.eqb_spec (date r * DAY)
                ((now env + tz_offset env) / DAY * DAY - tz_offset env
                 - 0 * DAY)) as [E | _]; [| reflexivity].
    exfalso. unfold DAY in *.
    set (q := (now env + tz_offset env) / 86400000) in E. lia.
Qed.

Lemma strict_of_NoDup (l : list Z) :
  StronglySorted (fun a b => b <= a) l -> NoDup l ->
  StronglySorted (fun a b => b < a) l.
Proof.
  induction 1 as [| x l Hs IH Hx]; intros Hn; constructor;
    inversion Hn as [| ? ? Hnot Hn']; subst.
  - now apply IH.
  - rewrite Forall_forall in *. intros y Hy. specialize (Hx y Hy).
    assert (y <> x) by (intros ->; contradiction). lia.
Qed.

Lemma sorted_map {A} (key : A -> Z) (l : list A) :
  StronglySorted (fun a b => key b <= key a) l ->
  StronglySorted (fun a b => b <= a) (List.map key l).
Proof.
  induction 1 as [| x l Hs IH Hx]; simpl; constructor; [exact IH |].
  rewrite Forall_forall in *. intros y Hy.
  apply in_map_iff in Hy. destruct Hy as (z & <- & Hz). now apply Hx.
Qed.

(** Two strictly decreasing lists with the same elements are equal. *)
Lemma decreasing_unique (l1 l2 : list Z) :
  StronglySorted (fun a b => b < a) l1 ->
  StronglySorted (fun a b => b < a) l2 ->
  (forall k, In k l1 <-> In k l2) ->
  l1 = l2.
Proof.
  intros H1. revert l2.
  induction H1 as [| x l1 Hs1 IH Hx]; intros l2 H2 Hk.
  - destruct l2 as [| y l2]; [reflexivity |].
    destruct (proj2 (Hk y) (or_introl eq_refl)).
  - destruct H2 as [| y l2 Hs2 Hy].
    { destruct (proj1 (Hk x) (or_introl eq_refl)). }
    rewrite Forall_forall in Hx, Hy.
    assert (x = y).
    { destruct (proj1 (Hk x) (or_introl eq_refl)) as [E | E]; [auto |].
      destruct (proj2 (Hk y) (or_introl eq_refl)) as [E' | E']; [auto |].
      specialize (Hx y E'). specialize (Hy x E). lia. }
    subst y. f_equal. apply IH; [exact Hs2 |].
    intros k. split; intros Hin.
    + destruct (proj1 (Hk k) (or_intror Hin)) as [E | E]; [| exact E].
      specialize (Hx k Hin). lia.
    + destruct (proj2 (Hk k) (or_intror Hin)) as [E | E]; [| exact E].
      specialize (Hy k Hin). lia.
Qed.

(** The dates of the rows: those that have an entry, latest first. *)
Lemma dailyAverages_dates (es : list MoodEntry) (dates : list Z) :
  StronglySorted (fun a b => b < a) dates ->
  (forall k, In k dates <-> exists e, In e es /\ dateKey (timestamp e) = k) ->
  List.map date (dailyAverages_of es) = dates.
Proof.
  intros Hs Hk.
  destruct (dailyAverages_spec es) as (Hn & Hd & _).
  apply decreasing_unique; [| exact Hs |].
  - apply strict_of_NoDup; [| exact Hn].
    apply sorted_map. unfold dailyAverages_of.
    apply (sort_desc_sorted date).
  - intros k. now rewrite Hd, Hk.
Qed.

(** On a server whose zone is UTC, entries on exactly today, today-1,
    today-2 and today-4 give a streak of 3. *)
Lemma streak_in_utc (env : Env) (c : Collection) :
  tz_offset env = 0 ->
  (forall k, (exists e, In e (docs c) /\ dateKey (timestamp e) = k) <->
             In k [dateKey (now env); dateKey (now env) - 1;
                   dateKey (now env) - 2; dateKey (now env) - 4]) ->
  exists ins recs avg rows,
    response_of (serve env GetInsights c)
    = json (Insights ins recs avg 3 4 rows).
Proof.
  intros Htz Hk.
  assert (Hne : docs c <> []).
  { intros E. destruct (proj2 (Hk (dateKey (now env))) (or_introl eq_refl))
      as (e & He & _). rewrite E in He. contradiction. }
  destruct (get_insights_figures env c Hne) as (ins & recs & calls & ->).
  set (d := dateKey (now env)) in *.
  assert (Hd : List.map date (dailyAverages_of (find_sorted c))
               = [d; d - 1; d - 2; d - 4]).
  { apply dailyAverages_dates.
    - repeat constructor; lia.
    - intros k. rewrite <- Hk. unfold find_sorted.
      split; intros (e & He & E); exists e; (split; [| exact E]);
        revert He; apply Permutation_in;
        [symmetry |]; apply sort_desc_perm. }
  destruct (dailyAverages_of (find_sorted c))
    as [| r0 [| r1 [| r2 [| r3 [| r4 rest]]]]]; try discriminate Hd.
  injection Hd as H0 H1 H2 H3.
  exists ins, recs. do 2 eexists. unfold response_of. simpl fst.
  f_equal. f_equal.
  unfold streak_of, local_midnight. rewrite Htz. simpl streak_from.
  unfold utc_midnight, expectedDate. rewrite H0, H1, H2, H3.
  fold (dateKey (now env)). fold d. rewrite Z.add_0_r.
  fold (dateKey (now env)). fold d.
  repeat match goal with
         | |- context [?a =? ?b] =>
             destruct (Z.eqb_spec a b); try (unfold DAY in *; lia)
         end.
Qed.

(** C3.  The handler at the input where it departs from the claim: the
    server is at UTC+05:30 at noon UTC, and the collection holds one entry
    on each of today, today-1, today-2 and today-4 (the same days in UTC
    and in the server's zone).  [GET /api/insights] reports four days and
    a streak of 0, where the claim has 3; with the same collection and a
    server at UTC it reports 3. *)
Theorem insights_streak_off_utc :
  let c := Sample.four_days Sample.kolkata in
  let today := dateKey Sample.noon in
  List.map (fun e => dateKey (timestamp e)) (docs c)
  = [today - 4; today - 2; today - 1; today]
  /\ List.map (fun e => dateKey (timestamp e + Sample.kolkata)) (docs c)
     = [today - 4; today - 2; today - 1; today]
  /\ (exists ins recs avg rows,
        response_of
          (serve (Sample.env Sample.noon Sample.kolkata false None)
             GetInsights c)
        = json (Insights ins recs avg 0 4 rows))
  /\ (exists ins recs avg rows,
        response_of
          (serve (Sample.env Sample.noon 0 false None) GetInsights c)
        = json (Insights ins recs avg 3 4 rows)).
Proof.
  intros c today. split; [reflexivity |]. split; [reflexivity |].
  split; do 4 eexists; vm_compute; reflexivity.
Qed.

(* ===================================================================== *)
(** * Further properties of the handlers *)
(* ===================================================================== *)

(** ** The collection under creations and deletions *)

Lemma remove_id_split (id : N) (l r : list MoodEntry) (d : MoodEntry) :
  remove_id id l = Some (d, r) ->
  exists l1 l2,
    l = l1 ++ d :: l2 /\ r = l1 ++ l2 /\ _id d = id
    /\ Forall (fun x => _id x <> id) l1.
Proof.
  revert r. induction l as [| e l IH]; simpl; intros r H; [discriminate |].
  destruct (N.eqb_spec (_id e) id) as [E | E].
  - injection H as <- <-. exists [], l. repeat split; auto.
  - destruct (remove_id id l) as [[d' r'] |]; [| discriminate].
    injection H as <- <-.
    destruct (IH r' eq_refl) as (l1 & l2 & -> & -> & Hid & Hl1).
    exists (e :: l1), l2. repeat split; auto.
Qed.

Lemma remove_id_none (id : N) (l : list MoodEntry) :
  Forall (fun x => _id x <> id) l -> remove_id id l = None.
Proof.
  induction 1 as [| e l He Hl IH]; simpl; [reflexivity |].
  destruct (N.eqb_spec (_id e) id); [contradiction |]. now rewrite IH.
Qed.

Lemma delete_serve (env : Env) (n : N) (c : Collection) :
  serve env (DeleteMood (ObjectId n)) c
  = match remove_id n (docs c) with
    | None => (fail 404 "Mood entry not found", c, [])
    | Some (d, rest) =>
        (json (Deleted "Mood entry deleted successfully" d),
         {| docs := rest; next_id := next_id c |}, [])
    end.
Proof.
  destruct c as [d nx].
  unfold serve, route, delete_mood, try_catch, bind, get_db. simpl.
  destruct (remove_id n d) as [[e r] |]; reflexivity.
Qed.

Lemma validate_scale (e : MoodEntry) :
  validate e = true ->
  in_scale (mood e)
  /\ within 500 (note e) = true /\ within 200 (song e) = true.
Proof.
  unfold validate. intros H.
  apply andb_true_iff in H. destruct H as [H Hs].
  apply andb_true_iff in H. destruct H as [Hm Hn].
  split; [| auto].
  destruct (mood e) as [q | | |]; try discriminate Hm.
  apply andb_true_iff in Hm. destruct Hm as [H0 H4].
  unfold num_ge, num_le, of_Z in *.
  apply Qle_bool_iff in H0, H4. now exists q.
Qed.

Lemma ids_fresh_step (env : Env) (r : Request) (c : Collection) :
  is_write r = true -> ids_fresh c ->
  ids_fresh (collection_of (serve env r c)).
Proof.
  unfold ids_fresh.
  destruct r as [| b | id | | b | b]; try discriminate; intros _ [Hn Hb].
  - destruct (post_moods_inv env b c)
      as [(-> & _) | (m & noteV & songV & n' & s' & H)]; [now split |].
    cbv zeta in H. destruct H as (_ & _ & _ & _ & _ & _ & _ & -> & _).
    simpl. rewrite map_app. simpl. split.
    + apply NoDup_app; [exact Hn | repeat constructor; simpl; tauto |].
      intros x Hx [<- | []]. apply in_map_iff in Hx.
      destruct Hx as (e & He & Hin). rewrite Forall_forall in Hb.
      specialize (Hb e Hin). lia.
    + apply Forall_app. split.
      * revert Hb. apply Forall_impl. intros e He. lia.
      * repeat constructor. simpl. lia.
  - destruct id as [| | n]; try (now split).
    rewrite delete_serve.
    destruct (remove_id n (docs c)) as [[d rest] |] eqn:E; [| now split].
    simpl. destruct (remove_id_split _ _ _ _ E) as (l1 & l2 & Hl & -> & _).
    rewrite Hl in Hn, Hb. split.
    + rewrite map_app in *. simpl in Hn. now apply NoDup_remove_1 in Hn.
    + apply Forall_app in Hb. destruct Hb as [H1 H2].
      inversion H2; subst. apply Forall_app. now split.
Qed.

Lemma reachable_ids_fresh (c : Collection) : reachable c -> ids_fresh c.
Proof.
  apply (reachable_ind ids_fresh).
  - split; constructor.
  - apply ids_fresh_step.
Qed.

(** X1.  A deletion that names no stored entry changes nothing and calls
    nothing.  With an [:id] that is a well-formed ObjectId which no stored
    entry has, the answer is 404; with an [:id] that is not an ObjectId
    the cast fails and the answer is 500; with an empty one it is 400. *)
Theorem delete_unknown_id (env : Env) (id : IdParam) (c : Collection) :
  (forall n, id = ObjectId n -> Forall (fun e => _id e <> n) (docs c)) ->
  serve env (DeleteMood id) c
  = (match id with
     | ObjectId _ => fail 404 "Mood entry not found"
     | BadId => fail 500 "Failed to delete mood entry"
     | NoId => fail 400 "Mood entry ID is required"
     end, c, []).
Proof.
  intros H. destruct id as [| | n].
  - destruct c. reflexivity.
  - destruct c. reflexivity.
  - rewrite delete_serve.
    now rewrite (remove_id_none n (docs c) (H n eq_refl)).
Qed.

Lemma delete_unknown_id_witness :
  let env := Sample.env Sample.noon 0 false None in
  serve env (DeleteMood (ObjectId 7%N)) (Sample.four_days 0)
  = (fail 404 "Mood entry not found", Sample.four_days 0, [])
  /\ serve env (DeleteMood BadId) (Sample.four_days 0)
     = (fail 500 "Failed to delete mood entry", Sample.four_days 0, []).
Proof.
  intros env. split.
  - apply (delete_unknown_id env (ObjectId 7%N) (Sample.four_days 0)).
    intros n E. injection E as <-. repeat constructor; discriminate.
  - apply (delete_unknown_id env BadId (Sample.four_days 0)).
    intros n E. discriminate E.
Defined.

(** X2.  In a collection that creations and deletions lead to, deleting
    the identifier of a stored entry is answered 200 with that entry; the
    entry is taken out, no entry with the identifier is left, and the
    other entries stay, in their order. *)
Theorem delete_stored_entry (env : Env) (c : Collection) (e : MoodEntry) :
  reachable c ->
  In e (docs c) ->
  exists before after,
    docs c = before ++ e :: after
    /\ serve env (DeleteMood (ObjectId (_id e))) c
       = (json (Deleted "Mood entry deleted successfully" e),
          {| docs := before ++ after; next_id := next_id c |}, [])
    /\ Forall (fun x => _id x <> _id e) (before ++ after).
Proof.
  intros Hr Hin. destruct (reachable_ids_fresh c Hr) as [Hn _].
  destruct (in_split _ _ Hin) as (l1 & l2 & Hl).
  exists l1, l2. split; [exact Hl |].
  rewrite Hl, map_app in Hn. simpl in Hn.
  assert (Hnot : Forall (fun x => _id x <> _id e) (l1 ++ l2)).
  { apply NoDup_remove_2 in Hn. rewrite Forall_forall. intros x Hx E.
    apply Hn. rewrite <- map_app, <- E. now apply in_map. }
  split; [| exact Hnot].
  rewrite delete_serve, Hl.
  assert (Hrm : remove_id (_id e) (l1 ++ e :: l2) = Some (e, l1 ++ l2)).
  { apply Forall_app in Hnot. destruct Hnot as [H1 _].
    clear - H1. induction H1 as [| x l1 Hx H1 IH]; simpl.
    - now rewrite N.eqb_refl.
    - destruct (N.eqb_spec (_id x) (_id e)); [contradiction |].
      now rewrite IH. }
  now rewrite Hrm.
Qed.

Lemma delete_stored_entry_witness :
  let c := Sample.four_days 0 in
  let e := {| _id := 1%N; mood := of_Z 2;
              timestamp := Sample.noon - 2 * DAY;
              note := None; song := None |} in
  exists before after,
    docs c = before ++ e :: after
    /\ serve (Sample.env Sample.noon 0 false None)
         (DeleteMood (ObjectId (_id e))) c
       = (json (Deleted "Mood entry deleted successfully" e),
          {| docs := before ++ after; next_id := next_id c |}, [])
    /\ Forall (fun x => _id x <> _id e) (before ++ after).
Proof.
  intros c e.
  apply (delete_stored_entry (Sample.env Sample.noon 0 false None) c e).
  - exists (List.map (fun k =>
              (Sample.env (Sample.noon - k * DAY) 0 false None,
               PostMoods (Sample.mood_body (VNum (of_Z 2)) VUndefined)))
              [4; 2; 1; 0]).
    split; reflexivity.
  - right. left. reflexivity.
Defined.

(** ** Computations that do not write *)

Lemma keeps_ret {A} (a : A) : keeps_db (ret a).
Proof. intros w. reflexivity. Qed.

Lemma keeps_throw {A} (e : Exn) : keeps_db (@throw A e).
Proof. intros w. reflexivity. Qed.

Lemma keeps_get_db : keeps_db get_db.
Proof. intros w. reflexivity. Qed.

Lemma keeps_await {A} (e : Event) (o : option A) : keeps_db (await e o).
Proof. intros w. unfold await. now destruct o. Qed.

Lemma keeps_orThrow {A} (e : Exn) (o : option A) : keeps_db (orThrow e o).
Proof. intros w. now destruct o. Qed.

Lemma keeps_bind {A B} (c : M A) (k : A -> M B) :
  keeps_db c -> (forall a, keeps_db (k a)) -> keeps_db (bind c k).
Proof.
  intros Hc Hk w. unfold bind. specialize (Hc w).
  destruct (c w) as [[a | e] w']; simpl in *; [| exact Hc].
  now rewrite Hk.
Qed.

Lemma keeps_try_catch {A} (c : M A) (h : Exn -> M A) :
  keeps_db c -> (forall e, keeps_db (h e)) -> keeps_db (try_catch c h).
Proof.
  intros Hc Hh w. unfold try_catch. specialize (Hc w).
  destruct (c w) as [[a | e] w']; simpl in *; [exact Hc |].
  now rewrite Hh.
Qed.

Lemma keeps_traverse {A B} (f : A -> M B) (xs : list A) :
  (forall x, keeps_db (f x)) -> keeps_db (traverse f xs).
Proof.
  intros Hf. induction xs as [| x xs IH]; simpl.
  - apply keeps_ret.
  - apply keeps_bind; [apply Hf | intros y].
    apply keeps_bind; [exact IH | intros ys]. apply keeps_ret.
Qed.

Ltac keeps_step :=
  first
    [ apply keeps_ret | apply keeps_throw | apply keeps_get_db
    | apply keeps_await | apply keeps_orThrow
    | apply keeps_traverse; intros
    | apply keeps_try_catch; [| intros]
    | apply keeps_bind; [| intros]
    | match goal with
      | |- keeps_db (if ?b then _ else _) => destruct b
      | |- keeps_db (match ?x with _ => _ end) => destruct x
      | |- keeps_db (let (_, _) := ?x in _) => destruct x
      end ].

Lemma keeps_get_moods : keeps_db get_moods.
Proof. unfold get_moods. repeat keeps_step. Qed.

Lemma keeps_get_insights (env : Env) : keeps_db (get_insights env).
Proof. unfold get_insights. repeat keeps_step. Qed.

Lemma keeps_recommend_songs (env : Env) (b : value) :
  keeps_db (recommend_songs env b).
Proof. unfold recommend_songs. repeat keeps_step. Qed.

Lemma keeps_analyze_playlist (env : Env) (b : value) :
  keeps_db (analyze_playlist env b).
Proof.
  unfold analyze_playlist, from_catalog, from_body, getSpotifyAccessToken,
    getSpotifyPlaylistTracks.
  repeat keeps_step.
Qed.

(** X3.  The requests that are neither a creation nor a deletion leave
    the collection as it is. *)
Theorem reads_keep_collection (env : Env) (r : Request) (c : Collection) :
  is_write r = false ->
  collection_of (serve env r c) = c.
Proof.
  intros Hr.
  assert (H : keeps_db (route env r)).
  { destruct r; try discriminate Hr; simpl.
    - apply keeps_get_moods.
    - apply keeps_get_insights.
    - apply keeps_recommend_songs.
    - apply keeps_analyze_playlist. }
  specialize (H {| db := c; calls := [] |}).
  unfold serve. destruct (route env r _) as [[res | e] w]; exact H.
Qed.

Lemma reads_keep_collection_witness :
  collection_of
    (serve (Sample.env Sample.noon 0 true (Some (lit "{}")))
       (AnalyzePlaylist (VObj [(lit "tracks", VArr [Sample.one_track])]))
       (Sample.four_days 0))
  = Sample.four_days 0.
Proof.
  apply (reads_keep_collection
           (Sample.env Sample.noon 0 true (Some (lit "{}")))
           (AnalyzePlaylist (VObj [(lit "tracks", VArr [Sample.one_track])]))
           (Sample.four_days 0)).
  reflexivity.
Defined.

(** ** What the collection holds *)

Lemma schema_step (env : Env) (r : Request) (c : Collection) :
  is_write r = true ->
  moods_in_scale c /\ texts_bounded c ->
  moods_in_scale (collection_of (serve env r c))
  /\ texts_bounded (collection_of (serve env r c)).
Proof.
  unfold moods_in_scale, texts_bounded.
  destruct r as [| b | id | | b | b]; try discriminate; intros _ [Hm Ht].
  - destruct (post_moods_inv env b c)
      as [(-> & _) | (m & noteV & songV & n' & s' & H)]; [now split |].
    cbv zeta in H. destruct H as (_ & _ & _ & _ & _ & _ & Hv & -> & _).
    apply validate_scale in Hv. simpl in Hv. destruct Hv as (H1 & H2 & H3).
    simpl. split; apply Forall_app; split; auto; repeat constructor; auto.
  - split; rewrite Forall_forall in *; intros x Hx;
      [apply Hm | apply Ht]; exact (delete_mood_docs env id c x Hx).
Qed.

Lemma reachable_schema (c : Collection) (e : MoodEntry) :
  reachable c ->
  In e (docs c) ->
  in_scale (mood e)
  /\ within 500 (note e) = true /\ within 200 (song e) = true.
Proof.
  intros Hr Hin.
  assert (H : moods_in_scale c /\ texts_bounded c).
  { clear Hin. revert c Hr.
    apply (reachable_ind (fun c => moods_in_scale c /\ texts_bounded c)).
    - split; constructor.
    - apply schema_step. }
  destruct H as [Hm Ht]. unfold moods_in_scale, texts_bounded in *.
  rewrite Forall_forall in Hm, Ht.
  split; [now apply Hm | now apply Ht].
Qed.

(** X4.  Every entry of a collection that creations and deletions lead to
    satisfies the schema: its mood is a number of the closed range [0,4],
    its note has at most 500 code units and its song at most 200. *)
Theorem stored_entries_satisfy_schema (c : Collection) (e : MoodEntry) :
  reachable c ->
  In e (docs c) ->
  in_scale (mood e)
  /\ (forall s, note e = Some s -> (List.length s <= 500)%nat)
  /\ (forall s, song e = Some s -> (List.length s <= 200)%nat).
Proof.
  intros Hr Hin.
  destruct (reachable_schema c e Hr Hin) as (Hm & Hn & Hs).
  split; [exact Hm |].
  split; intros s E; [rewrite E in Hn | rewrite E in Hs];
    simpl in *; now apply Nat.leb_le.
Qed.

Lemma stored_entries_satisfy_schema_witness :
  in_scale (of_Z 2)
  /\ (forall s, @None jsstring = Some s -> (List.length s <= 500)%nat)
  /\ (forall s, @None jsstring = Some s -> (List.length s <= 200)%nat).
Proof.
  apply (stored_entries_satisfy_schema (Sample.four_days 0)
           {| _id := 1%N; mood := of_Z 2;
              timestamp := Sample.noon - 2 * DAY;
              note := None; song := None |}).
  - exists (List.map (fun k =>
              (Sample.env (Sample.noon - k * DAY) 0 false None,
               PostMoods (Sample.mood_body (VNum (of_Z 2)) VUndefined)))
              [4; 2; 1; 0]).
    split; reflexivity.
  - right. left. reflexivity.
Defined.

(** ** [POST /api/moods]: the outcomes *)

Lemma within_spec (limit : nat) (o : option jsstring) :
  within limit o = true <->
  forall s, o = Some s -> (List.length s <= limit)%nat.
Proof.
  destruct o as [s |]; simpl.
  - rewrite Nat.leb_le. split; [intros H s' E; now injection E as <- | auto].
  - split; [discriminate | reflexivity].
Qed.

Lemma validate_intro (e : MoodEntry) :
  in_scale (mood e) ->
  within 500 (note e) = true -> within 200 (song e) = true ->
  validate e = true.
Proof.
  intros (q & Hq & H0 & H4) Hn Hs. unfold validate.
  rewrite Hq, Hn, Hs. cbn [num_ge num_le of_Z].
  rewrite !andb_true_r. apply andb_true_iff.
  split; apply Qle_bool_iff; assumption.
Qed.

Lemma post_moods_accepted
  (env : Env) (reqBody : value) (c : Collection)
  (q : Q) (noteV songV : value) (n' s' : option jsstring) :
  prop reqBody "mood" = Some (VNum (Fin q)) ->
  (0 <= q)%Q -> (q <= 4)%Q ->
  prop reqBody "note" = Some noteV ->
  prop reqBody "song" = Some songV ->
  trimmed noteV = Some n' -> trimmed songV = Some s' ->
  (forall s, n' = Some s -> (List.length s <= 500)%nat) ->
  (forall s, s' = Some s -> (List.length s <= 200)%nat) ->
  let e := {| _id := next_id c; mood := Fin q; timestamp := now env;
              note := n'; song := s' |} in
  exists aiInsight,
    response_of (serve env (PostMoods reqBody) c)
    = json (Created e aiInsight)
    /\ collection_of (serve env (PostMoods reqBody) c)
       = {| docs := docs c ++ [e]; next_id := N.succ (next_id c) |}.
Proof.
  intros Hm H0 H4 Hn Hs Tn Ts Ln Ls e.
  destruct (post_moods_inv env reqBody c)
    as [(Hc & Hno & _) | (m & noteV' & songV' & n'' & s'' & H)].
  - exfalso.
    assert (Hv : validate e = true).
    { apply validate_intro; [now exists q | |]; now apply within_spec. }
    destruct c as [d nx].
    revert Hc. unfold serve, route, post_moods, try_catch, bind, orThrow.
    rewrite Hm, Hn, Hs. simpl.
    assert (Hr : mood_rejected (VNum (Fin q)) = false).
    { apply mood_rejected_false. left. now exists q. }
    simpl in Hr. rewrite Hr, Tn, Ts. simpl.
    unfold save, bind, get_db, put_db, ret. simpl.
    simpl in Hv. subst e. simpl in Hv. rewrite Hv.
    destruct (configured (GEMINI_API_KEY env)); simpl.
    + unfold await. destruct (generateContent env _); simpl;
        intros E; injection E as E;
        apply (f_equal (@List.length _)) in E;
        rewrite length_app in E; simpl in E; lia.
    + intros E; injection E as E;
        apply (f_equal (@List.length _)) in E;
        rewrite length_app in E; simpl in E; lia.
  - cbv zeta in H.
    destruct H as (Hm' & Hn' & Hs' & _ & Tn' & Ts' & _ & Hdb & Hr).
    rewrite Hm in Hm'. injection Hm' as <-.
    rewrite Hn in Hn'. injection Hn' as <-.
    rewrite Hs in Hs'. injection Hs' as <-.
    rewrite Tn in Tn'. injection Tn' as <-.
    rewrite Ts in Ts'. injection Ts' as <-.
    destruct Hr as [(_ & Hr & _) | (_ & Hr & _)]; eexists; split; eauto.
Qed.

(** X5.  A body whose mood is a number of [0,4] and whose note and song
    are strings (or absent) that fit the schema once trimmed is answered
    200; the entry gets the next identifier and the time of the request,
    holds the trimmed texts (none where the text was blank), and is
    appended to the collection. *)
Theorem post_moods_stores_trimmed
  (env : Env) (reqBody : value) (c : Collection)
  (q : Q) (noteV songV : value) (n' s' : option jsstring) :
  prop reqBody "mood" = Some (VNum (Fin q)) ->
  (0 <= q)%Q -> (q <= 4)%Q ->
  prop reqBody "note" = Some noteV ->
  prop reqBody "song" = Some songV ->
  trimmed noteV = Some n' -> trimmed songV = Some s' ->
  (forall s, n' = Some s -> (List.length s <= 500)%nat) ->
  (forall s, s' = Some s -> (List.length s <= 200)%nat) ->
  let e := {| _id := next_id c; mood := Fin q; timestamp := now env;
              note := n'; song := s' |} in
  exists aiInsight,
    response_of (serve env (PostMoods reqBody) c)
    = json (Created e aiInsight)
    /\ collection_of (serve env (PostMoods reqBody) c)
       = {| docs := docs c ++ [e]; next_id := N.succ (next_id c) |}.
Proof.
  intros Hm H0 H4 Hn Hs Tn Ts Ln Ls.
  exact (post_moods_accepted env reqBody c q noteV songV n' s'
           Hm H0 H4 Hn Hs Tn Ts Ln Ls).
Qed.

Lemma post_moods_stores_trimmed_witness :
  let env := Sample.env Sample.noon 0 false None in
  let reqBody := Sample.mood_body (VNum (Fin (5 # 2)))
                   (VStr (lit "  rainy day ")) in
  let e := {| _id := 0%N; mood := Fin (5 # 2); timestamp := Sample.noon;
              note := Some (lit "rainy day"); song := None |} in
  exists aiInsight,
    response_of (serve env (PostMoods reqBody) Store.empty)
    = json (Created e aiInsight)
    /\ collection_of (serve env (PostMoods reqBody) Store.empty)
       = {| docs := docs Store.empty ++ [e];
            next_id := N.succ (next_id Store.empty) |}.
Proof.
  intros env reqBody e.
  apply (post_moods_stores_trimmed env reqBody Store.empty (5 # 2)
           (VStr (lit "  rainy day ")) VUndefined
           (Some (lit "rainy day")) None);
    try reflexivity; try discriminate.
  intros s E. injection E as <-. vm_compute. lia.
Defined.

(** X6.  A body that passes the check of the mood but whose note or song
    cannot be stored (a value that is neither a string nor absent, or a
    text longer than the schema allows once trimmed) is answered 500; no
    entry is stored and the model is not called. *)
Theorem post_moods_unstorable_text
  (env : Env) (reqBody mood noteV songV : value) (c : Collection) :
  prop reqBody "mood" = Some mood ->
  scale_number mood ->
  prop reqBody "note" = Some noteV ->
  prop reqBody "song" = Some songV ->
  trimmed noteV = None \/ trimmed songV = None
  \/ (exists s, trimmed noteV = Some (Some s) /\ (500 < List.length s)%nat)
  \/ (exists s, trimmed songV = Some (Some s) /\ (200 < List.length s)%nat) ->
  serve env (PostMoods reqBody) c
  = (fail 500 "Failed to create mood entry", c, []).
Proof.
  intros Hm Hsc Hn Hs Hbad.
  assert (Hr : mood_rejected mood = false)
    by (apply mood_rejected_false; now left).
  destruct Hsc as (q & _ & _ & ->).
  destruct c as [d nx].
  unfold serve, route, post_moods, try_catch, bind, orThrow.
  rewrite Hm, Hn, Hs. simpl. simpl in Hr. rewrite Hr.
  destruct (trimmed noteV) as [n' |] eqn:Tn; [| reflexivity].
  destruct (trimmed songV) as [s' |] eqn:Ts; [| reflexivity].
  unfold save, bind, get_db, put_db, ret, throw. simpl.
  assert (Hv : validate {| _id := nx; mood := Fin q; timestamp := now env;
                           note := n'; song := s' |} = false).
  { unfold validate. simpl note. simpl song.
    destruct Hbad as [E | [E | [(s & E & Hl) | (s & E & Hl)]]];
      try discriminate; injection E as ->; simpl within;
      apply Nat.leb_gt in Hl; rewrite Hl.
    - now rewrite andb_false_r.
    - now rewrite andb_false_r. }
  now rewrite Hv.
Qed.

Lemma post_moods_unstorable_text_witness :
  let env := Sample.env Sample.noon 0 true (Some (lit "hello")) in
  let reqBody := Sample.mood_body (VNum (of_Z 3)) (VNum (of_Z 7)) in
  serve env (PostMoods reqBody) Store.empty
  = (fail 500 "Failed to create mood entry", Store.empty, []).
Proof.
  intros env reqBody.
  apply (post_moods_unstorable_text env reqBody (VNum (of_Z 3))
           (VNum (of_Z 7)) VUndefined Store.empty); try reflexivity.
  - exists (inject_Z 3). repeat split; discriminate.
  - left. reflexivity.
Defined.

Lemma sort_desc_snoc_max {A} (key : A -> Z) (l : list A) (e : A) :
  Forall (fun x => key x < key e) l ->
  sort_desc key (l ++ [e]) = e :: sort_desc key l.
Proof.
  induction 1 as [| x l Hx Hl IH]; simpl; [reflexivity |].
  rewrite IH. simpl.
  destruct (Z.ltb_spec (key x) (key e)); [reflexivity | lia].
Qed.

Lemma created_entry (env : Env) (reqBody : value) (c : Collection)
  (e : MoodEntry) (ai : option jsstring) :
  response_of (serve env (PostMoods reqBody) c) = json (Created e ai) ->
  _id e = next_id c /\ timestamp e = now env
  /\ collection_of (serve env (PostMoods reqBody) c)
     = {| docs := docs c ++ [e]; next_id := N.succ (next_id c) |}.
Proof.
  intros Hres.
  destruct (post_moods_inv env reqBody c)
    as [(_ & Hno & _) | (m & noteV & songV & n' & s' & H)].
  - now destruct (Hno e ai).
  - cbv zeta in H. destruct H as (_ & _ & _ & _ & _ & _ & _ & Hdb & Hr).
    assert (He : e = {| _id := next_id c; mood := m; timestamp := now env;
                        note := n'; song := s' |}).
    { destruct Hr as [(_ & Hr & _) | (_ & Hr & _)];
        rewrite Hr in Hres; now injection Hres as <-. }
    subst e. simpl. now rewrite Hdb.
Qed.

(** X7.  After a creation made later than every stored timestamp,
    [GET /api/moods] lists the new entry first. *)
Theorem created_entry_listed_first
  (env env' : Env) (reqBody : value) (c : Collection)
  (e : MoodEntry) (ai : option jsstring) :
  response_of (serve env (PostMoods reqBody) c) = json (Created e ai) ->
  Forall (fun x => timestamp x < now env) (docs c) ->
  exists older,
    response_of
      (serve env' GetMoods (collection_of (serve env (PostMoods reqBody) c)))
    = json (MoodList (e :: older))
    /\ older = firstn 49 (find_sorted c).
Proof.
  intros Hres Hlt.
  destruct (created_entry env reqBody c e ai Hres) as (_ & Ht & ->).
  rewrite get_moods_serve. unfold find_sorted. simpl docs.
  rewrite sort_desc_snoc_max.
  - eexists. split; reflexivity.
  - rewrite Ht. exact Hlt.
Qed.

Lemma created_entry_listed_first_witness :
  let env := Sample.env (Sample.noon + 60000) 0 false None in
  let reqBody := Sample.mood_body (VNum (of_Z 4)) VUndefined in
  let e := {| _id := 4%N; mood := of_Z 4; timestamp := Sample.noon + 60000;
              note := None; song := None |} in
  exists older,
    response_of
      (serve env GetMoods
         (collection_of (serve env (PostMoods reqBody) (Sample.four_days 0))))
    = json (MoodList (e :: older))
    /\ older = firstn 49 (find_sorted (Sample.four_days 0)).
Proof.
  intros env reqBody e.
  apply (created_entry_listed_first env env reqBody (Sample.four_days 0)
           e None).
  - reflexivity.
  - repeat constructor.
Defined.

Lemma remove_id_last (l : list MoodEntry) (e : MoodEntry) :
  Forall (fun x => _id x <> _id e) l ->
  remove_id (_id e) (l ++ [e]) = Some (e, l).
Proof.
  induction 1 as [| x l Hx Hl IH]; simpl.
  - now rewrite N.eqb_refl.
  - destruct (N.eqb_spec (_id x) (_id e)); [contradiction |].
    now rewrite IH.
Qed.

(** X8.  Deleting the entry a creation has just returned gives back the
    documents as they were before the creation. *)
Theorem create_then_delete_restores
  (env env' : Env) (reqBody : value) (c : Collection)
  (e : MoodEntry) (ai : option jsstring) :
  reachable c ->
  response_of (serve env (PostMoods reqBody) c) = json (Created e ai) ->
  serve env' (DeleteMood (ObjectId (_id e)))
    (collection_of (serve env (PostMoods reqBody) c))
  = (json (Deleted "Mood entry deleted successfully" e),
     {| docs := docs c; next_id := N.succ (next_id c) |}, []).
Proof.
  intros Hr Hres.
  destruct (created_entry env reqBody c e ai Hres) as (Hid & _ & ->).
  rewrite delete_serve. simpl docs. simpl next_id.
  destruct (reachable_ids_fresh c Hr) as [_ Hb].
  rewrite remove_id_last; [reflexivity |].
  revert Hb. apply Forall_impl. intros x Hx. rewrite Hid. lia.
Qed.

Lemma create_then_delete_restores_witness :
  let env := Sample.env Sample.noon 0 false None in
  let reqBody := Sample.mood_body (VNum (of_Z 4)) VUndefined in
  let e := {| _id := 0%N; mood := of_Z 4; timestamp := Sample.noon;
              note := None; song := None |} in
  serve env (DeleteMood (ObjectId (_id e)))
    (collection_of (serve env (PostMoods reqBody) Store.empty))
  = (json (Deleted "Mood entry deleted successfully" e),
     {| docs := docs Store.empty; next_id := N.succ (next_id Store.empty) |},
     []).
Proof.
  intros env reqBody e.
  apply (create_then_delete_restores env env reqBody Store.empty e None).
  - exists []. split; reflexivity.
  - reflexivity.
Defined.

(** ** [POST /api/recommend-songs]: the other outcomes *)

Lemma recommend_songs_props (reqBody mood : value) :
  prop reqBody "mood" = Some mood ->
  exists noteV genreV prevV,
    prop reqBody "note" = Some noteV
    /\ prop reqBody "genre" = Some genreV
    /\ prop reqBody "previousSongs" = Some prevV.
Proof.
  intros Hm.
  destruct (prop_total _ _ _ "note" Hm) as [n Hn].
  destruct (prop_total _ _ _ "genre" Hm) as [g Hg].
  destruct (prop_total _ _ _ "previousSongs" Hm) as [p Hp].
  now exists n, g, p.
Qed.

(** X9.  [POST /api/recommend-songs] applies the same check of the mood
    as the creation of an entry: a mood that is not a number of [0,4] is
    answered 400 before the configuration is looked at and before any
    call. *)
Theorem recommend_songs_rejects_outside_scale
  (env : Env) (reqBody mood : value) (c : Collection) :
  prop reqBody "mood" = Some mood ->
  ~ scale_number mood ->
  mood <> VNum NaN ->
  serve env (RecommendSongs reqBody) c
  = (fail 400 "Mood must be a number between 0 and 4", c, []).
Proof.
  intros Hm Hs Hn.
  destruct (recommend_songs_props _ _ Hm) as (n & g & p & Hn' & Hg & Hp).
  unfold serve, route, recommend_songs, try_catch, bind, orThrow.
  rewrite Hm, Hn', Hg, Hp. simpl.
  rewrite (mood_rejected_true mood Hs Hn). now destruct c.
Qed.

Lemma recommend_songs_rejects_outside_scale_witness :
  serve (Sample.env Sample.noon 0 false None)
    (RecommendSongs (Sample.mood_body (VNum (of_Z 5)) VUndefined))
    Store.empty
  = (fail 400 "Mood must be a number between 0 and 4", Store.empty, []).
Proof.
  apply (recommend_songs_rejects_outside_scale
           (Sample.env Sample.noon 0 false None)
           (Sample.mood_body (VNum (of_Z 5)) VUndefined) (VNum (of_Z 5))).
  - reflexivity.
  - intros (q & _ & H4 & E). injection E as <-. now apply H4.
  - discriminate.
Defined.

(** X10.  With a mood of the scale and no key for the model,
    [POST /api/recommend-songs] answers 500 and calls nothing; the
    fallback list is not used. *)
Theorem recommend_songs_without_key
  (env : Env) (reqBody mood : value) (c : Collection) :
  prop reqBody "mood" = Some mood ->
  scale_number mood ->
  configured (GEMINI_API_KEY env) = false ->
  serve env (RecommendSongs reqBody) c
  = (fail 500 "AI service not configured", c, []).
Proof.
  intros Hm Hs Hk.
  destruct (recommend_songs_props _ _ Hm) as (n & g & p & Hn' & Hg & Hp).
  assert (Hr : mood_rejected mood = false)
    by (apply mood_rejected_false; now left).
  unfold serve, route, recommend_songs, try_catch, bind, orThrow.
  rewrite Hm, Hn', Hg, Hp. simpl. rewrite Hr, Hk. now destruct c.
Qed.

Lemma recommend_songs_without_key_witness :
  serve (Sample.env Sample.noon 0 false None)
    (RecommendSongs (Sample.mood_body (VNum (of_Z 1)) VUndefined))
    Store.empty
  = (fail 500 "AI service not configured", Store.empty, []).
Proof.
  apply (recommend_songs_without_key
           (Sample.env Sample.noon 0 false None)
           (Sample.mood_body (VNum (of_Z 1)) VUndefined) (VNum (of_Z 1)));
    try reflexivity.
  exists (inject_Z 1). repeat split; discriminate.
Defined.

(** What the handler does once the model has been asked. *)
Lemma recommend_songs_after_call
  (env : Env) (reqBody : value) (c : Collection) (p : Prompt) :
  In (CallAI p) (calls_of (serve env (RecommendSongs reqBody) c)) ->
  exists m,
    prop reqBody "mood" = Some (VNum m)
    /\ serve env (RecommendSongs reqBody) c
       = (match generateContent env p with
          | None => fail 500 "Failed to generate song recommendations"
          | Some text =>
              match JSON_parse env (clean (trim text)) with
              | Some v => json (Parsed v)
              | None => json (Songs (fallbackRecommendations m)
                                (fallback_vibe m))
              end
          end, c, [CallAI p]).
Proof.
  destruct c as [d nx].
  unfold serve, route, recommend_songs, try_catch, bind, orThrow.
  destruct (prop reqBody "mood") as [mood |] eqn:Hm; [| simpl; tauto].
  destruct (recommend_songs_props _ _ Hm) as (n & g & pv & -> & -> & ->).
  simpl.
  destruct (mood_rejected mood) eqn:Hr; [simpl; tauto |].
  destruct mood as [| | b | m | s | l | fs]; try discriminate Hr.
  simpl the_number.
  destruct (configured (GEMINI_API_KEY env)); [| simpl; tauto].
  simpl negb. cbv iota.
  destruct (clause n) as [withNote |]; [| simpl; tauto].
  destruct (clause g) as [withGenre |]; [| simpl; tauto].
  destruct (avoid_clause env pv) as [avoid |]; [| simpl; tauto].
  unfold await, ret.
  destruct (generateContent env _) as [answer |] eqn:Hg; simpl in Hg.
  - destruct (JSON_parse env (clean (trim answer))) eqn:Hparse;
      cbn [calls_of response_of snd fst calls db];
      intros [Hp | []]; injection Hp as <-;
      exists m; rewrite Hg, Hparse; split; reflexivity.
  - cbn [calls_of response_of snd fst calls db].
    intros [Hp | []]. injection Hp as <-.
    exists m. rewrite Hg. split; reflexivity.
Qed.

(** X11.  When the answer of the model parses as JSON,
    [POST /api/recommend-songs] answers 200 with the parsed value as it
    is, whatever its shape. *)
Theorem recommend_songs_forwards_json
  (env : Env) (reqBody : value) (c : Collection) (p : Prompt)
  (text : jsstring) (v : value) :
  In (CallAI p) (calls_of (serve env (RecommendSongs reqBody) c)) ->
  generateContent env p = Some text ->
  JSON_parse env (clean (trim text)) = Some v ->
  serve env (RecommendSongs reqBody) c = (json (Parsed v), c, [CallAI p]).
Proof.
  intros Hc Hg Hp.
  destruct (recommend_songs_after_call env reqBody c p Hc) as (m & _ & ->).
  now rewrite Hg, Hp.
Qed.

Lemma recommend_songs_forwards_json_witness :
  let env := Sample.env Sample.noon 0 true
               (Some (lit "```json
{}
```")) in
  let reqBody := Sample.mood_body (VNum (of_Z 0)) VUndefined in
  serve env (RecommendSongs reqBody) Store.empty
  = (json (Parsed (VObj [])), Store.empty,
     [CallAI (SongsPrompt (Some "very sad"%string) None None None)]).
Proof.
  intros env reqBody.
  apply (recommend_songs_forwards_json env reqBody Store.empty
           (SongsPrompt (Some "very sad"%string) None None None)
           (lit "```json
{}
```")).
  - left. reflexivity.
  - reflexivity.
  - reflexivity.
Defined.

(** X12.  When the call to the model itself fails,
    [POST /api/recommend-songs] answers 500: the fallback list stands in
    for an answer that does not parse, not for a missing answer. *)
Theorem recommend_songs_call_failure
  (env : Env) (reqBody : value) (c : Collection) (p : Prompt) :
  In (CallAI p) (calls_of (serve env (RecommendSongs reqBody) c)) ->
  generateContent env p = None ->
  serve env (RecommendSongs reqBody) c
  = (fail 500 "Failed to generate song recommendations", c, [CallAI p]).
Proof.
  intros Hc Hg.
  destruct (recommend_songs_after_call env reqBody c p Hc) as (m & _ & ->).
  now rewrite Hg.
Qed.

Lemma recommend_songs_call_failure_witness :
  let env := Sample.env Sample.noon 0 true None in
  let reqBody := Sample.mood_body (VNum (of_Z 0)) VUndefined in
  serve env (RecommendSongs reqBody) Store.empty
  = (fail 500 "Failed to generate song recommendations", Store.empty,
     [CallAI (SongsPrompt (Some "very sad"%string) None None None)]).
Proof.
  intros env reqBody.
  apply (recommend_songs_call_failure env reqBody Store.empty
           (SongsPrompt (Some "very sad"%string) None None None)).
  - left. reflexivity.
  - reflexivity.
Defined.

(** ** [POST /api/playlist/analyze]: from the tracks to the profile *)

Lemma analyze_playlist_eq (env : Env) (reqBody : value) :
  analyze_playlist env reqBody
  = try_catch
      (spotifyUrl <- orThrow TypeError (prop reqBody "spotifyUrl") ;;
       tracks <- orThrow TypeError (prop reqBody "tracks") ;;
       source <- (if truthy spotifyUrl then from_catalog env spotifyUrl
                  else from_body tracks) ;;
       analysis_of env source)
      (fun _ => ret (fail 500 "Failed to analyze playlist")).
Proof. reflexivity. Qed.

Lemma traverse_prop (k : string) (ts : list value) (w : World) :
  traverse (fun t => orThrow TypeError (prop t k)) ts w
  = if forallb readable ts then (Ok (List.map (field k) ts), w)
    else (Thrown TypeError, w).
Proof.
  induction ts as [| t ts IH]; simpl; [reflexivity |].
  unfold bind. unfold field at 1.
  destruct t; simpl; try reflexivity; rewrite IH;
    destruct (forallb readable ts); reflexivity.
Qed.

Lemma traverse_orThrow {A B} (f : A -> option B) (ts : list A) (w : World) :
  if forallb (fun t => match f t with Some _ => true | None => false end) ts
  then exists l, traverse (fun t => orThrow TypeError (f t)) ts w = (Ok l, w)
  else traverse (fun t => orThrow TypeError (f t)) ts w
       = (Thrown TypeError, w).
Proof.
  induction ts as [| t ts IH]; simpl; [eexists; reflexivity |].
  unfold bind. destruct (f t); simpl; [| reflexivity].
  destruct (forallb _ ts).
  - destruct IH as [l ->]. eexists. reflexivity.
  - now rewrite IH.
Qed.

(** The source settled, the handler answers as [analysed] says. *)
Lemma analysis_of_tracks (env : Env) (ts : list value) (total name : value)
  (w : World) :
  try_catch (analysis_of env (inr (ts, total, name)))
    (fun _ => ret (fail 500 "Failed to analyze playlist")) w
  = (Ok (fst (analysed env ts total name)),
     {| db := db w; calls := calls w ++ snd (analysed env ts total name) |}).
Proof.
  destruct w as [d cs].
  unfold analysis_of, analysed, try_catch.
  destruct ts as [| t ts]; [simpl; now rewrite app_nil_r |].
  destruct (configured (GEMINI_API_KEY env));
    [| simpl; now rewrite app_nil_r].
  cbn [negb]. cbv iota. unfold prompt_builds. unfold bind at 1.
  pose proof (traverse_orThrow summary_line (firstn 30 (t :: ts))
                {| db := d; calls := cs |}) as Hs.
  destruct (forallb _ (firstn 30 (t :: ts)));
    [destruct Hs as [lines ->] | rewrite Hs; simpl; now rewrite app_nil_r].
  cbn [andb]. unfold bind at 1. rewrite traverse_prop.
  destruct (forallb readable (t :: ts)) eqn:Hr;
    [| simpl; now rewrite app_nil_r].
  unfold bind at 1. rewrite traverse_prop, Hr.
  cbn [andb]. unfold bind at 1. unfold joined at 1.
  destruct (forallb stringable (firstn 5 _));
    [| simpl; now rewrite app_nil_r].
  cbn [andb orThrow]. unfold ret at 1. unfold bind at 1. unfold joined at 1.
  destruct (forallb stringable (filter defined _));
    [| simpl; now rewrite app_nil_r].
  cbn [negb orThrow]. unfold ret at 1. cbv iota. unfold bind, await.
  destruct (generateContent env (PlaylistPrompt (t :: ts))); [| reflexivity].
  cbn [db calls].
  destruct (JSON_parse env (clean (trim j))); reflexivity.
Qed.

Lemma primitive_stringable (v : value) :
  primitive v = true -> stringable v = true.
Proof. destruct v; simpl; intros H; try reflexivity; discriminate H. Qed.

Lemma readable_prop (t : value) (k : string) :
  readable t = true -> prop t k = Some (field k t).
Proof.
  unfold field.
  destruct t; simpl; intros H; try reflexivity; discriminate H.
Qed.

Lemma plain_track_fields (t : value) :
  plain_track t = true ->
  readable t = true
  /\ primitive (field "title" t) = true
  /\ primitive (field "artist" t) = true
  /\ primitive (field "album" t) = true
  /\ primitive (field "year" t) = true.
Proof.
  unfold plain_track. rewrite !andb_true_iff. tauto.
Qed.

Lemma plain_summary (t : value) :
  plain_track t = true -> exists l, summary_line t = Some l.
Proof.
  intros H. destruct (plain_track_fields t H) as (Hr & H1 & H2 & H3 & H4).
  unfold summary_line. rewrite !(readable_prop _ _ Hr).
  unfold clause, interpolate.
  rewrite (primitive_stringable _ H1), (primitive_stringable _ H2),
    (primitive_stringable _ H3), (primitive_stringable _ H4).
  destruct (truthy (field "album" t)), (truthy (field "year" t));
    eexists; reflexivity.
Qed.

Lemma unique_acc_In (seen l : list value) (x : value) :
  In x (unique_acc seen l) -> In x l.
Proof.
  revert seen. induction l as [| v l IH]; intros seen; simpl; [tauto |].
  destruct (existsb (sameValueZero v) seen); simpl.
  - intros H. right. now apply (IH seen).
  - intros [H | H]; [now left | right; now apply (IH (v :: seen))].
Qed.

(** From plain tracks the prompt is always built. *)
Lemma plain_builds (ts : list value) :
  forallb plain_track ts = true -> prompt_builds ts = true.
Proof.
  intros H. rewrite forallb_forall in H. unfold prompt_builds.
  rewrite !andb_true_iff. repeat split; apply forallb_forall; intros x Hx.
  - apply firstn_In in Hx. destruct (plain_summary x (H x Hx)) as [l ->].
    reflexivity.
  - now destruct (plain_track_fields x (H x Hx)).
  - apply firstn_In, unique_acc_In, in_map_iff in Hx.
    destruct Hx as (t & <- & Ht). apply primitive_stringable.
    now destruct (plain_track_fields t (H t Ht)) as (_ & _ & ? & _).
  - apply filter_In in Hx. destruct Hx as [Hx _].
    apply in_map_iff in Hx. destruct Hx as (t & <- & Ht).
    apply primitive_stringable.
    now destruct (plain_track_fields t (H t Ht)) as (_ & _ & _ & _ & ?).
Qed.

(** A track that cannot be read stops the prompt. *)
Lemma unreadable_stops (ts : list value) :
  forallb readable ts = false -> prompt_builds ts = false.
Proof.
  intros H. unfold prompt_builds. rewrite H.
  now destruct (forallb _ (firstn 30 ts)).
Qed.

(** A field of one of the first 30 tracks that does not convert stops
    the prompt. *)
Lemma unwritable_stops (ts : list value) (t : value) :
  In t (firstn 30 ts) ->
  stringable (field "title" t) = false
  \/ stringable (field "artist" t) = false
  \/ stringable (field "album" t) = false
  \/ stringable (field "year" t) = false ->
  prompt_builds ts = false.
Proof.
  intros Hin Hbad. unfold prompt_builds.
  assert (E : forallb (fun t => match summary_line t with
                                | Some _ => true
                                | None => false
                                end) (firstn 30 ts) = false).
  { destruct (forallb _ (firstn 30 ts)) eqn:E; [| reflexivity].
    rewrite forallb_forall in E. specialize (E t Hin).
    unfold summary_line in E.
    destruct (readable t) eqn:Hr.
    - rewrite !(readable_prop _ _ Hr) in E.
      unfold clause, interpolate in E.
      assert (Ht : forall v, stringable v = false -> truthy v = true).
      { intros v Hv. destruct v; try discriminate Hv; reflexivity. }
      destruct Hbad as [B | [B | [B | B]]].
      + rewrite B in E. discriminate E.
      + rewrite B in E. destruct (stringable (field "title" t));
          discriminate E.
      + rewrite (Ht _ B), B in E.
        destruct (stringable (field "title" t)),
          (stringable (field "artist" t)); discriminate E.
      + rewrite (Ht _ B), B in E.
        destruct (stringable (field "title" t)),
          (stringable (field "artist" t)),
          (truthy (field "album" t)), (stringable (field "album" t));
          discriminate E.
    - destruct t; discriminate. }
  rewrite E. reflexivity.
Qed.

(** Manual tracks. *)
Lemma analyze_manual (env : Env) (reqBody url : value) (ts : list value)
  (c : Collection) :
  prop reqBody "spotifyUrl" = Some url ->
  truthy url = false ->
  prop reqBody "tracks" = Some (VArr ts) ->
  ts <> [] ->
  serve env (AnalyzePlaylist reqBody) c
  = (fst (analysed env ts (VNum (of_Z (Z.of_nat (List.length ts))))
            (VStr (lit "Manual Playlist"))),
     c,
     snd (analysed env ts (VNum (of_Z (Z.of_nat (List.length ts))))
            (VStr (lit "Manual Playlist")))).
Proof.
  intros Hu Hf Ht Hne. destruct ts as [| t ts]; [contradiction |].
  pose proof (analysis_of_tracks env (t :: ts)
                (VNum (of_Z (Z.of_nat (List.length (t :: ts)))))
                (VStr (lit "Manual Playlist"))
                {| db := c; calls := [] |}) as H.
  remember (analysed env (t :: ts)
              (VNum (of_Z (Z.of_nat (List.length (t :: ts)))))
              (VStr (lit "Manual Playlist"))) as A eqn:HA.
  clear HA.
  unfold serve, route. rewrite analyze_playlist_eq.
  unfold try_catch in *. unfold bind at 1. unfold orThrow at 1. rewrite Hu.
  unfold ret at 1. unfold bind at 1. unfold orThrow at 1. rewrite Ht.
  unfold ret at 1. rewrite Hf. unfold bind at 1. unfold from_body.
  unfold ret at 1.
  destruct (analysis_of env _ _) as [[res | ex] w'].
  - injection H as -> ->. reflexivity.
  - unfold ret in H |- *. injection H as H1 H2. subst w'.
    cbn [db calls app]. now rewrite H1.
Qed.

(** A playlist of the catalog: the token, the playlist, its tracks, and
    then the analysis. *)
Lemma analyze_catalog (env : Env) (reqBody : value) (s id : jsstring)
  (c : Collection) :
  prop reqBody "spotifyUrl" = Some (VStr s) ->
  extractPlaylistId s = Some id ->
  let no_token :=
    fail 500
      "Spotify integration not configured. Please set SPOTIFY_CLIENT_ID and SPOTIFY_CLIENT_SECRET." in
  let no_playlist :=
    fail 400
      "Failed to fetch playlist from Spotify. Please check the URL and make sure the playlist is public." in
  serve env (AnalyzePlaylist reqBody) c
  = if negb (configured (SPOTIFY_CLIENT_ID env))
       || negb (configured (SPOTIFY_CLIENT_SECRET env))
    then (no_token, c, [])
    else
      match requestToken env with
      | None => (no_token, c, [CallSpotifyToken])
      | Some token =>
          if negb (truthy token) then (no_token, c, [CallSpotifyToken])
          else
            match playlistInfo env id with
            | None =>
                (no_playlist, c, [CallSpotifyToken; CallSpotifyPlaylist id])
            | Some info =>
                match playlistItems env id with
                | None =>
                    (no_playlist, c,
                     [CallSpotifyToken; CallSpotifyPlaylist id;
                      CallSpotifyTracks id])
                | Some items =>
                    (fst (analysed env (tracks_of env items)
                            (fst info) (snd info)),
                     c,
                     [CallSpotifyToken; CallSpotifyPlaylist id;
                      CallSpotifyTracks id]
                     ++ snd (analysed env (tracks_of env items)
                               (fst info) (snd info)))
                end
            end
      end.
Proof.
  intros Hu Hid no_token no_playlist.
  destruct (prop_total _ _ _ "tracks" Hu) as [tv Ht].
  assert (Hs : truthy (VStr s) = true).
  { destruct s; [discriminate Hid | reflexivity]. }
  unfold serve, route. rewrite analyze_playlist_eq.
  unfold try_catch at 1. unfold bind at 1. unfold orThrow at 1. rewrite Hu.
  unfold ret at 1. unfold bind at 1. unfold orThrow at 1. rewrite Ht.
  unfold ret at 1. rewrite Hs. unfold bind at 1.
  unfold from_catalog. rewrite Hid.
  unfold getSpotifyAccessToken, getSpotifyPlaylistTracks.
  unfold bind at 1. unfold try_catch at 1.
  destruct (negb (configured (SPOTIFY_CLIENT_ID env))
            || negb (configured (SPOTIFY_CLIENT_SECRET env))).
  { unfold ret at 1. cbn [truthy negb]. cbv iota. now destruct c. }
  unfold await at 1. cbn [db calls app].
  destruct (requestToken env) as [token |]; [| now destruct c].
  destruct (truthy token); [| now destruct c].
  cbn [negb]. cbv iota.
  unfold try_catch at 1. unfold bind at 1. unfold try_catch at 1.
  unfold bind at 1. unfold await at 1. cbn [db calls app].
  destruct (playlistInfo env id) as [info |]; [| now destruct c].
  unfold bind at 1. unfold await at 1. cbn [db calls app].
  destruct (playlistItems env id) as [items |]; [| now destruct c].
  unfold ret at 1. unfold ret at 1.
  pose proof (analysis_of_tracks env (tracks_of env items) (fst info)
                (snd info)
                {| db := c;
                   calls := [CallSpotifyToken; CallSpotifyPlaylist id;
                             CallSpotifyTracks id] |}) as H.
  remember (analysed env (tracks_of env items) (fst info) (snd info))
    as A eqn:HA.
  clear HA. unfold try_catch in H. cbn [db calls] in H.
  destruct (analysis_of env _ _) as [[res | ex] w'].
  - injection H as -> ->. reflexivity.
  - unfold ret in H |- *. injection H as H1 H2. subst w'.
    cbn [db calls app]. now rewrite H1.
Qed.

(** X13.  A request that carries a URL is served from the URL alone:
    tracks sent along with it play no part in the answer. *)
Theorem analyze_playlist_url_first
  (env : Env) (reqBody reqBody' url : value) (c : Collection) :
  prop reqBody "spotifyUrl" = Some url ->
  prop reqBody' "spotifyUrl" = Some url ->
  truthy url = true ->
  serve env (AnalyzePlaylist reqBody) c
  = serve env (AnalyzePlaylist reqBody') c.
Proof.
  intros Hu Hu' Ht.
  destruct (prop_total _ _ _ "tracks" Hu) as [t Htr].
  destruct (prop_total _ _ _ "tracks" Hu') as [t' Htr'].
  unfold serve, route. rewrite !analyze_playlist_eq.
  unfold try_catch, bind, orThrow. rewrite Hu, Hu', Htr, Htr'.
  unfold ret. cbv beta iota. rewrite Ht. reflexivity.
Qed.

Lemma analyze_playlist_url_first_witness :
  let url := VStr (lit "spotify:playlist:37i9dQZF1DX") in
  let env := Example.catalog_env (Some [Some Example.imagine]) true
               (Some (lit "{}")) in
  serve env (AnalyzePlaylist (VObj [(lit "spotifyUrl", url)])) Store.empty
  = serve env
      (AnalyzePlaylist (VObj [(lit "spotifyUrl", url);
                              (lit "tracks", VArr [Sample.one_track])]))
      Store.empty.
Proof.
  intros url env.
  apply (analyze_playlist_url_first env _ _ url); reflexivity.
Defined.

(** X14.  With a playlist reference of an accepted form but no token (no
    client id or secret, a failed token request, or an empty token), the
    handler answers 500; the playlist is not requested, the model is not
    called, and without credentials not even the token is requested. *)
Theorem analyze_playlist_without_token
  (env : Env) (reqBody : value) (s id : jsstring) (c : Collection) :
  prop reqBody "spotifyUrl" = Some (VStr s) ->
  extractPlaylistId s = Some id ->
  configured (SPOTIFY_CLIENT_ID env) = false
  \/ configured (SPOTIFY_CLIENT_SECRET env) = false
  \/ requestToken env = None
  \/ (exists token, requestToken env = Some token /\ truthy token = false) ->
  exists made,
    serve env (AnalyzePlaylist reqBody) c
    = (fail 500
         "Spotify integration not configured. Please set SPOTIFY_CLIENT_ID and SPOTIFY_CLIENT_SECRET.",
       c, made)
    /\ (made = [] \/ made = [CallSpotifyToken])
    /\ (configured (SPOTIFY_CLIENT_ID env) = false
        \/ configured (SPOTIFY_CLIENT_SECRET env) = false -> made = []).
Proof.
  intros Hu Hid Hno. rewrite (analyze_catalog env reqBody s id c Hu Hid).
  cbv zeta.
  destruct (configured (SPOTIFY_CLIENT_ID env)) eqn:Ei;
    [| eexists; split; [reflexivity | auto]].
  destruct (configured (SPOTIFY_CLIENT_SECRET env)) eqn:Es;
    [| eexists; split; [reflexivity | auto]].
  cbn [negb orb].
  destruct Hno as [E | [E | [E | (token & E & Hf)]]]; try discriminate;
    rewrite E; [| rewrite Hf; cbn [negb]];
    eexists; (split; [reflexivity |]);
    (split; [now right | intros [H | H]; discriminate]).
Qed.

Lemma analyze_playlist_without_token_witness :
  let env := Sample.env Sample.noon 0 true (Some (lit "{}")) in
  let reqBody := VObj [(lit "spotifyUrl", VStr (lit "37i9dQZF1DX"))] in
  exists made,
    serve env (AnalyzePlaylist reqBody) Store.empty
    = (fail 500
         "Spotify integration not configured. Please set SPOTIFY_CLIENT_ID and SPOTIFY_CLIENT_SECRET.",
       Store.empty, made)
    /\ (made = [] \/ made = [CallSpotifyToken])
    /\ (configured (SPOTIFY_CLIENT_ID env) = false
        \/ configured (SPOTIFY_CLIENT_SECRET env) = false -> made = []).
Proof.
  intros env reqBody.
  apply (analyze_playlist_without_token env reqBody (lit "37i9dQZF1DX")
           (lit "37i9dQZF1DX") Store.empty).
  - reflexivity.
  - reflexivity.
  - left. reflexivity.
Defined.

Lemma analysed_no_tracks (env : Env) (total name : value) :
  analysed env [] total name
  = (fail 400 "No tracks found in the playlist.", []).
Proof. reflexivity. Qed.

(** X15.  With a token, when the catalog gives nothing to analyse (the
    request for the playlist or for its tracks fails, or no item has a
    track with a name), the handler answers 400 and the model is not
    called. *)
Theorem analyze_playlist_nothing_fetched
  (env : Env) (reqBody : value) (s id : jsstring) (c : Collection)
  (token : value) :
  prop reqBody "spotifyUrl" = Some (VStr s) ->
  extractPlaylistId s = Some id ->
  configured (SPOTIFY_CLIENT_ID env) = true ->
  configured (SPOTIFY_CLIENT_SECRET env) = true ->
  requestToken env = Some token -> truthy token = true ->
  playlistInfo env id = None
  \/ playlistItems env id = None
  \/ (exists items, playlistItems env id = Some items
                    /\ tracks_of env items = []) ->
  status (response_of (serve env (AnalyzePlaylist reqBody) c)) = 400
  /\ collection_of (serve env (AnalyzePlaylist reqBody) c) = c
  /\ forallb is_catalog_call
       (calls_of (serve env (AnalyzePlaylist reqBody) c)) = true.
Proof.
  intros Hu Hid Ei Es Et Htr Hno.
  rewrite (analyze_catalog env reqBody s id c Hu Hid). cbv zeta.
  rewrite Ei, Es, Et, Htr. cbn [negb orb].
  destruct (playlistInfo env id) as [info |]; [| repeat split].
  destruct Hno as [E | [E | (items & E & Hnil)]]; try discriminate.
  - rewrite E. repeat split.
  - rewrite E, Hnil, analysed_no_tracks. repeat split.
Qed.

Lemma analyze_playlist_nothing_fetched_witness :
  let env := Example.catalog_env (Some [None]) true (Some (lit "{}")) in
  let reqBody := VObj [(lit "spotifyUrl", VStr (lit "37i9dQZF1DX"))] in
  status (response_of (serve env (AnalyzePlaylist reqBody) Store.empty)) = 400
  /\ collection_of (serve env (AnalyzePlaylist reqBody) Store.empty)
     = Store.empty
  /\ forallb is_catalog_call
       (calls_of (serve env (AnalyzePlaylist reqBody) Store.empty)) = true.
Proof.
  intros env reqBody.
  apply (analyze_playlist_nothing_fetched env reqBody (lit "37i9dQZF1DX")
           (lit "37i9dQZF1DX") Store.empty (VStr (lit "token")));
    try reflexivity.
  right. right. exists [None]. split; reflexivity.
Defined.

(** Without a key for the model, a request with manual tracks is
    answered 500 and nothing is called. *)
Theorem analyze_playlist_without_key
  (env : Env) (reqBody url : value) (ts : list value) (c : Collection) :
  prop reqBody "spotifyUrl" = Some url ->
  truthy url = false ->
  prop reqBody "tracks" = Some (VArr ts) ->
  ts <> [] ->
  configured (GEMINI_API_KEY env) = false ->
  serve env (AnalyzePlaylist reqBody) c
  = (fail 500 "AI service not configured", c, []).
Proof.
  intros Hu Hf Ht Hne Hk.
  rewrite (analyze_manual env reqBody url ts c Hu Hf Ht Hne).
  unfold analysed. rewrite Hk.
  destruct ts; [contradiction | reflexivity].
Qed.

Lemma analyze_playlist_without_key_witness :
  serve (Sample.env Sample.noon 0 false None)
    (AnalyzePlaylist (VObj [(lit "tracks", VArr [Sample.one_track])]))
    Store.empty
  = (fail 500 "AI service not configured", Store.empty, []).
Proof.
  apply (analyze_playlist_without_key (Sample.env Sample.noon 0 false None)
           (VObj [(lit "tracks", VArr [Sample.one_track])]) VUndefined
           [Sample.one_track] Store.empty);
    try reflexivity.
  discriminate.
Defined.

(** X16.  A [null] among the manual tracks makes the handler answer 500
    before the model is called. *)
Theorem analyze_playlist_null_track
  (env : Env) (reqBody url : value) (ts : list value) (c : Collection) :
  prop reqBody "spotifyUrl" = Some url ->
  truthy url = false ->
  prop reqBody "tracks" = Some (VArr ts) ->
  In VNull ts ->
  configured (GEMINI_API_KEY env) = true ->
  serve env (AnalyzePlaylist reqBody) c
  = (fail 500 "Failed to analyze playlist", c, []).
Proof.
  intros Hu Hf Ht Hin Hk.
  assert (Hne : ts <> []) by (intros ->; contradiction).
  rewrite (analyze_manual env reqBody url ts c Hu Hf Ht Hne).
  unfold analysed. rewrite Hk.
  assert (Hr : forallb readable ts = false).
  { destruct (forallb readable ts) eqn:E; [| reflexivity].
    rewrite forallb_forall in E. specialize (E VNull Hin). discriminate. }
  rewrite (unreadable_stops ts Hr).
  destruct ts; [contradiction | reflexivity].
Qed.

Lemma analyze_playlist_null_track_witness :
  serve (Sample.env Sample.noon 0 true (Some (lit "{}")))
    (AnalyzePlaylist (VObj [(lit "tracks", VArr [Sample.one_track; VNull])]))
    Store.empty
  = (fail 500 "Failed to analyze playlist", Store.empty, []).
Proof.
  apply (analyze_playlist_null_track
           (Sample.env Sample.noon 0 true (Some (lit "{}")))
           (VObj [(lit "tracks", VArr [Sample.one_track; VNull])]) VUndefined
           [Sample.one_track; VNull] Store.empty);
    try reflexivity.
  right. left. reflexivity.
Defined.




(** X18.  The playlist analysis has no fallback: with manual tracks whose
    title, artist, album and year are strings, numbers, booleans, null or
    absent, and a key, a failed call to the model and an answer that does
    not parse are both answered 500, after the one call.  A track with a
    field that cannot be written into the prompt (an object with a
    property [toString]) is answered 500 too, before any call. *)
Theorem analyze_playlist_no_fallback
  (env : Env) (reqBody url : value) (ts : list value) (c : Collection) :
  prop reqBody "spotifyUrl" = Some url ->
  truthy url = false ->
  prop reqBody "tracks" = Some (VArr ts) ->
  ts <> [] ->
  configured (GEMINI_API_KEY env) = true ->
  (forallb plain_track ts = true ->
   generateContent env (PlaylistPrompt ts) = None
   \/ (exists text, generateContent env (PlaylistPrompt ts) = Some text
                    /\ JSON_parse env (clean (trim text)) = None) ->
   exists msg,
     serve env (AnalyzePlaylist reqBody) c
     = (fail 500 msg, c, [CallAI (PlaylistPrompt ts)]))
  /\ ((exists t, In t (firstn 30 ts)
                 /\ (stringable (field "title" t) = false
                     \/ stringable (field "artist" t) = false
                     \/ stringable (field "album" t) = false
                     \/ stringable (field "year" t) = false)) ->
      serve env (AnalyzePlaylist reqBody) c
      = (fail 500 "Failed to analyze playlist", c, [])).
Proof.
  intros Hu Hf Ht Hne Hk.
  rewrite (analyze_manual env reqBody url ts c Hu Hf Ht Hne).
  unfold analysed. rewrite Hk. split.
  - intros Hr Hbad. rewrite (plain_builds ts Hr).
    destruct ts as [| t ts]; [contradiction |]. cbn [negb].
    destruct Hbad as [E | (text & E & Hp)]; rewrite E; [| rewrite Hp];
      eexists; reflexivity.
  - intros (t & Hin & Hbad).
    rewrite (unwritable_stops ts t Hin Hbad).
    destruct ts; [contradiction | reflexivity].
Qed.

Lemma analyze_playlist_no_fallback_witness :
  let env := Sample.env Sample.noon 0 true (Some (lit "no idea")) in
  let odd := VObj [(lit "title", VStr (lit "Imagine"));
                   (lit "artist", VObj [(lit "toString", VNum (of_Z 1))])] in
  (exists msg,
     serve env (AnalyzePlaylist (VObj [(lit "tracks",
                                        VArr [Sample.one_track])]))
       Store.empty
     = (fail 500 msg, Store.empty,
        [CallAI (PlaylistPrompt [Sample.one_track])]))
  /\ serve env (AnalyzePlaylist (VObj [(lit "tracks", VArr [odd])]))
       Store.empty
     = (fail 500 "Failed to analyze playlist", Store.empty, []).
Proof.
  intros env odd. split.
  - apply (analyze_playlist_no_fallback env
             (VObj [(lit "tracks", VArr [Sample.one_track])]) VUndefined
             [Sample.one_track] Store.empty);
      try reflexivity.
    + discriminate.
    + right. exists (lit "no idea"). split; reflexivity.
  - apply (analyze_playlist_no_fallback env
             (VObj [(lit "tracks", VArr [odd])]) VUndefined
             [odd] Store.empty);
      try reflexivity.
    + discriminate.
    + exists odd. split; [left; reflexivity |].
      right. left. reflexivity.
Defined.







(** ** [extractPlaylistId]: what it returns *)

(** X20.  Whatever [extractPlaylistId] returns is a non-empty run of
    letters and digits taken from the input: the run that follows the URI
    prefix or the web-link prefix, or the whole input. *)
Theorem extractPlaylistId_returns_identifier (s id : jsstring) :
  extractPlaylistId s = Some id ->
  identifier id
  /\ ((exists before after, s = before ++ uri_prefix ++ id ++ after)
      \/ (exists before after, s = before ++ link_prefix ++ id ++ after)
      \/ s = id).
Proof.
  unfold extractPlaylistId, patterns. simpl.
  destruct (search_after uri_prefix s) as [x |] eqn:E1.
  { intros H. injection H as ->.
    destruct (search_after_sound _ _ _ E1) as (b & a & Hs & Hid).
    split; [exact Hid |]. left. now exists b, a. }
  destruct (search_after link_prefix s) as [x |] eqn:E2.
  { intros H. injection H as ->.
    destruct (search_after_sound _ _ _ E2) as (b & a & Hs & Hid).
    split; [exact Hid |]. right. left. now exists b, a. }
  unfold whole_alnum. destruct s as [| ch s]; [discriminate |].
  destruct (forallb is_alnum (ch :: s)) eqn:Ha; [| discriminate].
  intros H. injection H as <-.
  split; [split; [discriminate | exact Ha] | now right; right].
Qed.

Lemma extractPlaylistId_returns_identifier_witness :
  identifier (lit "37i9dQZF1DX")
  /\ ((exists before after,
         lit "see spotify:playlist:37i9dQZF1DX!"
         = before ++ uri_prefix ++ lit "37i9dQZF1DX" ++ after)
      \/ (exists before after,
            lit "see spotify:playlist:37i9dQZF1DX!"
            = before ++ link_prefix ++ lit "37i9dQZF1DX" ++ after)
      \/ lit "see spotify:playlist:37i9dQZF1DX!" = lit "37i9dQZF1DX").
Proof.
  apply (extractPlaylistId_returns_identifier
           (lit "see spotify:playlist:37i9dQZF1DX!") (lit "37i9dQZF1DX")).
  reflexivity.
Defined.

Lemma span_alnum_stop (id after : jsstring) :
  forallb is_alnum id = true -> stops_identifier after ->
  span_alnum (id ++ after) = id.
Proof.
  intros Hid Hstop. induction id as [| ch id IH]; simpl in *.
  - destruct after as [| a after]; [reflexivity |].
    simpl in Hstop |- *. now rewrite Hstop.
  - apply andb_true_iff in Hid. destruct Hid as [-> Hid].
    now rewrite IH.
Qed.

Lemma search_after_here (l id after : jsstring) :
  identifier id -> stops_identifier after ->
  search_after l (l ++ id ++ after) = Some id.
Proof.
  intros [Hne Hall] Hstop. rewrite search_after_eq.
  rewrite startsWith_app, skipn_app_exact, (span_alnum_stop _ _ Hall Hstop).
  destruct id; [contradiction | reflexivity].
Qed.

Lemma search_after_skip (l s : jsstring) (ch : N) :
  startsWith (ch :: s) l = false ->
  search_after l (ch :: s) = search_after l s.
Proof. intros H. rewrite search_after_eq. now rewrite H. Qed.

Lemma startsWith_alnum (s l : jsstring) :
  forallb is_alnum s = true -> startsWith s l = true ->
  forallb is_alnum l = true.
Proof.
  revert s. induction l as [| ch l IH]; intros s Hs H; [reflexivity |].
  destruct s as [| d s]; [discriminate |]. simpl in *.
  apply andb_true_iff in Hs. destruct Hs as [Hd Hs].
  apply andb_true_iff in H. destruct H as [Hc H].
  apply N.eqb_eq in Hc. subst d. rewrite Hd. now apply (IH s).
Qed.

Lemma search_after_alnum (l s : jsstring) :
  forallb is_alnum l = false -> forallb is_alnum s = true ->
  search_after l s = None.
Proof.
  intros Hl. induction s as [| ch s IH]; intros Hs; rewrite search_after_eq.
  - destruct (startsWith [] l) eqn:E; [| reflexivity].
    rewrite (startsWith_alnum [] l Hs E) in Hl. discriminate.
  - destruct (startsWith (ch :: s) l) eqn:E.
    + rewrite (startsWith_alnum (ch :: s) l Hs E) in Hl. discriminate.
    + simpl in Hs. apply andb_true_iff in Hs. now apply IH.
Qed.

(** X21.  The three accepted forms give back the identifier: the URI
    [spotify:playlist:ID] and the link
    [https://open.spotify.com/playlist/ID] (when no URI form occurs in
    it), each possibly followed by text that does not start with a letter
    or a digit, and a bare [ID] with nothing after it.  A bare [ID]
    followed by such text, a query string for one, is no reference at
    all (unless the text itself holds a URI or a link form). *)
Theorem extractPlaylistId_accepted_forms (id after : jsstring) :
  identifier id ->
  stops_identifier after ->
  extractPlaylistId (uri_prefix ++ id ++ after) = Some id
  /\ extractPlaylistId id = Some id
  /\ (~ has_form uri_prefix (lit "https://" ++ link_prefix ++ id ++ after) ->
      extractPlaylistId (lit "https://" ++ link_prefix ++ id ++ after)
      = Some id)
  /\ (after <> [] ->
      ~ has_form uri_prefix (id ++ after) ->
      ~ has_form link_prefix (id ++ after) ->
      extractPlaylistId (id ++ after) = None).
Proof.
  intros Hid Hstop.
  assert (Hbare : after <> [] ->
            ~ has_form uri_prefix (id ++ after) ->
            ~ has_form link_prefix (id ++ after) ->
            extractPlaylistId (id ++ after) = None).
  { intros Hne Hu Hl. apply extractPlaylistId_None_iff.
    intros [H | [H | [_ H]]]; [now apply Hu | now apply Hl |].
    rewrite forallb_app in H. apply andb_true_iff in H. destruct H as [_ H].
    destruct after as [| ch after]; [contradiction |].
    simpl in Hstop, H. rewrite Hstop in H. discriminate H. }
  unfold extractPlaylistId, patterns. cbn [first_match].
  split; [| split; [| split; [| exact Hbare]]].
  - now rewrite (search_after_here uri_prefix id after Hid Hstop).
  - destruct Hid as [Hne Hall].
    rewrite (search_after_alnum uri_prefix id eq_refl Hall).
    rewrite (search_after_alnum link_prefix id eq_refl Hall).
    unfold whole_alnum. rewrite Hall. destruct id; [contradiction | auto].
  - intros Hno.
    destruct (search_after uri_prefix _) as [x |] eqn:E.
    { exfalso. apply Hno.
      destruct (search_after_sound _ _ _ E) as (b & a & Hs & Hx).
      now exists b, x, a. }
    change (lit "https://" ++ link_prefix ++ id ++ after)
      with (104 :: 116 :: 116 :: 112 :: 115 :: 58 :: 47 :: 47
            :: link_prefix ++ id ++ after)%N.
    do 8 (rewrite search_after_skip by reflexivity).
    now rewrite (search_after_here link_prefix id after Hid Hstop).
Qed.

Lemma extractPlaylistId_accepted_forms_witness :
  let id := lit "37i9dQZF1DX" in
  let after := lit "?si=abc" in
  extractPlaylistId (uri_prefix ++ id ++ after) = Some id
  /\ extractPlaylistId id = Some id
  /\ extractPlaylistId (lit "https://" ++ link_prefix ++ id ++ after)
     = Some id
  /\ extractPlaylistId (id ++ after) = None.
Proof.
  intros id after.
  destruct (extractPlaylistId_accepted_forms id after)
    as (H1 & H2 & H3 & H4).
  - split; [discriminate | reflexivity].
  - reflexivity.
  - split; [exact H1 |]. split; [exact H2 |]. split.
    + apply H3.
      intros Hf. apply search_after_complete in Hf. apply Hf. reflexivity.
    + apply H4.
      * discriminate.
      * intros Hf. apply search_after_complete in Hf. apply Hf. reflexivity.
      * intros Hf. apply search_after_complete in Hf. apply Hf. reflexivity.
Defined.

(** ** The clean-up of a reply *)

Lemma endsWith_app (x p : jsstring) : endsWith (x ++ p) p = true.
Proof. unfold endsWith. rewrite rev_app_distr. apply startsWith_app. Qed.

Lemma firstn_app_exact {A} (x p : list A) :
  firstn (List.length (x ++ p) - List.length p) (x ++ p) = x.
Proof.
  rewrite length_app, Nat.add_sub.
  rewrite firstn_app, Nat.sub_diag, firstn_all. simpl. apply app_nil_r.
Qed.

(** X22.  A reply wrapped in a [json] code fence, each fence on a line of
    its own, is cleaned to what stands between the fences, whatever that
    is; a reply that does not start with the fence is left as it is. *)
Theorem clean_unwraps_fence (inner s : jsstring) :
  clean (fence_open ++ LF :: inner ++ LF :: fence_close) = inner
  /\ (startsWith s fence_open = false -> clean s = s).
Proof.
  split.
  - unfold clean. rewrite startsWith_app.
    unfold drop_fence_open. rewrite skipn_app_exact.
    rewrite N.eqb_refl. unfold drop_fence_close.
    rewrite (endsWith_app inner (LF :: fence_close)).
    exact (firstn_app_exact inner (LF :: fence_close)).
  - intros H. unfold clean. now rewrite H.
Qed.

Lemma clean_unwraps_fence_witness :
  clean (fence_open ++ LF :: lit "{}" ++ LF :: fence_close) = lit "{}"
  /\ clean (lit "{}") = lit "{}".
Proof.
  destruct (clean_unwraps_fence (lit "{}") (lit "{}")) as [H1 H2].
  split; [exact H1 | apply H2; reflexivity].
Defined.

(** ** [GET /api/insights]: sentences and rows *)

(** X23.  With entries stored, when the model is not configured, or its
    call fails, or its raw answer is not JSON or is the JSON [null] (the
    answer is parsed as it comes, without the clean-up of code fences),
    [GET /api/insights] still answers 200: the insights are the two
    sentences built from the average, the number of days and the streak
    that the same response reports, and the recommendations are the two
    fixed ones. *)
Theorem insights_fallback_sentences (env : Env) (c : Collection) :
  docs c <> [] ->
  configured (GEMINI_API_KEY env) = false
  \/ (forall p, generateContent env p = None)
  \/ (forall p text, generateContent env p = Some text ->
        JSON_parse env text = None \/ JSON_parse env text = Some VNull) ->
  exists avg streak days rows,
    response_of (serve env GetInsights c)
    = json (Insights
              (Composed [AverageLine avg days; StreakLine streak])
              (Composed
                 [Plain "Keep tracking your mood daily for better insights!";
                  Plain "Try to identify patterns in your mood changes."])
              avg streak days rows).
Proof.
  intros Hne Hno. destruct c as [d nx]. simpl in Hne.
  unfold serve, route, get_insights, try_catch, bind, get_db, orThrow,
    find_sorted.
  cbn [db docs].
  destruct (sort_desc timestamp d) as [| e es] eqn:Hs.
  { apply sort_desc_nil_inv in Hs. contradiction. }
  generalize (dailyAverages_of (e :: es)). intros rows.
  generalize (recentNotes (e :: es)). intros notes.
  destruct (configured (GEMINI_API_KEY env)) eqn:Hk;
    [| do 4 eexists; reflexivity].
  unfold await.
  destruct (generateContent env _) as [text |] eqn:Hg;
    [| do 4 eexists; reflexivity].
  destruct Hno as [E | [E | E]];
    [discriminate | rewrite E in Hg; discriminate |].
  simpl.
  destruct (E _ _ Hg) as [Hp | Hp]; rewrite Hp; do 4 eexists; reflexivity.
Qed.

Lemma insights_fallback_sentences_witness :
  exists avg streak days rows,
    response_of
      (serve (Sample.env Sample.noon 0 true (Some (lit "```json
{}
```"))) GetInsights (Sample.four_days 0))
    = json (Insights
              (Composed [AverageLine avg days; StreakLine streak])
              (Composed
                 [Plain "Keep tracking your mood daily for better insights!";
                  Plain "Try to identify patterns in your mood changes."])
              avg streak days rows).
Proof.
  apply (insights_fallback_sentences
           (Sample.env Sample.noon 0 true (Some (lit "```json
{}
```"))) (Sample.four_days 0)).
  - discriminate.
  - right. right. intros p text H. injection H as <-. left. reflexivity.
Defined.

Lemma streak_from_le (today i : Z) (rows : list DailyAverage) :
  (streak_from today i rows <= List.length rows)%nat.
Proof.
  revert i. induction rows as [| r rows IH]; intros i; simpl; [lia |].
  destruct (_ =? _); [| lia]. specialize (IH (i + 1)). lia.
Qed.

Lemma filter_length_perm {A} (f : A -> bool) (l l' : list A) :
  Permutation l l' ->
  List.length (filter f l) = List.length (filter f l').
Proof.
  induction 1 as [| x l l' _ IH | x y l | l l' l'' _ IH1 _ IH2]; simpl.
  - reflexivity.
  - destruct (f x); simpl; now rewrite IH.
  - destruct (f x), (f y); reflexivity.
  - now rewrite IH1.
Qed.

(** X24.  With entries stored, [GET /api/insights] returns at most 30
    daily rows, on distinct dates, latest first; each row is for a date
    that has an entry and counts exactly the entries of that date; the
    number of days is at most the number of entries, and the streak at
    most the number of days. *)
Theorem insights_daily_rows (env : Env) (c : Collection) :
  docs c <> [] ->
  exists ins recs avg streak days rows,
    response_of (serve env GetInsights c)
    = json (Insights ins recs avg streak days rows)
    /\ (List.length rows <= 30)%nat
    /\ StronglySorted (fun a b => b < a) (List.map date rows)
    /\ (forall r, In r rows ->
          has_entry_on c (date r)
          /\ (1 <= entryCount r)%nat
          /\ entryCount r = List.length (on_date (date r) (docs c)))
    /\ (streak <= days <= List.length (docs c))%nat.
Proof.
  intros Hne.
  destruct (get_insights_figures env c Hne) as (ins & recs & made & ->).
  destruct (dailyAverages_spec (find_sorted c)) as (Hn & Hk & Hr).
  set (rows := dailyAverages_of (find_sorted c)) in *.
  assert (Hperm : Permutation (find_sorted c) (docs c))
    by apply sort_desc_perm.
  assert (Hsorted : StronglySorted (fun a b => b < a) (List.map date rows)).
  { apply strict_of_NoDup; [| exact Hn].
    apply sorted_map. apply (sort_desc_sorted date). }
  exists ins, recs, (overallAverage_of rows), (streak_of env rows),
    (List.length rows), (firstn 30 rows).
  split; [reflexivity |]. split; [apply firstn_le_length |]. split.
  { rewrite <- firstn_map. now apply firstn_sorted. }
  split.
  - intros r Hin. apply firstn_In in Hin.
    destruct (Hr r Hin) as [_ Hc].
    assert (He : has_entry_on c (date r)).
    { destruct (proj1 (Hk (date r)) (in_map date _ _ Hin)) as (e & He & Hd).
      exists e. split; [| exact Hd]. now apply (Permutation_in _ Hperm). }
    assert (Hlen : entryCount r = List.length (on_date (date r) (docs c))).
    { rewrite Hc. unfold on_date. now apply filter_length_perm. }
    split; [exact He |]. split; [| exact Hlen].
    rewrite Hlen. destruct He as (e & He & Hd).
    assert (Hf : In e (on_date (date r) (docs c))).
    { unfold on_date. apply filter_In. split; [exact He |].
      now apply Z.eqb_eq. }
    destruct (on_date (date r) (docs c)); [contradiction | simpl; lia].
  - split; [apply streak_from_le |].
    rewrite <- (Permutation_length Hperm), <- (length_map date rows).
    rewrite <- (length_map (fun e => dateKey (timestamp e)) (find_sorted c)).
    apply NoDup_incl_length; [exact Hn |].
    intros d Hd. apply Hk in Hd. destruct Hd as (e & He & <-).
    now apply (in_map (fun e => dateKey (timestamp e))).
Qed.

Lemma insights_daily_rows_witness :
  exists ins recs avg streak days rows,
    response_of (serve (Sample.env Sample.noon 0 false None) GetInsights
                   Sample.uneven)
    = json (Insights ins recs avg streak days rows)
    /\ (List.length rows <= 30)%nat
    /\ StronglySorted (fun a b => b < a) (List.map date rows)
    /\ (forall r, In r rows ->
          has_entry_on Sample.uneven (date r)
          /\ (1 <= entryCount r)%nat
          /\ entryCount r
             = List.length (on_date (date r) (docs Sample.uneven)))
    /\ (streak <= days <= List.length (docs Sample.uneven))%nat.
Proof.
  apply (insights_daily_rows (Sample.env Sample.noon 0 false None)
           Sample.uneven).
  discriminate.
Defined.

(** ** Averages stay on the scale *)

Lemma total_bounds (xs : list number) :
  Forall in_scale xs ->
  forall a : Q,
  exists q : Q,
    fold_left num_add xs (Fin a) = Fin q
    /\ (a <= q)%Q
    /\ (q <= a + 4 * inject_Z (Z.of_nat (List.length xs)))%Q.
Proof.
  induction 1 as [| x xs (qx & -> & H0 & H4) _ IH]; intros a.
  - exists a. split; [reflexivity |].
    change (inject_Z (Z.of_nat (List.length (@nil number)))) with 0%Q. lra.
  - change (fold_left num_add (Fin qx :: xs) (Fin a))
      with (fold_left num_add xs (Fin (Qred (a + qx)))).
    destruct (IH (Qred (a + qx))) as (q & -> & Hlo & Hhi).
    exists q. split; [reflexivity |].
    rewrite Qred_correct in Hlo, Hhi.
    change (List.length (Fin qx :: xs)) with (S (List.length xs)).
    rewrite Nat2Z.inj_succ, <- Z.add_1_r, inject_Z_plus.
    change (inject_Z 1) with 1%Q. lra.
Qed.

Lemma mean_in_scale (xs : list number) :
  xs <> [] -> Forall in_scale xs -> in_scale (mean xs).
Proof.
  intros Hne Hall. unfold mean, total, of_Z.
  destruct (total_bounds xs Hall (inject_Z 0)) as (q & -> & Hlo & Hhi).
  change (inject_Z 0) with 0%Q in Hlo, Hhi.
  set (n := inject_Z (Z.of_nat (List.length xs))) in *.
  assert (Hn : (0 < n)%Q).
  { unfold n. destruct xs as [| x xs]; [contradiction |].
    change 0%Q with (inject_Z 0). rewrite <- Zlt_Qlt.
    simpl List.length. lia. }
  cbn [num_div].
  destruct (Qeq_bool n 0) eqn:E.
  { apply Qeq_bool_iff in E. lra. }
  exists (Qred (q / n)). split; [reflexivity |].
  rewrite Qred_correct. split.
  - apply Qle_shift_div_l; [exact Hn | lra].
  - apply Qle_shift_div_r; [exact Hn | lra].
Qed.

(** X25.  In a collection that creations and deletions lead to and that
    is not empty, the average that [GET /api/insights] reports and the
    average of each daily row it returns are numbers of the closed range
    [0,4]. *)
Theorem insights_averages_in_scale (env : Env) (c : Collection) :
  reachable c ->
  docs c <> [] ->
  exists ins recs avg streak days rows,
    response_of (serve env GetInsights c)
    = json (Insights ins recs avg streak days rows)
    /\ in_scale avg
    /\ Forall (fun r => in_scale (averageMood r)) rows.
Proof.
  intros Hreach Hne.
  destruct (get_insights_figures env c Hne) as (ins & recs & made & ->).
  destruct (dailyAverages_spec (find_sorted c)) as (Hn & Hk & Hr).
  set (rows := dailyAverages_of (find_sorted c)) in *.
  assert (Hperm : Permutation (find_sorted c) (docs c))
    by apply sort_desc_perm.
  assert (Hrow : Forall (fun r => in_scale (averageMood r)) rows).
  { rewrite Forall_forall. intros r Hin.
    destruct (Hr r Hin) as [-> _]. unfold raw_mean.
    destruct (proj1 (Hk (date r)) (in_map date _ _ Hin)) as (e & He & Hd).
    apply mean_in_scale.
    - assert (Hf : In e (on_date (date r) (find_sorted c))).
      { unfold on_date. apply filter_In. split; [exact He |].
        now apply Z.eqb_eq. }
      destruct (on_date (date r) (find_sorted c)); [contradiction |].
      discriminate.
    - rewrite Forall_forall. intros m Hm. apply in_map_iff in Hm.
      destruct Hm as (x & <- & Hx). unfold on_date in Hx.
      apply filter_In in Hx. destruct Hx as [Hx _].
      apply (Permutation_in _ Hperm) in Hx.
      exact (proj1 (reachable_schema c x Hreach Hx)). }
  exists ins, recs, (overallAverage_of rows), (streak_of env rows),
    (List.length rows), (firstn 30 rows).
  split; [reflexivity |]. split.
  - unfold overallAverage_of. apply mean_in_scale.
    + destruct (docs c) as [| e0 l0] eqn:Ed; [contradiction |].
      assert (He0 : In e0 (find_sorted c)).
      { apply (Permutation_in _ (Permutation_sym Hperm)). now left. }
      assert (Hd : In (dateKey (timestamp e0)) (List.map date rows)).
      { apply Hk. now exists e0. }
      destruct rows; [contradiction | discriminate].
    + rewrite Forall_forall. intros m Hm. apply in_map_iff in Hm.
      destruct Hm as (r & <- & Hin). rewrite Forall_forall in Hrow.
      now apply Hrow.
  - rewrite Forall_forall in *. intros r Hin. apply Hrow.
    now apply (firstn_In 30).
Qed.

Lemma insights_averages_in_scale_witness :
  exists ins recs avg streak days rows,
    response_of (serve (Sample.env Sample.noon 0 false None) GetInsights
                   (Sample.four_days 0))
    = json (Insights ins recs avg streak days rows)
    /\ in_scale avg
    /\ Forall (fun r => in_scale (averageMood r)) rows.
Proof.
  apply (insights_averages_in_scale (Sample.env Sample.noon 0 false None)
           (Sample.four_days 0)).
  - exists (List.map (fun k =>
              (Sample.env (Sample.noon - k * DAY) 0 false None,
               PostMoods (Sample.mood_body (VNum (of_Z 2)) VUndefined)))
              [4; 2; 1; 0]).
    split; reflexivity.
  - discriminate.
Defined.

(** ** The streak, on a server at UTC and elsewhere *)

Lemma streak_from_sound (d : Z) (rows : list DailyAverage) :
  forall (i : Z) (j : nat),
    (j < streak_from (d * DAY) i rows)%nat ->
    In (d - i - Z.of_nat j) (List.map date rows).
Proof.
  induction rows as [| r rows IH]; intros i j; simpl; [lia |].
  unfold utc_midnight, expectedDate.
  destruct (Z.eqb_spec (date r * DAY) (d * DAY - i * DAY)) as [E | _];
    [| lia].
  assert (Hr : date r = d - i) by (unfold DAY in E; lia).
  destruct j as [| j]; intros Hj.
  - left. simpl. lia.
  - right. replace (d - i - Z.of_nat (S j)) with (d - (i + 1) - Z.of_nat j)
      by lia.
    apply IH. lia.
Qed.

Lemma streak_from_maximal (d : Z) (rows : list DailyAverage) :
  forall i : Z,
    StronglySorted (fun a b => b < a) (List.map date rows) ->
    Forall (fun x => x <= d - i) (List.map date rows) ->
    ~ In (d - i - Z.of_nat (streak_from (d * DAY) i rows))
        (List.map date rows).
Proof.
  induction rows as [| r rows IH]; intros i Hs Hb; simpl; [tauto |].
  simpl in Hs, Hb. inversion Hs as [| ? ? Hs' Hlt]; subst.
  inversion Hb as [| ? ? Hr Hb']; subst.
  rewrite Forall_forall in Hlt.
  unfold utc_midnight, expectedDate.
  destruct (Z.eqb_spec (date r * DAY) (d * DAY - i * DAY)) as [E | E].
  - assert (Hd : date r = d - i) by (unfold DAY in E; lia).
    intros [H | H]; [lia |].
    apply (IH (i + 1)); [exact Hs' | |].
    + rewrite Forall_forall. intros x Hx. specialize (Hlt x Hx). lia.
    + replace (d - (i + 1) - Z.of_nat (streak_from (d * DAY) (i + 1) rows))
        with (d - i - Z.of_nat (S (streak_from (d * DAY) (i + 1) rows)))
        by lia.
      exact H.
  - assert (Hd : date r <> d - i) by (unfold DAY in E; lia).
    simpl. rewrite Z.sub_0_r. intros [H | H]; [lia |].
    specialize (Hlt _ H). lia.
Qed.

Lemma dateKey_mono (a b : Z) : a <= b -> dateKey a <= dateKey b.
Proof. intros H. unfold dateKey, DAY. apply Z.div_le_mono; lia. Qed.

(** X26.  On a server whose zone is UTC, a streak of [n] means that each
    of the [n] days up to today has an entry; and when no entry is later
    than the request, the day before those has none: the streak is the
    number of consecutive days with entries, counted back from today. *)
Theorem insights_streak_at_utc (env : Env) (c : Collection) :
  tz_offset env = 0 ->
  docs c <> [] ->
  exists ins recs avg streak days rows,
    response_of (serve env GetInsights c)
    = json (Insights ins recs avg streak days rows)
    /\ (forall i, (i < streak)%nat ->
          has_entry_on c (dateKey (now env) - Z.of_nat i))
    /\ ((forall e, In e (docs c) -> timestamp e <= now env) ->
        ~ has_entry_on c (dateKey (now env) - Z.of_nat streak)).
Proof.
  intros Htz Hne.
  destruct (get_insights_figures env c Hne) as (ins & recs & made & ->).
  destruct (dailyAverages_spec (find_sorted c)) as (Hn & Hk & _).
  set (rows := dailyAverages_of (find_sorted c)) in *.
  assert (Hperm : Permutation (find_sorted c) (docs c))
    by apply sort_desc_perm.
  assert (Hin : forall k, In k (List.map date rows) <-> has_entry_on c k).
  { intros k. rewrite Hk. unfold has_entry_on.
    split; intros (e & He & Hd); exists e; (split; [| exact Hd]);
      revert He; apply Permutation_in; [| symmetry]; exact Hperm. }
  assert (Hmid : local_midnight env = dateKey (now env) * DAY).
  { unfold local_midnight, dateKey.
    now rewrite Htz, Z.add_0_r, Z.sub_0_r. }
  exists ins, recs, (overallAverage_of rows), (streak_of env rows),
    (List.length rows), (firstn 30 rows).
  split; [reflexivity |]. unfold streak_of. rewrite Hmid. split.
  - intros i Hi. apply Hin.
    replace (dateKey (now env) - Z.of_nat i)
      with (dateKey (now env) - 0 - Z.of_nat i) by lia.
    now apply streak_from_sound.
  - intros Hpast Hhas. apply Hin in Hhas.
    replace (dateKey (now env)
             - Z.of_nat (streak_from (dateKey (now env) * DAY) 0 rows))
      with (dateKey (now env) - 0
            - Z.of_nat (streak_from (dateKey (now env) * DAY) 0 rows))
      in Hhas by lia.
    revert Hhas. apply streak_from_maximal.
    + apply strict_of_NoDup; [| exact Hn].
      apply sorted_map. apply (sort_desc_sorted date).
    + rewrite Forall_forall. intros k Hk'. apply Hin in Hk'.
      destruct Hk' as (e & He & <-). rewrite Z.sub_0_r.
      apply dateKey_mono. now apply Hpast.
Qed.

Lemma insights_streak_at_utc_witness :
  exists ins recs avg streak days rows,
    response_of (serve (Sample.env Sample.noon 0 false None) GetInsights
                   (Sample.four_days 0))
    = json (Insights ins recs avg streak days rows)
    /\ (forall i, (i < streak)%nat ->
          has_entry_on (Sample.four_days 0)
            (dateKey (now (Sample.env Sample.noon 0 false None))
             - Z.of_nat i))
    /\ ((forall e, In e (docs (Sample.four_days 0)) ->
           timestamp e <= now (Sample.env Sample.noon 0 false None)) ->
        ~ has_entry_on (Sample.four_days 0)
            (dateKey (now (Sample.env Sample.noon 0 false None))
             - Z.of_nat streak)).
Proof.
  apply (insights_streak_at_utc (Sample.env Sample.noon 0 false None)
           (Sample.four_days 0)).
  - reflexivity.
  - discriminate.
Defined.

(** On a server whose zone is not UTC (an offset other than zero,
    of less than a day), [GET /api/insights] reports a streak of 0
    whatever the collection holds. *)
Theorem insights_streak_off_utc_is_zero (env : Env) (c : Collection) :
  tz_offset env <> 0 ->
  - DAY < tz_offset env < DAY ->
  docs c <> [] ->
  exists ins recs avg days rows,
    response_of (serve env GetInsights c)
    = json (Insights ins recs avg 0 days rows).
Proof.
  intros Hnz Hlt Hne.
  destruct (get_insights_figures env c Hne) as (ins & recs & made & ->).
  rewrite (streak_zero_off_utc env _ Hnz Hlt).
  do 5 eexists. reflexivity.
Qed.

Lemma insights_streak_off_utc_is_zero_witness :
  exists ins recs avg days rows,
    response_of
      (serve (Sample.env Sample.noon (- 18000000) false None) GetInsights
         (Sample.four_days 0))
    = json (Insights ins recs avg 0 days rows).
Proof.
  apply (insights_streak_off_utc_is_zero
           (Sample.env Sample.noon (- 18000000) false None)
           (Sample.four_days 0)).
  - discriminate.
  - split; reflexivity.
  - discriminate.
Defined.

(** ** The forms and the handlers together *)

Lemma to_value_plain (tracks : list Form.Track) :
  forallb plain_track (List.map Form.to_value tracks) = true.
Proof.
  induction tracks as [| t l IH]; simpl; [reflexivity |].
  rewrite IH, andb_true_r.
  unfold plain_track, Form.to_value, field. simpl.
  now destruct (Form.year t).
Qed.

Lemma filter_complete_blank (tracks : list Form.Track) :
  filter Form.complete (Editor.addTrack tracks) = filter Form.complete tracks.
Proof.
  unfold Editor.addTrack. rewrite filter_app. simpl. apply app_nil_r.
Qed.

Lemma without_last (tracks : list Form.Track) (t : Form.Track) :
  Editor.without (List.length tracks) (tracks ++ [t]) = tracks.
Proof. induction tracks as [| x l IH]; simpl; [reflexivity | now rewrite IH]. Qed.

Lemma without_length (index : nat) (tracks : list Form.Track) :
  (index < List.length tracks)%nat ->
  S (List.length (Editor.without index tracks)) = List.length tracks.
Proof.
  revert index. induction tracks as [| x l IH]; intros [| i]; simpl;
    try lia.
  intros H. rewrite IH; lia.
Qed.

Lemma without_beyond (index : nat) (tracks : list Form.Track) :
  (List.length tracks <= index)%nat -> Editor.without index tracks = tracks.
Proof.
  revert index. induction tracks as [| x l IH]; intros [| i]; simpl;
    try lia; try reflexivity.
  intros H. rewrite IH; [reflexivity | lia].
Qed.

(** X27.  Editing the manual form.  A row added by [addTrack] is blank and
    changes nothing of what the form submits; removing it again gives the
    rows back.  [removeTrack] takes out one row at a valid index, does
    nothing at an index past the end, and never leaves the form without a
    row. *)
Theorem form_rows_editing (tracks : list Form.Track) (index : nat)
  (spotifyUrl : jsstring) :
  tracks <> [] ->
  Form.analyzePersonality false spotifyUrl (Editor.addTrack tracks)
  = Form.analyzePersonality false spotifyUrl tracks
  /\ Editor.removeTrack (List.length tracks) (Editor.addTrack tracks) = tracks
  /\ Editor.removeTrack index tracks <> []
  /\ ((index < List.length tracks)%nat -> (1 < List.length tracks)%nat ->
      S (List.length (Editor.removeTrack index tracks)) = List.length tracks)
  /\ ((List.length tracks <= index)%nat ->
      Editor.removeTrack index tracks = tracks).
Proof.
  intros Hne. split; [| split; [| split; [| split]]].
  - unfold Form.analyzePersonality. cbv iota.
    now rewrite filter_complete_blank.
  - unfold Editor.removeTrack, Editor.addTrack.
    rewrite length_app. simpl.
    destruct tracks as [| t l]; [contradiction |].
    replace (1 <? List.length (t :: l) + 1)%nat with true
      by (symmetry; apply Nat.ltb_lt; simpl; lia).
    apply without_last.
  - unfold Editor.removeTrack.
    destruct (Nat.ltb_spec 1 (List.length tracks)) as [H | H];
      [| exact Hne].
    destruct tracks as [| t [| t' l]]; simpl in H; try lia.
    destruct index as [| i]; simpl; discriminate.
  - intros Hi H1. unfold Editor.removeTrack.
    apply Nat.ltb_lt in H1. rewrite H1. now apply without_length.
  - intros Hi. unfold Editor.removeTrack.
    destruct (1 <? List.length tracks)%nat; [| reflexivity].
    now apply without_beyond.
Qed.

Lemma form_rows_editing_witness :
  let tracks := [Example.row "Imagine" "John Lennon";
                 Example.row "Yesterday" "The Beatles"] in
  Form.analyzePersonality false [] (Editor.addTrack tracks)
  = Form.analyzePersonality false [] tracks
  /\ Editor.removeTrack (List.length tracks) (Editor.addTrack tracks) = tracks
  /\ Editor.removeTrack 0 tracks <> []
  /\ S (List.length (Editor.removeTrack 0 tracks)) = List.length tracks
  /\ Editor.removeTrack 5 tracks = tracks.
Proof.
  intros tracks.
  destruct (form_rows_editing tracks 0 []) as (H1 & H2 & H3 & H4 & _).
  { discriminate. }
  destruct (form_rows_editing tracks 5 []) as (_ & _ & _ & _ & H5).
  { discriminate. }
  split; [exact H1 |]. split; [exact H2 |]. split; [exact H3 |].
  split; [apply H4; simpl; lia | apply H5; simpl; lia].
Defined.

(** X28.  What the manual form sends, the handler never turns down with a
    400: with a key configured, the model is asked exactly once, about the
    complete rows of the form and no others, of which there are at least
    three. *)
Theorem form_manual_request_reaches_model
  (env : Env) (c : Collection) (spotifyUrl : jsstring)
  (tracks : list Form.Track) (reqBody : value) :
  Form.analyzePersonality false spotifyUrl tracks = Form.Post reqBody ->
  configured (GEMINI_API_KEY env) = true ->
  let sent := List.map Form.to_value (filter Form.complete tracks) in
  exists res,
    serve env (AnalyzePlaylist reqBody) c
    = (res, c, [CallAI (PlaylistPrompt sent)])
    /\ (status res = 200 \/ status res = 500)
    /\ (3 <= List.length sent)%nat.
Proof.
  intros Hpost Hk sent. unfold Form.analyzePersonality in Hpost.
  destruct (Nat.ltb_spec (List.length (filter Form.complete tracks)) 3)
    as [Hlt | Hge]; [discriminate |].
  injection Hpost as <-. fold sent.
  assert (Hlen : (3 <= List.length sent)%nat)
    by (unfold sent; now rewrite length_map).
  assert (Hne : sent <> []) by (intros E; rewrite E in Hlen; simpl in Hlen; lia).
  rewrite (analyze_manual env (VObj [(lit "tracks", VArr sent)]) VUndefined
             sent c eq_refl eq_refl eq_refl Hne).
  assert (Hr : prompt_builds sent = true)
    by apply plain_builds, to_value_plain.
  unfold analysed. rewrite Hk, Hr.
  destruct sent as [| t0 l0]; [contradiction |]. cbn [negb].
  destruct (generateContent env _) as [text |];
    [destruct (JSON_parse env _) |];
    eexists; (split; [reflexivity |]); split; auto.
Qed.

Lemma form_manual_request_reaches_model_witness :
  let tracks := [Example.row "Imagine" "John Lennon";
                 Example.row "" "nobody";
                 Example.row "Yesterday" "The Beatles";
                 Example.row "Hotel California" "Eagles"] in
  let sent := List.map Form.to_value (filter Form.complete tracks) in
  exists res,
    serve (Sample.env Sample.noon 0 true (Some (lit "{}")))
      (AnalyzePlaylist (VObj [(lit "tracks", VArr sent)])) Store.empty
    = (res, Store.empty, [CallAI (PlaylistPrompt sent)])
    /\ (status res = 200 \/ status res = 500)
    /\ (3 <= List.length sent)%nat.
Proof.
  intros tracks sent.
  apply (form_manual_request_reaches_model
           (Sample.env Sample.noon 0 true (Some (lit "{}"))) Store.empty
           [] tracks (VObj [(lit "tracks", VArr sent)]));
    reflexivity.
Defined.

(** ** Trimming twice *)

Lemma trimStart_split (s : jsstring) :
  exists w, s = w ++ trimStart s /\ forallb is_space w = true.
Proof.
  induction s as [| ch s (w & Hs & Hw)]; simpl.
  - now exists [].
  - destruct (is_space ch) eqn:E.
    + exists (ch :: w). simpl. rewrite E, Hw. split; [now f_equal | reflexivity].
    + now exists [].
Qed.

Lemma trimStart_head (s : jsstring) (ch : N) (r : jsstring) :
  trimStart s = ch :: r -> is_space ch = false.
Proof.
  induction s as [| d s IH]; simpl; [discriminate |].
  destruct (is_space d) eqn:E; [exact IH |].
  intros H. now injection H as <- _.
Qed.

Lemma trimStart_idem (s : jsstring) : trimStart (trimStart s) = trimStart s.
Proof.
  destruct (trimStart s) as [| ch r] eqn:E; [reflexivity |].
  simpl. now rewrite (trimStart_head s ch r E).
Qed.

(** [trim] leaves a trimmed string as it is. *)
Lemma trim_idem (s : jsstring) : trim (trim s) = trim s.
Proof.
  unfold trim, trimEnd.
  set (u := trimStart s). set (v := trimStart (rev u)).
  assert (Ht : trimStart (rev v) = rev v).
  { destruct (trimStart_split (rev u)) as (w & Hu & Hw). fold v in Hu.
    assert (Hu' : u = rev v ++ rev w).
    { rewrite <- (rev_involutive u), Hu. apply rev_app_distr. }
    destruct (rev v) as [| ch t] eqn:Ev; [reflexivity |].
    simpl. rewrite Hu' in *. unfold u in Hu'.
    now rewrite (trimStart_head s ch (t ++ rev w) Hu'). }
  rewrite Ht, rev_involutive. unfold v. now rewrite trimStart_idem.
Qed.

(** X29.  What the mood tracker submits is always stored: for one of the
    five moods of the picker and a note of at most 500 code units once
    trimmed, the creation is answered 200 and the entry holds the mood
    picked and the trimmed note, or no note when the field was blank;
    trimming on both sides changes nothing. *)
Theorem tracker_submission_is_stored
  (env : Env) (c : Collection) (picked : nat) (text : jsstring)
  (reqBody : value) :
  Tracker.handleMoodSubmit (Some picked) text = Some reqBody ->
  (picked < 5)%nat ->
  (List.length (trim text) <= 500)%nat ->
  let e := {| _id := next_id c; mood := of_Z (Z.of_nat picked);
              timestamp := now env;
              note := match trim text with [] => None | t => Some t end;
              song := None |} in
  exists aiInsight,
    response_of (serve env (PostMoods reqBody) c)
    = json (Created e aiInsight)
    /\ collection_of (serve env (PostMoods reqBody) c)
       = {| docs := docs c ++ [e]; next_id := N.succ (next_id c) |}.
Proof.
  intros Hsub Hp Hlen. unfold Tracker.handleMoodSubmit in Hsub.
  injection Hsub as <-.
  set (noteV := match trim text with [] => VUndefined | t => VStr t end).
  apply (post_moods_accepted env _ c (inject_Z (Z.of_nat picked))
           noteV VUndefined
           (match trim text with [] => None | t => Some t end) None).
  - reflexivity.
  - change 0%Q with (inject_Z 0). rewrite <- Zle_Qle. lia.
  - change 4%Q with (inject_Z 4). rewrite <- Zle_Qle. lia.
  - unfold noteV. destruct (trim text); reflexivity.
  - destruct (trim text); reflexivity.
  - unfold noteV. pose proof (trim_idem text) as Hi.
    destruct (trim text) as [| ch t]; [reflexivity |].
    simpl. now rewrite Hi.
  - reflexivity.
  - intros s E. destruct (trim text); [discriminate |].
    injection E as <-. exact Hlen.
  - discriminate.
Qed.

Lemma tracker_submission_is_stored_witness :
  let env := Sample.env Sample.noon 0 false None in
  let e := {| _id := 0%N; mood := of_Z 3; timestamp := Sample.noon;
              note := Some (lit "sunny"); song := None |} in
  exists aiInsight,
    response_of
      (serve env
         (PostMoods (VObj [(lit "mood", VNum (of_Z 3));
                           (lit "note", VStr (lit "sunny"))]))
         Store.empty)
    = json (Created e aiInsight)
    /\ collection_of
         (serve env
            (PostMoods (VObj [(lit "mood", VNum (of_Z 3));
                              (lit "note", VStr (lit "sunny"))]))
            Store.empty)
       = {| docs := docs Store.empty ++ [e];
            next_id := N.succ (next_id Store.empty) |}.
Proof.
  intros env e.
  apply (tracker_submission_is_stored env Store.empty 3 (lit " sunny  ")
           (VObj [(lit "mood", VNum (of_Z 3));
                  (lit "note", VStr (lit "sunny"))])).
  - reflexivity.
  - lia.
  - vm_compute. lia.
Defined.

(** ** [POST /api/music/analyze] *)

(** X30.  The music analysis never looks at the song: two bodies with the
    same title and artist get the same answer whatever their [songUrl],
    and the features are the random draws.  The answer is always 200; a
    missing title or artist is replaced by the default; the tempo lies
    between 120 and 180 for a draw of the unit interval; and without a
    key, or when the call to the model fails, the prediction is Neutral. *)
Theorem music_analysis_outcome
  (env : Env) (generate : Music.Analysis -> option jsstring)
  (r : Music.Draws) (reqBody reqBody' u u' t a : value) :
  prop reqBody "songUrl" = Some u ->
  prop reqBody "title" = Some t ->
  prop reqBody "artist" = Some a ->
  prop reqBody' "songUrl" = Some u' ->
  prop reqBody' "title" = Some t ->
  prop reqBody' "artist" = Some a ->
  Music.analyze env generate r reqBody = Music.analyze env generate r reqBody'
  /\ exists m,
       Music.status (Music.analyze env generate r reqBody) = 200
       /\ Music.body (Music.analyze env generate r reqBody) = inl m
       /\ Music.energy m = Music.u1 r
       /\ Music.valence m = Music.u2 r
       /\ Music.danceability m = Music.u3 r
       /\ (truthy t = false -> Music.title m = VStr (lit "Unknown Song"))
       /\ (truthy a = false -> Music.artist m = VStr (lit "Unknown Artist"))
       /\ ((0 <= Music.u4 r)%Q -> (Music.u4 r < 1)%Q ->
           (120 <= Music.tempo m)%Q /\ (Music.tempo m <= 180)%Q)
       /\ (configured (GEMINI_API_KEY env) = false
           \/ generate (Music.mockAnalysis r t a) = None ->
           Music.moodPrediction m = lit "Neutral")
       /\ (configured (GEMINI_API_KEY env) = false ->
           Music.asked (Music.analyze env generate r reqBody) = []).
Proof.
  intros Hu Ht Ha Hu' Ht' Ha'. unfold Music.analyze.
  rewrite Hu, Ht, Ha, Hu', Ht', Ha'. split; [reflexivity |].
  assert (Htempo : (0 <= Music.u4 r)%Q -> (Music.u4 r < 1)%Q ->
                   (120 <= 120 + Music.u4 r * 60)%Q
                   /\ (120 + Music.u4 r * 60 <= 180)%Q)
    by (intros; split; lra).
  assert (Hdt : truthy t = false -> Music.or_else t "Unknown Song"
                                    = VStr (lit "Unknown Song"))
    by (intros E; unfold Music.or_else; now rewrite E).
  assert (Hda : truthy a = false -> Music.or_else a "Unknown Artist"
                                    = VStr (lit "Unknown Artist"))
    by (intros E; unfold Music.or_else; now rewrite E).
  cbv zeta.
  destruct (configured (GEMINI_API_KEY env)) eqn:Hk;
    [destruct (interpolate (Music.title (Music.mockAnalysis r t a)));
     [destruct (interpolate (Music.artist (Music.mockAnalysis r t a)));
      [destruct (generate (Music.mockAnalysis r t a)) as [text |] eqn:Hg |]
     |] |];
    eexists;
    cbn [Music.status Music.body Music.asked Music.predicted
         Music.mockAnalysis Music.energy Music.valence Music.danceability
         Music.title Music.artist Music.tempo Music.moodPrediction];
    repeat split;
    first [ reflexivity | assumption
          | solve [cbn [Music.tempo Music.predicted Music.mockAnalysis]; lra]
          | intros E; discriminate E
          | intros [E | E]; first [discriminate E | reflexivity] ].
Qed.

Lemma music_analysis_outcome_witness :
  let env := Sample.env Sample.noon 0 false None in
  let reqBody := VObj [(lit "songUrl", VStr (lit "https://youtu.be/x"))] in
  let reqBody' := VObj [] in
  Music.analyze env (fun _ => None) Example.draws reqBody
  = Music.analyze env (fun _ => None) Example.draws reqBody'
  /\ Music.status (Music.analyze env (fun _ => None) Example.draws reqBody)
     = 200.
Proof.
  intros env reqBody reqBody'.
  destruct (music_analysis_outcome env (fun _ => None) Example.draws
              reqBody reqBody' (VStr (lit "https://youtu.be/x")) VUndefined
              VUndefined VUndefined eq_refl eq_refl eq_refl eq_refl eq_refl
              eq_refl) as (H & m & Hs & _).
  split; [exact H | exact Hs].
Defined.
